(** * TesSimple: the data store and realtime gateway of [server.js]

    A shallow embedding of [src/server.js]: the [DataStore] class (the
    in-memory collections, their durability file and the derived
    statistics) and the socket handlers registered in
    [io.on('connection', ...)].

    JavaScript values are embedded as a small untyped universe, because
    the program never validates what it receives: payloads come from the
    wire and the collections come from [JSON.parse]. Exceptions are
    explicit: a store method returns [Ok] or [Throw], and a handler either
    completes (possibly after catching) or lets the exception escape. *)

From Stdlib Require Import ZArith Lia Bool.
From stdpp Require Import base list strings.

Set Warnings "-register-all".

Open Scope Z_scope.
Open Scope string_scope.

(* ===================================================================== *)
(** ** JavaScript values *)
(* ===================================================================== *)

Module JS.

(** Primitive values. A number is finite and kept in fixed point, counted
    in units of 2^-53 (the resolution of [Math.random()]): [PNum n] is the
    number [n * 2^-53]. [NaN] and the infinities do not occur in JSON.
    Sums are rounded to binary64 by [add64] below. *)
Inductive prim : Type :=
  | PUndef
  | PNull
  | PBool (b : bool)
  | PNum (n : Z)
  | PStr (s : string).

(** Rounding of a number (in units of 2^-53) to the nearest binary64, ties
    to even: below 1 every multiple of 2^-53 is a binary64; from there on
    the 53 leading bits are kept. The numbers added by the program (a
    clock reading and a draw below 1, a counter and 1) stay far from
    overflow. *)
Definition round64_pos (n : Z) : Z :=
  (if n <? 2 ^ 53 then n
   else
     let u := 2 ^ (Z.log2 n - 52) in
     let q := n / u in
     let r := n mod u in
     let up :=
       if 2 * r <? u then false
       else if u <? 2 * r then true
       else negb (Z.even q) in
     (if up then q + 1 else q) * u)%Z.

Definition round64 (n : Z) : Z :=
  (if n <? 0 then - round64_pos (- n) else round64_pos n)%Z.

(** [a + b] on numbers. *)
Definition add64 (a b : Z) : Z := round64 (a + b).
Arguments add64 : simpl never.

(** Objects are association lists in insertion order; an array carries its
    elements and the named properties assigned to it ([arr.id = ...]). *)
Inductive value : Type :=
  | VPrim (p : prim)
  | VObj (fields : list (string * value))
  | VArr (items : list value) (props : list (string * value)).

Abbreviation VUndef := (VPrim PUndef).
Abbreviation VNull := (VPrim PNull).
Abbreviation VBool b := (VPrim (PBool b)).
Abbreviation VNum n := (VPrim (PNum n)).
Abbreviation VStr s := (VPrim (PStr s)).

Definition obj : Type := list (string * value).

(** A plain array, as [JSON.parse] or an array literal builds it. *)
Definition arr (items : list value) : value := VArr items [].

Inductive exn : Type :=
  | TypeError.

(** Outcome of a call: a value, a thrown exception, or [Unmodelled] where
    the source's behaviour rests on coercions this embedding leaves out
    (string methods applied to a collection that is a string). *)
Inductive result (A : Type) : Type :=
  | Ok (a : A)
  | Throw (e : exn)
  | Unmodelled.
Arguments Ok {A} a.
Arguments Throw {A} e.
Arguments Unmodelled {A}.

#[global] Instance result_ret : MRet result := @Ok.

#[global] Instance result_bind : MBind result := fun A B k r =>
  match r with
  | Ok a => k a
  | Throw e => Throw e
  | Unmodelled => Unmodelled
  end.

Definition prim_eqb (p q : prim) : bool :=
  match p, q with
  | PUndef, PUndef => true
  | PNull, PNull => true
  | PBool a, PBool b => Bool.eqb a b
  | PNum a, PNum b => Z.eqb a b
  | PStr a, PStr b => String.eqb a b
  | _, _ => false
  end.

(** [a === b] (and SameValueZero, which differs only on [NaN]). Objects
    and arrays compare by reference; every use below compares a value
    held by the store with one that arrived separately (from the wire or
    from another element), so two references are never the same. *)
Definition strict_eq (a b : value) : bool :=
  match a, b with
  | VPrim p, VPrim q => prim_eqb p q
  | _, _ => false
  end.

(** ToBoolean. *)
Definition truthy (v : value) : bool :=
  match v with
  | VPrim PUndef | VPrim PNull => false
  | VPrim (PBool b) => b
  | VPrim (PNum n) => negb (Z.eqb n 0)
  | VPrim (PStr s) => negb (String.eqb s "")
  | VObj _ | VArr _ _ => true
  end.

(** [a || b]. *)
Definition or_else (a b : value) : value := if truthy a then a else b.

Fixpoint get_field (k : string) (fs : obj) : value :=
  match fs with
  | [] => VUndef
  | (k', v) :: r => if String.eqb k k' then v else get_field k r
  end.

(** Assignment keeps the position of an existing key and appends a new
    one. *)
Fixpoint set_field (k : string) (x : value) (fs : obj) : obj :=
  match fs with
  | [] => [(k, x)]
  | (k', v) :: r =>
      if String.eqb k k' then (k', x) :: r else (k', v) :: set_field k x r
  end.

(** [v.k], for the property names the program reads ([id], [status],
    [user], [title], [createdAt] and the four top-level keys of the
    durability file): none of them is an index, [length] or inherited. *)
Definition get_prop (v : value) (k : string) : result value :=
  match v with
  | VPrim PUndef | VPrim PNull => Throw TypeError
  | VPrim _ => Ok VUndef
  | VObj fs => Ok (get_field k fs)
  | VArr _ ps => Ok (get_field k ps)
  end.

(** [v.k = x] in strict code (a class body is strict): creating a property
    on a primitive throws. *)
Definition set_prop (v : value) (k : string) (x : value) : result value :=
  match v with
  | VPrim _ => Throw TypeError
  | VObj fs => Ok (VObj (set_field k x fs))
  | VArr xs ps => Ok (VArr xs (set_field k x ps))
  end.

Fixpoint has_key (k : string) (fs : obj) : bool :=
  match fs with
  | [] => false
  | (k', _) :: r => String.eqb k k' || has_key k r
  end.

(** Whether converting a value to a primitive throws, as a template
    literal or [new Date(v)] does: an own [toString] that is not callable
    (no JSON value is) leaves only [valueOf], which returns the object
    itself; an array joins its elements unless an own [join] shadows the
    method. *)
Fixpoint to_string_throws (v : value) : bool :=
  match v with
  | VPrim _ => false
  | VObj fs => has_key "toString" fs
  | VArr xs ps =>
      has_key "toString" ps
      || (negb (has_key "join" ps)
          && (fix any (xs : list value) : bool :=
                match xs with
                | [] => false
                | x :: r => to_string_throws x || any r
                end) xs)
  end.

(** The value that [JSON.parse (JSON.stringify v)] returns, for [v] other
    than [undefined]: a field holding [undefined] is left out, an array
    element [undefined] becomes [null], and the named properties of an
    array are not serialized. *)
Fixpoint json_of (v : value) : value :=
  match v with
  | VPrim PUndef => VNull
  | VPrim p => VPrim p
  | VObj fs =>
      VObj ((fix fields (fs : obj) : obj :=
               match fs with
               | [] => []
               | (k, VPrim PUndef) :: r => fields r
               | (k, x) :: r => (k, json_of x) :: fields r
               end) fs)
  | VArr xs _ => VArr (List.map json_of xs) []
  end.

Definition json_fields : obj -> obj :=
  fix fields (fs : obj) : obj :=
    match fs with
    | [] => []
    | (k, VPrim PUndef) :: r => fields r
    | (k, x) :: r => (k, json_of x) :: fields r
    end.

(** Values that JSON represents as they are. *)
Fixpoint json_clean (v : value) : bool :=
  match v with
  | VPrim PUndef => false
  | VPrim _ => true
  | VObj fs =>
      (fix fields (fs : obj) : bool :=
         match fs with
         | [] => true
         | (_, x) :: r => json_clean x && fields r
         end) fs
  | VArr xs ps =>
      (fix items (xs : list value) : bool :=
         match xs with
         | [] => true
         | x :: r => json_clean x && items r
         end) xs
      && match ps with [] => true | _ => false end
  end.

End JS.

(* ===================================================================== *)
(** ** The persisted store: [class DataStore] *)
(* ===================================================================== *)

Module Store.
Import JS.

(** Where a failing [fs.writeFileSync] stops: before the file is opened,
    after the opening (which truncates the file) but before the whole
    text is written, or once the text is written (at the closing). *)
Inductive write_stage : Type :=
  | BeforeOpen
  | DuringWrite
  | AfterWrite.

(** What one call reads from the platform: [Date.now()], [Math.random()]
    (as a count of 2^-53 units), [new Date().toISOString()], whether
    [new Date(x).toDateString()] is today's date string, whether
    [fs.writeFileSync] succeeds and, when it fails, where. *)
Record Env : Type := {
  Date_now : Z;
  Math_random : Z;
  now_iso : string;
  is_today : value -> bool;
  write_ok : bool;
  write_failure : write_stage
}.

(** [this.data]. Nothing in the program fixes the shape of the four
    fields, so each is a value. *)
Record Data : Type := {
  quests : value;
  markers : value;
  customCategories : value;
  analytics : value
}.

(** The store: its data and whether a debounce timer is pending
    ([this.autoSaveTimeout]). *)
Record DataStore : Type := {
  data : Data;
  autoSaveTimeout : bool
}.

Definition set_quests (s : DataStore) (q : value) : DataStore :=
  {| data := {| quests := q; markers := markers (data s);
                customCategories := customCategories (data s);
                analytics := analytics (data s) |};
     autoSaveTimeout := autoSaveTimeout s |}.

Definition set_markers (s : DataStore) (m : value) : DataStore :=
  {| data := {| quests := quests (data s); markers := m;
                customCategories := customCategories (data s);
                analytics := analytics (data s) |};
     autoSaveTimeout := autoSaveTimeout s |}.

Definition set_customCategories (s : DataStore) (c : value) : DataStore :=
  {| data := {| quests := quests (data s); markers := markers (data s);
                customCategories := c;
                analytics := analytics (data s) |};
     autoSaveTimeout := autoSaveTimeout s |}.

Definition set_analytics (d : Data) (a : value) : Data :=
  {| quests := quests d; markers := markers d;
     customCategories := customCategories d; analytics := a |}.

(** The durability file: absent, unreadable ([readFileSync] throws), text
    that [JSON.parse] rejects, or text denoting the document [doc]. *)
Inductive file : Type :=
  | Missing
  | Unreadable
  | Malformed
  | Json (doc : value).

Inductive log : Type :=
  | Info (msg : string)
  | Error (msg : string).

Definition default_categories : list value :=
  [VStr "design"; VStr "programming"; VStr "marketing"; VStr "writing";
   VStr "other"].

(** The literal assigned to [this.data] in the constructor. *)
Definition defaults (e : Env) : Data :=
  {| quests := arr [];
     markers := arr [];
     customCategories := arr default_categories;
     analytics := VObj [("totalConnections", VNum 0);
                        ("lastUpdated", VStr (now_iso e))] |}.

(** Whether rendering [v.length] in a template literal throws: the
    [length] of an array or a string is a number, that of a plain object
    is whatever its [length] field holds. *)
Definition length_unrenderable (v : value) : bool :=
  match v with
  | VObj fs => to_string_throws (get_field "length" fs)
  | _ => false
  end.

(** [loadData()]: the four assignments and the log line, which renders
    the two lengths, run in order inside one [try]. *)
Definition loadData (f : file) (d : Data) : Data * list log :=
  let failed (d : Data) := (d, [Error "Error loading data"]) in
  match f with
  | Missing => (d, [])
  | Unreadable => failed d
  | Malformed => failed d
  | Json savedData =>
      match get_prop savedData "quests" with
      | Ok q =>
          let d1 := {| quests := or_else q (arr []); markers := markers d;
                       customCategories := customCategories d;
                       analytics := analytics d |} in
          match get_prop savedData "markers" with
          | Ok m =>
              let d2 := {| quests := quests d1; markers := or_else m (arr []);
                           customCategories := customCategories d1;
                           analytics := analytics d1 |} in
              match get_prop savedData "customCategories" with
              | Ok c =>
                  let d3 := {| quests := quests d2; markers := markers d2;
                               customCategories :=
                                 or_else c (customCategories d2);
                               analytics := analytics d2 |} in
                  match get_prop savedData "analytics" with
                  | Ok a =>
                      let d4 := set_analytics d3 (or_else a (analytics d3)) in
                      if length_unrenderable (quests d4)
                         || length_unrenderable (markers d4)
                      then failed d4
                      else (d4, [Info "Data loaded"])
                  | _ => failed d3
                  end
              | _ => failed d2
              end
          | _ => failed d1
          end
      | _ => failed d
      end
  end.

(** [new DataStore()]: the defaults, then [loadData()]. *)
Definition constructor (e : Env) (f : file) : DataStore * list log :=
  let '(d, l) := loadData f (defaults e) in
  ({| data := d; autoSaveTimeout := false |}, l).

(** The object handed to [JSON.stringify] in [saveData]. *)
Definition data_value (d : Data) : value :=
  VObj [("quests", quests d); ("markers", markers d);
        ("customCategories", customCategories d);
        ("analytics", analytics d)].

(** What a failed write of the text of [doc] leaves of file [f]: the
    file as it was, a truncated text (a proper prefix of the text of an
    object, hence not valid JSON), or the whole text. *)
Definition after_failed_write (stage : write_stage) (doc : value) (f : file)
  : file :=
  match stage with
  | BeforeOpen => f
  | DuringWrite => Malformed
  | AfterWrite => Json doc
  end.

(** [saveData()]: stamps [analytics.lastUpdated], then rewrites the whole
    file; a failure of the write is caught and logged. *)
Definition saveData (e : Env) (d : Data) (f : file)
  : Data * file * list log :=
  match set_prop (analytics d) "lastUpdated" (VStr (now_iso e)) with
  | Ok a =>
      let d' := set_analytics d a in
      let doc := json_of (data_value d') in
      if write_ok e
      then (d', Json doc, [Info "Data saved to file"])
      else (d', after_failed_write (write_failure e) doc f,
            [Error "Error saving data"])
  | _ => (d, f, [Error "Error saving data"])
  end.

Definition scheduleSave (s : DataStore) : DataStore :=
  {| data := data s; autoSaveTimeout := true |}.

(** [getAllData()]. *)
Record Snapshot : Type := {
  snap_quests : value;
  snap_markers : value;
  snap_customCategories : value
}.

Definition getAllData (s : DataStore) : Snapshot :=
  {| snap_quests := quests (data s);
     snap_markers := markers (data s);
     snap_customCategories := customCategories (data s) |}.

(** [Date.now() + Math.random()]: a binary64 sum, so that at a clock
    reading near 1.7e12 only about twelve bits of the draw survive. *)
Definition gen_id (e : Env) : value :=
  VNum (add64 (Date_now e * 2 ^ 53) (Math_random e)).

(** [a.unshift(x)]: only an array has the method. *)
Definition unshift (a x : value) : result value :=
  match a with
  | VArr xs ps => Ok (VArr (x :: xs) ps)
  | _ => Throw TypeError
  end.

(** [addQuest(quest)]: the payload itself is stamped and stored. *)
Definition addQuest (e : Env) (quest : value) (s : DataStore)
  : result (value * DataStore) :=
  q1 ← set_prop quest "id" (gen_id e);
  q2 ← set_prop q1 "createdAt" (VStr (now_iso e));
  qs ← unshift (quests (data s)) q2;
  Ok (q2, scheduleSave (set_quests s qs)).

(** [xs.find(q => q.id === id)] together with the index of the match
    ([findIndex]): the first element whose [id] is [id]; reading [q.id]
    throws on [null] and [undefined]. *)
Fixpoint find_id (id : value) (xs : list value)
  : result (option (nat * value)) :=
  match xs with
  | [] => Ok None
  | q :: r =>
      qid ← get_prop q "id";
      if strict_eq qid id then Ok (Some (0%nat, q))
      else
        found ← find_id id r;
        Ok (match found with
            | Some (i, q') => Some (S i, q')
            | None => None
            end)
  end.

(** [Object.assign(target, source)] for a truthy target: the own fields of
    the source are assigned in order; on a primitive they land on a
    temporary wrapper and are lost. *)
Definition object_assign (target : value) (source : obj) : value :=
  let put (acc : obj) (kv : string * value) := set_field kv.1 kv.2 acc in
  match target with
  | VPrim p => VPrim p
  | VObj fs => VObj (fold_left put source fs)
  | VArr xs ps => VArr xs (fold_left put source ps)
  end.

(** [updateQuest(id, updates)]: the found element is changed in place. *)
Definition updateQuest (e : Env) (id : value) (updates : obj)
    (s : DataStore) : result (value * DataStore) :=
  match quests (data s) with
  | VArr xs ps =>
      found ← find_id id xs;
      match found with
      | Some (i, quest) =>
          if truthy quest then
            q ← set_prop (object_assign quest updates) "updatedAt"
                  (VStr (now_iso e));
            Ok (q, scheduleSave (set_quests s (VArr (<[i := q]> xs) ps)))
          else Ok (VNull, s)
      | None => Ok (VNull, s)
      end
  | _ => Throw TypeError
  end.

(** [deleteQuest(id)]: [splice(index, 1)] removes the element found. *)
Definition deleteQuest (id : value) (s : DataStore)
  : result (value * DataStore) :=
  match quests (data s) with
  | VArr xs ps =>
      found ← find_id id xs;
      match found with
      | Some (i, deleted) =>
          Ok (deleted, scheduleSave (set_quests s (VArr (delete i xs) ps)))
      | None => Ok (VNull, s)
      end
  | _ => Throw TypeError
  end.

Definition addMarker (e : Env) (marker : value) (s : DataStore)
  : result (value * DataStore) :=
  m1 ← set_prop marker "id" (gen_id e);
  m2 ← set_prop m1 "createdAt" (VStr (now_iso e));
  ms ← unshift (markers (data s)) m2;
  Ok (m2, scheduleSave (set_markers s ms)).

Definition deleteMarker (id : value) (s : DataStore)
  : result (value * DataStore) :=
  match markers (data s) with
  | VArr xs ps =>
      found ← find_id id xs;
      match found with
      | Some (i, deleted) =>
          Ok (deleted, scheduleSave (set_markers s (VArr (delete i xs) ps)))
      | None => Ok (VNull, s)
      end
  | _ => Throw TypeError
  end.

(** [xs.indexOf(name)]. *)
Fixpoint indexOf (name : value) (xs : list value) : option nat :=
  match xs with
  | [] => None
  | c :: r => if strict_eq c name then Some 0%nat else S <$> indexOf name r
  end.

(** [xs.includes(name)]. *)
Definition includes (name : value) (xs : list value) : bool :=
  existsb (fun c => strict_eq c name) xs.

(** [addCategory(name)]. A string also has [includes] and [indexOf]; a
    store whose category collection is a string is left unmodelled. *)
Definition addCategory (name : value) (s : DataStore)
  : result (value * DataStore) :=
  match customCategories (data s) with
  | VArr xs ps =>
      if negb (includes name xs)
      then Ok (name,
               scheduleSave (set_customCategories s (VArr (xs ++ [name]) ps)))
      else Ok (VNull, s)
  | VPrim (PStr _) => Unmodelled
  | _ => Throw TypeError
  end.

(** [deleteCategory(name)]. *)
Definition deleteCategory (name : value) (s : DataStore)
  : result (value * DataStore) :=
  match customCategories (data s) with
  | VArr xs ps =>
      match indexOf name xs with
      | Some i =>
          Ok (default VUndef (xs !! i),
              scheduleSave (set_customCategories s (VArr (delete i xs) ps)))
      | None => Ok (VNull, s)
      end
  | VPrim (PStr _) => Unmodelled
  | _ => Throw TypeError
  end.

Definition clearAllQuests (s : DataStore) : bool * DataStore :=
  (true, scheduleSave (set_quests s (arr []))).

Definition clearAllMarkers (s : DataStore) : bool * DataStore :=
  (true, scheduleSave (set_markers s (arr []))).

(** A count as a number. *)
Definition num_of_nat (n : nat) : value := VNum (Z.of_nat n * 2 ^ 53).

(** [xs.filter(p).length] for a predicate that may throw. *)
Fixpoint count_where (p : value -> result bool) (xs : list value)
  : result nat :=
  match xs with
  | [] => Ok 0%nat
  | x :: r =>
      b ← p x;
      n ← count_where p r;
      Ok (if b : bool then S n else n)
  end.

(** [xs.map(q => q.k)]. *)
Fixpoint pluck (k : string) (xs : list value) : result (list value) :=
  match xs with
  | [] => Ok []
  | x :: r =>
      v ← get_prop x k;
      vs ← pluck k r;
      Ok (v :: vs)
  end.

(** [new Set(xs)]: an element joins unless an equal one is already in. *)
Definition set_add (seen : list value) (x : value) : list value :=
  if existsb (strict_eq x) seen then seen else seen ++ [x].

Definition new_Set (xs : list value) : list value :=
  fold_left set_add xs [].

(** [v.length] of a collection. *)
Definition length_of (v : value) : result value :=
  match v with
  | VPrim PUndef | VPrim PNull => Throw TypeError
  | VPrim (PStr _) => Unmodelled
  | VPrim _ => Ok VUndef
  | VObj fs => Ok (get_field "length" fs)
  | VArr xs _ => Ok (num_of_nat (length xs))
  end.

Record Stats : Type := {
  totalQuests : nat;
  totalMarkers : nat;
  questsOpen : nat;
  questsTaken : nat;
  activeUsers : nat;
  markersToday : nat;
  stat_customCategories : value;
  lastUpdated : value
}.

Definition status_is (st : string) (q : value) : result bool :=
  s ← get_prop q "status";
  Ok (strict_eq s (VStr st)).

(** [new Date(m.createdAt).toDateString() === today]. *)
Definition created_today (e : Env) (m : value) : result bool :=
  c ← get_prop m "createdAt";
  if to_string_throws c then Throw TypeError else Ok (is_today e c).

(** [getStats()]. [filter] and [map] exist on arrays only, so both
    collections must be arrays for the call to return. *)
Definition getStats (e : Env) (s : DataStore) : result Stats :=
  match markers (data s), quests (data s) with
  | VArr ms _, VArr qs _ =>
      today ← count_where (created_today e) ms;
      open ← count_where (status_is "open") qs;
      taken ← count_where (status_is "taken") qs;
      users ← pluck "user" qs;
      cats ← length_of (customCategories (data s));
      upd ← get_prop (analytics (data s)) "lastUpdated";
      Ok {| totalQuests := length qs;
            totalMarkers := length ms;
            questsOpen := open;
            questsTaken := taken;
            activeUsers := length (new_Set users);
            markersToday := today;
            stat_customCategories := cats;
            lastUpdated := upd |}
  | _, _ => Throw TypeError
  end.

End Store.

(* ===================================================================== *)
(** ** The realtime gateway: [io.on('connection', ...)] *)
(* ===================================================================== *)

Module Gateway.
Import JS Store.

Record UserInfo : Type := {
  connectedAt : string;
  userAgent : option string
}.

(** The process state: the store singleton, [connectedUsers] (a [Map],
    in insertion order) and [adminSockets] (a [Set], in insertion
    order). *)
Record Gateway : Type := {
  dataStore : DataStore;
  connectedUsers : list (string * UserInfo);
  adminSockets : list string
}.

Definition set_store (g : Gateway) (s : DataStore) : Gateway :=
  {| dataStore := s; connectedUsers := connectedUsers g;
     adminSockets := adminSockets g |}.

(** Outbound events. An admin notification carries the title its message
    is built from, not the rendered text. *)
Inductive event : Type :=
  | initialData (snapshot : Snapshot) (isAdmin : value)
      (connectionId : string)
  | userCount (n : nat)
  | questAdded (quest : value)
  | questUpdated (quest : value)
  | questDeleted (questId : value)
  | markerAdded (marker : value)
  | markerDeleted (markerId : value)
  | allQuestsCleared
  | allMarkersCleared
  | categoryAdded (name : value)
  | categoryDeleted (name : value)
  | adminNotification (type : string) (title : value) (payload : value)
      (timestamp : string)
  | adminStats (stats : Stats) (connected : nat) (adminCount : nat)
  | pong (timestamp : string)
  | error (message : string).

(** [io.emit] reaches every connected socket; [socket.emit] and
    [io.to(id).emit] reach one. *)
Inductive emission : Type :=
  | ToAll (ev : event)
  | ToSocket (id : string) (ev : event).

(** Inbound messages with their payload. *)
Inductive message : Type :=
  | addQuestMsg (questData : value)
  | updateQuestMsg (payload : value)
  | deleteQuestMsg (questId : value)
  | addMarkerMsg (markerData : value)
  | deleteMarkerMsg (markerId : value)
  | clearAllQuestsMsg
  | clearAllMarkersMsg
  | addCategoryMsg (categoryName : value)
  | deleteCategoryMsg (categoryName : value)
  | getAdminStatsMsg
  | pingMsg.

(** What running a handler leads to: it returns (having caught what its
    [try] covers), or an exception leaves the handler. *)
Inductive outcome : Type :=
  | Handled (g : Gateway) (out : list emission) (logs : list log)
  | Escaped (e : exn) (g : Gateway) (out : list emission) (logs : list log)
  | NotModelled.

(** Readings of the platform during one handler: those of the store call
    and the time at which each admin is notified. *)
Record Clock : Type := {
  env : Env;
  notify_iso : string -> string
}.

(** [adminSockets.forEach(adminId => io.to(adminId).emit(...))]: the
    message text is built once per admin, so the loop stops at the first
    admin when the title cannot be rendered. *)
Fixpoint notify_admins (c : Clock) (type : string) (title item : value)
    (admins : list string) : list emission * option exn :=
  match admins with
  | [] => ([], None)
  | adminId :: r =>
      if to_string_throws title then ([], Some TypeError)
      else
        let '(out, e) := notify_admins c type title item r in
        (ToSocket adminId
           (adminNotification type title item (notify_iso c adminId)) :: out,
         e)
  end.

(** [newItem.title] of a value a store method returned. *)
Definition title_of (v : value) : value :=
  match get_prop v "title" with
  | Ok t => t
  | _ => VUndef
  end.

(** [socket.on('addQuest', ...)]. *)
Definition on_addQuest (c : Clock) (socket : string) (questData : value)
    (g : Gateway) : outcome :=
  match addQuest (env c) questData (dataStore g) with
  | Ok (newQuest, s) =>
      let g' := set_store g s in
      match notify_admins c "quest_added" (title_of newQuest) newQuest
              (adminSockets g') with
      | (out, None) =>
          Handled g' (ToAll (questAdded newQuest) :: out)
            [Info "Quest added"]
      | (out, Some _) =>
          Handled g'
            (ToAll (questAdded newQuest) :: out
             ++ [ToSocket socket (error "Failed to add quest")])
            [Info "Quest added"; Error "Error adding quest"]
      end
  | Throw _ =>
      Handled g [ToSocket socket (error "Failed to add quest")]
        [Error "Error adding quest"]
  | Unmodelled => NotModelled
  end.

(** [socket.on('updateQuest', ({ id, status }) => ...)]: the parameter is
    destructured before the body, hence before its [try]. *)
Definition on_updateQuest (c : Clock) (payload : value) (g : Gateway)
  : outcome :=
  match get_prop payload "id", get_prop payload "status" with
  | Ok id, Ok status =>
      match updateQuest (env c) id [("status", status)] (dataStore g) with
      | Ok (updatedQuest, s) =>
          if truthy updatedQuest
          then Handled (set_store g s) [ToAll (questUpdated updatedQuest)]
                 [Info "Quest updated"]
          else Handled (set_store g s) [] []
      | Throw _ => Handled g [] [Error "Error updating quest"]
      | Unmodelled => NotModelled
      end
  | Throw e, _ => Escaped e g [] []
  | _, Throw e => Escaped e g [] []
  | _, _ => NotModelled
  end.

(** The shape shared by the delete and category handlers: call the store,
    broadcast when the returned value is truthy, log what is caught. *)
Definition guarded (g : Gateway) (r : result (value * DataStore))
    (ev : event) (done failed : string) : outcome :=
  match r with
  | Ok (v, s) =>
      if truthy v then Handled (set_store g s) [ToAll ev] [Info done]
      else Handled (set_store g s) [] []
  | Throw _ => Handled g [] [Error failed]
  | Unmodelled => NotModelled
  end.

Definition on_deleteQuest (questId : value) (g : Gateway) : outcome :=
  guarded g (deleteQuest questId (dataStore g)) (questDeleted questId)
    "Quest deleted" "Error deleting quest".

(** [socket.on('addMarker', ...)]: as for quests, without the error
    event. *)
Definition on_addMarker (c : Clock) (markerData : value) (g : Gateway)
  : outcome :=
  match addMarker (env c) markerData (dataStore g) with
  | Ok (newMarker, s) =>
      let g' := set_store g s in
      match notify_admins c "marker_added" (title_of newMarker) newMarker
              (adminSockets g') with
      | (out, None) =>
          Handled g' (ToAll (markerAdded newMarker) :: out)
            [Info "Marker added"]
      | (out, Some _) =>
          Handled g' (ToAll (markerAdded newMarker) :: out)
            [Info "Marker added"; Error "Error adding marker"]
      end
  | Throw _ => Handled g [] [Error "Error adding marker"]
  | Unmodelled => NotModelled
  end.

Definition on_deleteMarker (markerId : value) (g : Gateway) : outcome :=
  guarded g (deleteMarker markerId (dataStore g)) (markerDeleted markerId)
    "Marker deleted" "Error deleting marker".

Definition on_clearAllQuests (g : Gateway) : outcome :=
  Handled (set_store g (clearAllQuests (dataStore g)).2)
    [ToAll allQuestsCleared] [Info "All quests cleared"].

Definition on_clearAllMarkers (g : Gateway) : outcome :=
  Handled (set_store g (clearAllMarkers (dataStore g)).2)
    [ToAll allMarkersCleared] [Info "All markers cleared"].

Definition on_addCategory (categoryName : value) (g : Gateway) : outcome :=
  guarded g (addCategory categoryName (dataStore g))
    (categoryAdded categoryName) "Category added" "Error adding category".

Definition on_deleteCategory (categoryName : value) (g : Gateway)
  : outcome :=
  guarded g (deleteCategory categoryName (dataStore g))
    (categoryDeleted categoryName)
    "Category deleted" "Error deleting category".

(** [socket.on('getAdminStats', ...)]: no [try]. *)
Definition on_getAdminStats (c : Clock) (socket : string) (g : Gateway)
  : outcome :=
  match getStats (env c) (dataStore g) with
  | Ok stats =>
      Handled g
        [ToSocket socket
           (adminStats stats (length (connectedUsers g))
              (length (adminSockets g)))] []
  | Throw e => Escaped e g [] []
  | Unmodelled => NotModelled
  end.

(** [socket.on('ping', ...)]: no [try]. *)
Definition on_ping (c : Clock) (socket : string) (g : Gateway) : outcome :=
  Handled g [ToSocket socket (pong (now_iso (env c)))] [].

(** Dispatch of one inbound message from [socket]. *)
Definition handle (c : Clock) (socket : string) (m : message) (g : Gateway)
  : outcome :=
  match m with
  | addQuestMsg questData => on_addQuest c socket questData g
  | updateQuestMsg payload => on_updateQuest c payload g
  | deleteQuestMsg questId => on_deleteQuest questId g
  | addMarkerMsg markerData => on_addMarker c markerData g
  | deleteMarkerMsg markerId => on_deleteMarker markerId g
  | clearAllQuestsMsg => on_clearAllQuests g
  | clearAllMarkersMsg => on_clearAllMarkers g
  | addCategoryMsg categoryName => on_addCategory categoryName g
  | deleteCategoryMsg categoryName => on_deleteCategory categoryName g
  | getAdminStatsMsg => on_getAdminStats c socket g
  | pingMsg => on_ping c socket g
  end.

(** [connectedUsers.set(id, info)]. *)
Fixpoint map_set (id : string) (info : UserInfo)
    (m : list (string * UserInfo)) : list (string * UserInfo) :=
  match m with
  | [] => [(id, info)]
  | (id', old) :: r =>
      if String.eqb id id' then (id', info) :: r
      else (id', old) :: map_set id info r
  end.

(** [adminSockets.add(id)]. *)
Definition sockets_add (id : string) (ids : list string) : list string :=
  if existsb (String.eqb id) ids then ids else ids ++ [id].

(** [referer?.includes(needle)]. *)
Definition referer_includes (referer : option string) (needle : string)
  : value :=
  match referer with
  | None => VUndef
  | Some r =>
      VBool (match String.index 0 needle r with Some _ => true | None => false end)
  end.

(** [analytics.totalConnections++] in sloppy code: ignored on a
    primitive [analytics]; a number, [null] or a boolean is converted
    and incremented in binary64. The other counters (which convert to
    [NaN] or through a string) are left unmodelled. *)
Definition bump_connections (a : value) : result value :=
  match a with
  | VPrim PUndef | VPrim PNull => Throw TypeError
  | VPrim p => Ok (VPrim p)
  | VObj fs =>
      let bumped (n : Z) :=
        Ok (VObj (set_field "totalConnections" (VNum (add64 n (2 ^ 53))) fs))
      in
      match get_field "totalConnections" fs with
      | VNum n => bumped n
      | VNull => bumped 0
      | VBool b => bumped (if b then 2 ^ 53 else 0)
      | _ => Unmodelled
      end
  | VArr _ _ => Unmodelled
  end.

(** [io.on('connection', socket => ...)], up to the registration of the
    handlers. *)
Definition connect (c : Clock) (socket : string)
    (referer userAgent : option string) (g : Gateway) : outcome :=
  let users :=
    map_set socket {| connectedAt := now_iso (env c);
                      userAgent := userAgent |} (connectedUsers g) in
  let g1 := {| dataStore := dataStore g; connectedUsers := users;
               adminSockets := adminSockets g |} in
  match bump_connections (analytics (data (dataStore g))) with
  | Ok a =>
      let s := {| data := set_analytics (data (dataStore g)) a;
                  autoSaveTimeout := autoSaveTimeout (dataStore g) |} in
      let isAdmin :=
        or_else
          (or_else (referer_includes referer "/admin")
             (referer_includes referer "?admin=true"))
          (referer_includes referer "#admin") in
      let admins :=
        if truthy isAdmin then sockets_add socket (adminSockets g)
        else adminSockets g in
      Handled {| dataStore := s; connectedUsers := users;
                 adminSockets := admins |}
        [ToSocket socket (initialData (getAllData s) isAdmin socket);
         ToAll (userCount (length users))]
        (Info "New connection"
         :: if truthy isAdmin then [Info "Admin connected"] else [])
  | Throw e => Escaped e g1 [] [Info "New connection"]
  | Unmodelled => NotModelled
  end.

(** [socket.on('disconnect', ...)]. *)
Definition disconnect (socket : string) (g : Gateway) : outcome :=
  let users :=
    List.filter (fun kv => negb (String.eqb kv.1 socket)) (connectedUsers g) in
  Handled {| dataStore := dataStore g; connectedUsers := users;
             adminSockets :=
               List.filter (fun id => negb (String.eqb id socket))
                 (adminSockets g) |}
    [ToAll (userCount (length users))] [Info "User disconnected"].

(** The events a connected client receives from a list of emissions. *)
Definition delivered (socket : string) (out : list emission) : list event :=
  omap (fun em =>
          match em with
          | ToAll ev => Some ev
          | ToSocket id ev => if String.eqb id socket then Some ev else None
          end) out.

End Gateway.

(* ===================================================================== *)
(** ** Runs and observations used to state the properties *)
(* ===================================================================== *)

Module Run.
Import JS Store Gateway.

(** The store of a process started without a durability file. *)
Definition empty_store (e : Env) : DataStore := (constructor e Missing).1.

(** A sequence of [addQuest] calls, each with the readings of its own
    environment and an object payload. *)
Fixpoint addQuests (calls : list (Env * obj)) (s : DataStore)
  : result DataStore :=
  match calls with
  | [] => Ok s
  | (e, payload) :: r =>
      match addQuest e (VObj payload) s with
      | Ok (_, s') => addQuests r s'
      | Throw x => Throw x
      | Unmodelled => Unmodelled
      end
  end.

(** The quest that [addQuest] makes of a payload. *)
Definition stamped (call : Env * obj) : value :=
  VObj (set_field "createdAt" (VStr (now_iso call.1))
          (set_field "id" (gen_id call.1) call.2)).

(** The [id] of an element, [undefined] where reading it would throw. *)
Definition id_of (q : value) : value :=
  match get_prop q "id" with
  | Ok v => v
  | _ => VUndef
  end.

(** The elements of a collection. *)
Definition items_of (v : value) : list value :=
  match v with
  | VArr xs _ => xs
  | _ => []
  end.

Definition stored_ids (s : DataStore) : list value :=
  List.map id_of (items_of (quests (data s))).

(** Whether an object carries the identifier [id]. *)
Definition has_id (id : value) (q : obj) : bool :=
  strict_eq (get_field "id" q) id.

(** [i] is the first position of [qs] whose quest carries [id]. *)
Definition first_match (id : value) (qs : list obj) (i : nat) (q : obj)
  : Prop :=
  qs !! i = Some q
  /\ has_id id q = true
  /\ forall (j : nat) (q' : obj),
       (j < i)%nat -> qs !! j = Some q' -> has_id id q' = false.

(** Whether the [status] of a quest is exactly the string [st]. *)
Definition status_exactly (st : string) (q : obj) : bool :=
  match get_field "status" q with
  | VStr s => String.eqb s st
  | _ => false
  end.

(** Objects and arrays: values with an identity of their own. *)
Definition is_ref (v : value) : bool :=
  match v with
  | VPrim _ => false
  | _ => true
  end.

Definition prims_of (xs : list value) : list prim :=
  omap (fun v => match v with VPrim p => Some p | _ => None end) xs.

(** The [user] of each quest. *)
Definition users_of (qs : list obj) : list value :=
  List.map (get_field "user") qs.

(** [saveData()] on store [s] over file [f], then a fresh store built
    from what is on disk. *)
Definition save_and_reload (e e' : Env) (s : DataStore) (f : file)
  : DataStore :=
  (constructor e' (saveData e (data s) f).1.2).1.

(** The JSON image of a snapshot. *)
Definition json_snapshot (sn : Snapshot) : Snapshot :=
  {| snap_quests := json_of (snap_quests sn);
     snap_markers := json_of (snap_markers sn);
     snap_customCategories := json_of (snap_customCategories sn) |}.

(** The notification sent to admin [adminId] about a new item. *)
Definition notification (c : Clock) (type : string) (item : value)
    (adminId : string) : event :=
  adminNotification type (title_of item) item (notify_iso c adminId).

(** An [error] event, whomever it is addressed to. *)
Definition is_error (em : emission) : bool :=
  match em with
  | ToAll (error _) | ToSocket _ (error _) => true
  | _ => false
  end.

(** Handlers whose whole work, the reading of the payload included, sits
    inside their [try]. *)
Definition guarded_message (m : message) : bool :=
  match m with
  | updateQuestMsg _ | getAdminStatsMsg | pingMsg => false
  | _ => true
  end.

(** The keys [loadData] reads from the parsed document. *)
Definition top_level_keys : list string :=
  ["quests"; "markers"; "customCategories"; "analytics"].

(** Category operations on names that are strings. *)
Inductive cat_op : Type :=
  | AddCat (name : string)
  | DelCat (name : string).

Definition run_cat_op (op : cat_op) (s : DataStore)
  : result (value * DataStore) :=
  match op with
  | AddCat name => addCategory (VStr name) s
  | DelCat name => deleteCategory (VStr name) s
  end.

Fixpoint run_cat_ops (ops : list cat_op) (s : DataStore)
  : result DataStore :=
  match ops with
  | [] => Ok s
  | op :: r =>
      match run_cat_op op s with
      | Ok (_, s') => run_cat_ops r s'
      | Throw x => Throw x
      | Unmodelled => Unmodelled
      end
  end.

End Run.

(* ===================================================================== *)
(** ** Concrete inputs *)
(* ===================================================================== *)

Module Examples.
Import JS Store Gateway Run.

(** Readings taken at millisecond [ms] with random draw [r]. *)
Definition env_at (ms r : Z) (iso : string) : Env :=
  {| Date_now := ms; Math_random := r; now_iso := iso;
     is_today := fun _ => true; write_ok := true;
     write_failure := BeforeOpen |}.

(** Three readings whose ids differ: two draws half a unit apart within
    one millisecond, and a later millisecond. *)
Definition env0 : Env := env_at 1700000000000 1 "2023-11-14T22:13:20.000Z".
Definition env1 : Env :=
  env_at 1700000000000 (2 ^ 52) "2023-11-14T22:13:20.000Z".
Definition env2 : Env := env_at 1700000000001 1 "2023-11-14T22:13:20.001Z".


(** A reading in the millisecond of [env0] whose draw, about 0.00006,
    differs from that of [env0] by less than the spacing 2^-12 of the
    binary64 numbers near 1.7e12. *)
Definition env0_close : Env :=
  env_at 1700000000000 (2 ^ 39) "2023-11-14T22:13:20.000Z".

Definition fix_sign : obj :=
  [("title", VStr "Fix sign"); ("user", VStr "alice");
   ("status", VStr "open")].

Definition paint_door : obj :=
  [("title", VStr "Paint door"); ("user", VStr "bob");
   ("status", VStr "taken")].

(** The quest stored for [fix_sign] by a call reading [env0]. *)
Definition fix_sign_stored : obj :=
  set_field "createdAt" (VStr (now_iso env0))
    (set_field "id" (gen_id env0) fix_sign).

Definition store_fix_sign : DataStore :=
  scheduleSave (set_quests (empty_store env0) (arr [VObj fix_sign_stored])).

Definition clock1 : Clock :=
  {| env := env1; notify_iso := fun _ => "2023-11-14T22:13:20.002Z" |}.

(** Client [A] came from the main page, client [B] from the admin page. *)
Definition gateway_ab (s : DataStore) : Gateway :=
  {| dataStore := s;
     connectedUsers :=
       [("A", {| connectedAt := "2023-11-14T22:13:20.000Z";
                 userAgent := Some "Mozilla/5.0" |});
        ("B", {| connectedAt := "2023-11-14T22:13:20.000Z";
                 userAgent := Some "Mozilla/5.0" |})];
     adminSockets := ["B"] |}.

(** The fresh store after two connections were counted. *)
Definition store_two_connections : DataStore :=
  {| data :=
       set_analytics (data (empty_store env0))
         (VObj [("totalConnections", VNum (2 * 2 ^ 53));
                ("lastUpdated", VStr (now_iso env0))]);
     autoSaveTimeout := false |}.

(** A process that has just started, without a durability file. *)
Definition gateway0 : Gateway :=
  {| dataStore := empty_store env0; connectedUsers := [];
     adminSockets := [] |}.

Definition clock0 : Clock :=
  {| env := env0; notify_iso := fun _ => "2023-11-14T22:13:20.001Z" |}.

(** [A] connects from the main page, then [B] from the admin page. *)
Definition connected_ab : option Gateway :=
  match connect clock0 "A" (Some "http://localhost:3000/")
          (Some "Mozilla/5.0") gateway0 with
  | Handled g _ _ =>
      match connect clock0 "B" (Some "http://localhost:3000/admin")
              (Some "Mozilla/5.0") g with
      | Handled g' _ _ => Some g'
      | _ => None
      end
  | _ => None
  end.

End Examples.

(* ===================================================================== *)
(** ** The query surface and further observations *)
(* ===================================================================== *)

Module Query.
Import JS Store.

(** The object [getAllData()] returns, as a value. *)
Definition snapshot_value (sn : Snapshot) : value :=
  VObj [("quests", snap_quests sn); ("markers", snap_markers sn);
        ("customCategories", snap_customCategories sn)].

(** [app.get('/api/data', ...)]: the document denoted by the body that
    [res.json(dataStore.getAllData())] sends. *)
Definition api_data (s : DataStore) : value :=
  json_of (snapshot_value (getAllData s)).

End Query.

Module Shape.
Import JS Store Gateway.

Definition is_array (v : value) : bool :=
  match v with
  | VArr _ _ => true
  | _ => false
  end.

(** The session identifiers in [connectedUsers]. *)
Definition sessions (g : Gateway) : list string :=
  List.map fst (connectedUsers g).

(** [needle] occurs in [r] at some position. *)
Definition occurs_in (needle r : string) : Prop :=
  exists m : nat, String.substring m (String.length needle) r = needle.

(** The referring page mentions an admin path, query flag or fragment. *)
Definition admin_referer (referer : option string) : Prop :=
  exists r, referer = Some r
            /\ (occurs_in "/admin" r \/ occurs_in "?admin=true" r
                \/ occurs_in "#admin" r).

(** One transition of the process: a client connects, a client
    disconnects, or a connected client's message is handled to the end. *)
Inductive step (g g' : Gateway) : Prop :=
  | step_connect (c : Clock) (socket : string)
      (referer agent : option string) (out : list emission)
      (logs : list log) :
      connect c socket referer agent g = Handled g' out logs -> step g g'
  | step_disconnect (socket : string) (out : list emission)
      (logs : list log) :
      disconnect socket g = Handled g' out logs -> step g g'
  | step_handle (c : Clock) (socket : string) (m : message)
      (out : list emission) (logs : list log) :
      handle c socket m g = Handled g' out logs -> step g g'.

(** The states a process can be in, started on any store with nobody
    connected. *)
Inductive reachable : Gateway -> Prop :=
  | reachable_start (s : DataStore) :
      reachable {| dataStore := s; connectedUsers := []; adminSockets := [] |}
  | reachable_step (g g' : Gateway) :
      reachable g -> step g g' -> reachable g'.

(** Sessions are listed once, admins are listed once, and every admin is
    a connected session. *)
Definition registry_ok (g : Gateway) : Prop :=
  NoDup (sessions g)
  /\ NoDup (adminSockets g)
  /\ forall id, id ∈ adminSockets g -> id ∈ sessions g.

End Shape.

(* ===================================================================== *)
(** ** The debounce timer of [scheduleSave] *)
(* ===================================================================== *)

Module Timers.

(** The timeouts behind [scheduleSave]: [setTimeout] returns a fresh
    handle and arms it; a timeout stays armed until it expires or is
    cleared. [autoSaveHandle] is [this.autoSaveTimeout] ([null] at
    first), [saves] counts the [saveData()] calls made by expired
    timeouts. The ten-second [setInterval] saves on its own and never
    touches these. *)
Record Debounce : Type := {
  autoSaveHandle : option nat;
  armed : list nat;
  fresh : nat;
  saves : nat
}.

Definition start : Debounce :=
  {| autoSaveHandle := None; armed := []; fresh := 0; saves := 0 |}.

(** [clearTimeout(h)]: harmless on a handle that is no longer armed. *)
Definition clearTimeout (h : nat) (hs : list nat) : list nat :=
  List.filter (fun x => negb (Nat.eqb x h)) hs.

(** [scheduleSave()]. *)
Definition scheduleSave (t : Debounce) : Debounce :=
  let hs :=
    match autoSaveHandle t with
    | Some h => clearTimeout h (armed t)
    | None => armed t
    end in
  {| autoSaveHandle := Some (fresh t);
     armed := fresh t :: hs;
     fresh := S (fresh t);
     saves := saves t |}.

(** The armed timeout [h] expires: its callback calls [saveData()]; the
    field keeps the stale handle. Nothing happens for a handle that is
    not armed. *)
Definition expire (h : nat) (t : Debounce) : option Debounce :=
  if existsb (Nat.eqb h) (armed t)
  then Some {| autoSaveHandle := autoSaveHandle t;
               armed := clearTimeout h (armed t);
               fresh := fresh t;
               saves := S (saves t) |}
  else None.

Inductive tick : Type :=
  | Mutation
  | Expiry (h : nat).

Fixpoint run (ts : list tick) (t : Debounce) : option Debounce :=
  match ts with
  | [] => Some t
  | Mutation :: r => run r (scheduleSave t)
  | Expiry h :: r =>
      match expire h t with
      | Some t' => run r t'
      | None => None
      end
  end.

Definition mutations (ts : list tick) : nat :=
  length (List.filter (fun k => match k with Mutation => true | _ => false end)
            ts).

(** At most the timeout held in the field is armed. *)
Definition one_pending (t : Debounce) : Prop :=
  armed t = [] \/ exists h, autoSaveHandle t = Some h /\ armed t = [h].

End Timers.

(* ===================================================================== *)
(** ** Properties *)
(* ===================================================================== *)

Import JS Store Gateway Run Examples.

Section Fields.

Lemma get_set_field_eq (k : string) (x : value) (fs : obj) :
  get_field k (set_field k x fs) = x.
Proof.
  induction fs as [|[k' v] r IH]; simpl.
  - by rewrite String.eqb_refl.
  - destruct (String.eqb k k') eqn:E; simpl; rewrite E; auto.
Qed.

Lemma get_set_field_ne (k k' : string) (x : value) (fs : obj) :
  k <> k' -> get_field k (set_field k' x fs) = get_field k fs.
Proof.
  intros Hne. induction fs as [|[k2 v] r IH]; simpl.
  - destruct (String.eqb k k') eqn:E; [|done].
    apply String.eqb_eq in E. contradiction.
  - destruct (String.eqb k' k2) eqn:E2; simpl.
    + apply String.eqb_eq in E2. subst k2.
      destruct (String.eqb k k') eqn:E; [|done].
      apply String.eqb_eq in E. contradiction.
    + destruct (String.eqb k k2); auto.
Qed.

Lemma has_key_set_field_ne (k k' : string) (x : value) (fs : obj) :
  k <> k' -> has_key k (set_field k' x fs) = has_key k fs.
Proof.
  intros Hne. induction fs as [|[k2 v] r IH]; simpl.
  - destruct (String.eqb k k') eqn:E; [|done].
    apply String.eqb_eq in E. contradiction.
  - destruct (String.eqb k' k2) eqn:E2; simpl; [done|].
    by rewrite IH.
Qed.

End Fields.

Section AddQuest.

Lemma addQuest_object (e : Env) (fs : obj) (s : DataStore)
    (xs : list value) (ps : obj) :
  quests (data s) = VArr xs ps ->
  addQuest e (VObj fs) s
  = Ok (stamped (e, fs),
        scheduleSave (set_quests s (VArr (stamped (e, fs) :: xs) ps))).
Proof.
  intros Hq. unfold addQuest. simpl. rewrite Hq. reflexivity.
Qed.

Lemma addQuests_spec (calls : list (Env * obj)) :
  forall (s : DataStore) (xs : list value) (ps : obj),
    quests (data s) = VArr xs ps ->
    exists s',
      addQuests calls s = Ok s'
      /\ quests (data s') = VArr (rev (List.map stamped calls) ++ xs) ps.
Proof.
  induction calls as [|[e p] r IH]; intros s xs ps Hq.
  - exists s. by split.
  - simpl. rewrite (addQuest_object e p s xs ps Hq).
    destruct (IH (scheduleSave (set_quests s (VArr (stamped (e, p) :: xs) ps)))
                (stamped (e, p) :: xs) ps eq_refl) as (s' & Hrun & Hq').
    exists s'. split; [done|].
    rewrite Hq'. by rewrite <- app_assoc.
Qed.

Lemma id_of_stamped (call : Env * obj) : id_of (stamped call) = gen_id call.1.
Proof.
  unfold id_of, stamped. simpl.
  rewrite get_set_field_ne by discriminate.
  apply get_set_field_eq.
Qed.

End AddQuest.

(** C1 (as stated, refuted): two [addQuest] calls within one millisecond
    whose draws differ by less than the spacing of the binary64 numbers
    at that clock reading store two quests with the same id. *)
Lemma addQuest_ids_can_collide :
  Math_random env0 <> Math_random env0_close
  /\ exists s,
       addQuests [(env0, fix_sign); (env0_close, paint_door)]
         (empty_store env0) = Ok s
       /\ length (items_of (quests (data s))) = 2%nat
       /\ ~ NoDup (stored_ids s).
Proof.
  split; [discriminate|].
  eexists. split; [reflexivity|]. split; [reflexivity|].
  intros H. inversion H as [|x l Hnotin _]; subst.
  apply Hnotin. left.
Qed.

(** C1 (amended): after any sequence of [addQuest] calls with object
    payloads on an empty store, the quests are exactly the stamped
    payloads, most recent first; their number is the number of calls;
    their ids are the numbers [Date.now() + Math.random()] computed by
    the calls as binary64 sums, so they are pairwise distinct whenever
    those rounded sums are. *)
Theorem addQuest_sequence (e0 : Env) (calls : list (Env * obj)) :
  exists s,
    addQuests calls (empty_store e0) = Ok s
    /\ quests (data s) = arr (rev (List.map stamped calls))
    /\ length (items_of (quests (data s))) = length calls
    /\ stored_ids s
       = rev (List.map
                (fun c => VNum (add64 (Date_now c.1 * 2 ^ 53)
                                  (Math_random c.1))) calls)
    /\ stored_ids s = rev (List.map (fun c => gen_id c.1) calls)
    /\ (NoDup (List.map (fun c => gen_id c.1) calls) -> NoDup (stored_ids s)).
Proof.
  destruct (addQuests_spec calls (empty_store e0) [] [] eq_refl)
    as (s & Hrun & Hq).
  rewrite app_nil_r in Hq.
  assert (Hids : stored_ids s = rev (List.map (fun c => gen_id c.1) calls)).
  { unfold stored_ids. rewrite Hq. simpl.
    rewrite List.map_rev, List.map_map. f_equal.
    apply List.map_ext. intros c. apply id_of_stamped. }
  exists s. split; [done|]. split; [done|]. split.
  { rewrite Hq. simpl. by rewrite length_rev, length_map. }
  split; [exact Hids|]. split; [exact Hids|].
  intros Hnd. rewrite Hids.
  apply NoDup_ListNoDup, List.NoDup_rev, NoDup_ListNoDup, Hnd.
Qed.

Lemma addQuest_sequence_witness :
  exists s,
    addQuests [(env0, fix_sign); (env1, paint_door); (env2, fix_sign)]
      (empty_store env0) = Ok s
    /\ length (items_of (quests (data s))) = 3%nat
    /\ stored_ids s
       = [VNum (1700000000001 * 2 ^ 53);
          VNum (1700000000000 * 2 ^ 53 + 2 ^ 52);
          VNum (1700000000000 * 2 ^ 53)]
    /\ NoDup (stored_ids s).
Proof.
  destruct (addQuest_sequence env0
              [(env0, fix_sign); (env1, paint_door); (env2, fix_sign)])
    as (s & Hrun & _ & Hlen & Hids & _ & Hnd).
  exists s. split; [exact Hrun|]. split; [exact Hlen|].
  split; [rewrite Hids; vm_compute; reflexivity|].
  apply Hnd, NoDup_ListNoDup. vm_compute.
  repeat (constructor; [simpl; intuition discriminate|]).
  constructor.
Defined.

(** C6 (as stated, refuted): a payload that supplies its own [id] does not
    keep it; the stored quest carries the id the store assigned. *)
Lemma addQuest_overwrites_supplied_id :
  let payload := [("id", VStr "mine"); ("title", VStr "Fix sign")] in
  exists q s,
    addQuest env0 (VObj payload) (empty_store env0) = Ok (VObj q, s)
    /\ get_field "id" payload = VStr "mine"
    /\ get_field "id" q <> get_field "id" payload.
Proof.
  simpl. eexists _, _. split; [reflexivity|]. split; [reflexivity|].
  discriminate.
Qed.

(** C6 (amended): [addQuest] stores, at the head of the collection, a
    quest that has every field of the payload other than [id] and
    [createdAt] with the payload's value (and no field the payload lacks
    besides those two); [id] and [createdAt] are the store's, whatever the
    payload supplied for them. *)
Theorem addQuest_copies_fields (e : Env) (payload : obj) (s : DataStore)
    (xs : list value) (ps : obj) :
  quests (data s) = VArr xs ps ->
  exists q s',
    addQuest e (VObj payload) s = Ok (VObj q, s')
    /\ quests (data s') = VArr (VObj q :: xs) ps
    /\ (forall k, k <> "id" -> k <> "createdAt" ->
          get_field k q = get_field k payload
          /\ has_key k q = has_key k payload)
    /\ get_field "id" q = gen_id e
    /\ get_field "createdAt" q = VStr (now_iso e).
Proof.
  intros Hq. rewrite (addQuest_object e payload s xs ps Hq).
  eexists _, _. split; [reflexivity|]. split; [reflexivity|].
  split; [|split].
  - intros k Hid Hcr.
    rewrite !get_set_field_ne, !has_key_set_field_ne by done. done.
  - rewrite get_set_field_ne by discriminate. apply get_set_field_eq.
  - apply get_set_field_eq.
Qed.

Lemma addQuest_copies_fields_witness :
  exists q s',
    addQuest env0 (VObj fix_sign) (empty_store env0) = Ok (VObj q, s')
    /\ get_field "title" q = VStr "Fix sign"
    /\ get_field "user" q = VStr "alice".
Proof.
  destruct (addQuest_copies_fields env0 fix_sign (empty_store env0) [] []
              eq_refl) as (q & s' & Hadd & _ & Hcopy & _).
  exists q, s'. split; [exact Hadd|].
  split.
  - rewrite (proj1 (Hcopy "title" ltac:(discriminate) ltac:(discriminate))).
    reflexivity.
  - rewrite (proj1 (Hcopy "user" ltac:(discriminate) ltac:(discriminate))).
    reflexivity.
Defined.

Section Equality.

Lemma prim_eqb_eq (p q : prim) : prim_eqb p q = true <-> p = q.
Proof.
  destruct p, q; simpl; split; try done; intros H.
  - f_equal. by apply Bool.eqb_prop.
  - injection H as ->. apply Bool.eqb_reflx.
  - f_equal. by apply Z.eqb_eq.
  - injection H as ->. apply Z.eqb_refl.
  - f_equal. by apply String.eqb_eq.
  - injection H as ->. apply String.eqb_refl.
Qed.

Lemma strict_eq_prim (v : value) (p : prim) :
  strict_eq v (VPrim p) = true <-> v = VPrim p.
Proof.
  destruct v as [q| |]; simpl; split; try done.
  - intros H. f_equal. by apply prim_eqb_eq.
  - intros [= ->]. by apply prim_eqb_eq.
Qed.

Lemma includes_prim (p : prim) (xs : list value) :
  includes (VPrim p) xs = true <-> VPrim p ∈ xs.
Proof.
  unfold includes. induction xs as [|c r IH]; simpl.
  - split; [done|]. by intros ?%elem_of_nil.
  - rewrite orb_true_iff, elem_of_cons, IH, strict_eq_prim.
    split; (intros [H|H]; [left|right]); done.
Qed.

Lemma indexOf_lookup (p : prim) (xs : list value) (i : nat) :
  indexOf (VPrim p) xs = Some i -> xs !! i = Some (VPrim p).
Proof.
  revert i. induction xs as [|c r IH]; intros i; simpl; [done|].
  destruct (strict_eq c (VPrim p)) eqn:E.
  - intros [= <-]. simpl. f_equal. by apply strict_eq_prim.
  - destruct (indexOf (VPrim p) r) as [j|]; simpl; [|done].
    intros [= <-]. simpl. by apply IH.
Qed.

Lemma indexOf_none (p : prim) (xs : list value) :
  indexOf (VPrim p) xs = None -> VPrim p ∉ xs.
Proof.
  induction xs as [|c r IH]; simpl.
  - intros _. by intros ?%elem_of_nil.
  - destruct (strict_eq c (VPrim p)) eqn:E; [done|].
    destruct (indexOf (VPrim p) r); simpl; [done|].
    intros _ [Hc|H]%elem_of_cons.
    + symmetry in Hc. apply strict_eq_prim in Hc. congruence.
    + by apply IH.
Qed.

End Equality.

Section Categories.

Lemma addCategory_present (name : string) (s : DataStore)
    (xs : list value) (ps : obj) :
  customCategories (data s) = VArr xs ps ->
  VStr name ∈ xs ->
  addCategory (VStr name) s = Ok (VNull, s).
Proof.
  intros Hc Hin. unfold addCategory. rewrite Hc.
  apply includes_prim in Hin. by rewrite Hin.
Qed.

Lemma addCategory_absent (name : string) (s : DataStore)
    (xs : list value) (ps : obj) :
  customCategories (data s) = VArr xs ps ->
  VStr name ∉ xs ->
  addCategory (VStr name) s
  = Ok (VStr name,
        scheduleSave (set_customCategories s (VArr (xs ++ [VStr name]) ps))).
Proof.
  intros Hc Hin. unfold addCategory. rewrite Hc.
  destruct (includes (VStr name) xs) eqn:E; [|done].
  by apply includes_prim in E.
Qed.

Lemma run_cat_op_NoDup (op : cat_op) (s : DataStore)
    (xs : list value) (ps : obj) :
  customCategories (data s) = VArr xs ps ->
  NoDup xs ->
  exists v s' xs',
    run_cat_op op s = Ok (v, s')
    /\ customCategories (data s') = VArr xs' ps
    /\ NoDup xs'.
Proof.
  intros Hc Hnd. destruct op as [name|name]; simpl.
  - assert (VStr name ∈ xs \/ VStr name ∉ xs) as [Hin|Hin].
    { destruct (includes (VStr name) xs) eqn:E.
      - left. by apply includes_prim.
      - right. intros Hin%includes_prim. congruence. }
    + rewrite (addCategory_present name s xs ps Hc Hin).
      by exists VNull, s, xs.
    + rewrite (addCategory_absent name s xs ps Hc Hin).
      eexists _, _, _. split; [reflexivity|]. split; [reflexivity|].
      apply NoDup_app. split; [done|]. split; [|apply NoDup_singleton].
      intros x Hx ->%list_elem_of_singleton. done.
  - unfold deleteCategory. rewrite Hc.
    destruct (indexOf (VStr name) xs) as [i|] eqn:E.
    + eexists _, _, _. split; [reflexivity|]. split; [reflexivity|].
      eapply sublist_NoDup; [done|apply sublist_delete].
    + by exists VNull, s, xs.
Qed.

Lemma run_cat_ops_NoDup (ops : list cat_op) :
  forall (s : DataStore) (xs : list value) (ps : obj),
    customCategories (data s) = VArr xs ps ->
    NoDup xs ->
    exists s' xs',
      run_cat_ops ops s = Ok s'
      /\ customCategories (data s') = VArr xs' ps
      /\ NoDup xs'.
Proof.
  induction ops as [|op r IH]; intros s xs ps Hc Hnd; simpl.
  - by exists s, xs.
  - destruct (run_cat_op_NoDup op s xs ps Hc Hnd)
      as (v & s1 & xs1 & -> & Hc1 & Hnd1).
    by apply (IH s1 xs1 ps).
Qed.

End Categories.

(** C7: [addCategory(name)] on a name already in the collection (the very
    same string) changes nothing and returns [null]; on a new name it
    appends the name. Hence, from the five seeded defaults, any sequence
    of [addCategory] and [deleteCategory] calls runs to completion and
    leaves each name at most once in the collection. *)
Theorem addCategory_keeps_names_unique :
  (forall (name : string) (s : DataStore) (xs : list value) (ps : obj),
      customCategories (data s) = VArr xs ps ->
      VStr name ∈ xs ->
      addCategory (VStr name) s = Ok (VNull, s))
  /\ (forall (name : string) (s : DataStore) (xs : list value) (ps : obj),
        customCategories (data s) = VArr xs ps ->
        VStr name ∉ xs ->
        addCategory (VStr name) s
        = Ok (VStr name,
              scheduleSave
                (set_customCategories s (VArr (xs ++ [VStr name]) ps))))
  /\ (forall (e : Env) (ops : list cat_op),
        exists s xs,
          run_cat_ops ops (empty_store e) = Ok s
          /\ customCategories (data s) = arr xs
          /\ NoDup xs).
Proof.
  split; [exact addCategory_present|].
  split; [exact addCategory_absent|].
  intros e ops.
  apply (run_cat_ops_NoDup ops (empty_store e) default_categories []);
    [reflexivity|].
  apply NoDup_ListNoDup.
  repeat (constructor; [simpl; intuition discriminate|]).
  constructor.
Qed.

Lemma addCategory_keeps_names_unique_witness :
  addCategory (VStr "design") (empty_store env0)
  = Ok (VNull, empty_store env0)
  /\ exists s',
       addCategory (VStr "music") (empty_store env0) = Ok (VStr "music", s')
       /\ customCategories (data s')
          = arr (default_categories ++ [VStr "music"]).
Proof.
  destruct addCategory_keeps_names_unique as (Hpresent & Habsent & _).
  split.
  - apply (Hpresent "design" (empty_store env0) default_categories []);
      [reflexivity|].
    constructor.
  - eexists. split.
    + apply (Habsent "music" (empty_store env0) default_categories []);
        [reflexivity|].
      intros Hin. apply includes_prim in Hin. discriminate Hin.
    + reflexivity.
Defined.

Section Find.

Lemma find_id_objects (id : value) (qs : list obj) :
  (exists i q, first_match id qs i q
               /\ find_id id (List.map VObj qs) = Ok (Some (i, VObj q)))
  \/ ((forall q, q ∈ qs -> has_id id q = false)
      /\ find_id id (List.map VObj qs) = Ok None).
Proof.
  induction qs as [|q0 r IH]; simpl.
  - right. split; [|done]. by intros q ?%elem_of_nil.
  - fold (has_id id q0). destruct (has_id id q0) eqn:E.
    + left. exists 0%nat, q0. split; [|done].
      split; [done|]. split; [done|]. intros j q' Hj. lia.
    + destruct IH as [(i & q & (Hi & Hq & Hfirst) & ->)|[Hnone ->]].
      * left. exists (S i), q. split; [|done].
        split; [done|]. split; [done|].
        intros [|j] q' Hj Hl; simpl in Hl.
        -- by injection Hl as <-.
        -- apply (Hfirst j); [lia|done].
      * right. split; [|done].
        intros q [->|Hin]%elem_of_cons; auto.
Qed.

Lemma first_match_unique (id : value) (qs : list obj) (i j : nat)
    (q q' : obj) :
  first_match id qs i q -> first_match id qs j q' -> i = j /\ q = q'.
Proof.
  intros (Hi & Hq & Hfi) (Hj & Hq' & Hfj).
  assert (i = j) as ->.
  { destruct (Nat.lt_trichotomy i j) as [H|[H|H]]; [|done|].
    - specialize (Hfj i q H Hi). congruence.
    - specialize (Hfi j q' H Hj). congruence. }
  split; [done|]. congruence.
Qed.

Lemma first_match_exists (id : value) (qs : list obj) (q : obj) :
  q ∈ qs -> has_id id q = true -> exists i q', first_match id qs i q'.
Proof.
  intros Hin Hq.
  destruct (find_id_objects id qs) as [(i & q' & Hm & _)|[Hnone _]].
  - by exists i, q'.
  - specialize (Hnone q Hin). congruence.
Qed.

End Find.

Section DeleteQuest.

Lemma deleteQuest_found (id : value) (s : DataStore) (qs : list obj)
    (ps : obj) (i : nat) (q : obj) :
  quests (data s) = VArr (List.map VObj qs) ps ->
  first_match id qs i q ->
  deleteQuest id s
  = Ok (VObj q,
        scheduleSave (set_quests s (VArr (List.map VObj (delete i qs)) ps))).
Proof.
  intros Hq Hm. unfold deleteQuest. rewrite Hq.
  destruct (find_id_objects id qs) as [(j & q' & Hm' & ->)|[Hnone _]].
  - destruct (first_match_unique id qs i j q q' Hm Hm') as [<- <-].
    simpl. by rewrite <- (list_fmap_delete VObj).
  - destruct Hm as (Hi & Hid & _).
    apply list_elem_of_lookup_2 in Hi. specialize (Hnone q Hi). congruence.
Qed.

Lemma deleteQuest_not_found (id : value) (s : DataStore) (qs : list obj)
    (ps : obj) :
  quests (data s) = VArr (List.map VObj qs) ps ->
  (forall q, q ∈ qs -> has_id id q = false) ->
  deleteQuest id s = Ok (VNull, s).
Proof.
  intros Hq Hnone. unfold deleteQuest. rewrite Hq.
  destruct (find_id_objects id qs) as [(j & q' & Hm' & _)|[_ ->]]; [|done].
  destruct Hm' as (Hj & Hid & _).
  apply list_elem_of_lookup_2 in Hj. specialize (Hnone q' Hj). congruence.
Qed.

Lemma delete_only_match (id : value) (qs : list obj) (i : nat) :
  (forall (j : nat) (q' : obj),
     qs !! j = Some q' -> has_id id q' = true -> j = i) ->
  forall q, q ∈ delete i qs -> has_id id q = false.
Proof.
  intros Honly q [j Hj]%list_elem_of_lookup_1.
  destruct (has_id id q) eqn:E; [|done]. exfalso.
  destruct (decide (j < i)%nat) as [Hlt|Hge].
  - rewrite list_lookup_delete_lt in Hj by done.
    specialize (Honly j q Hj E). lia.
  - rewrite list_lookup_delete_ge in Hj by lia.
    specialize (Honly (S j) q Hj E). lia.
Qed.

End DeleteQuest.

(** C8 (as stated, refuted): when two stored quests carry the same id, the
    second [deleteQuest] with that id is not a no-op: it removes and
    returns the other quest. *)
Lemma deleteQuest_twice_removes_two :
  exists s0 q1 s1 q2 s2,
    addQuests [(env0, fix_sign); (env0, paint_door)] (empty_store env0)
    = Ok s0
    /\ deleteQuest (gen_id env0) s0 = Ok (q1, s1)
    /\ deleteQuest (gen_id env0) s1 = Ok (q2, s2)
    /\ q2 <> VNull
    /\ quests (data s1) <> quests (data s2).
Proof.
  eexists _, _, _, _, _.
  split; [reflexivity|]. split; [reflexivity|]. split; [reflexivity|].
  split; vm_compute; discriminate.
Qed.

(** C8 (amended): on a store whose quests include one with the given id,
    [deleteQuest(id)] returns the first such quest and removes that one
    entry, the others keeping their order and the other collections
    untouched; if no other stored quest carries the id, a second
    [deleteQuest(id)] changes nothing and returns [null]. *)
Theorem deleteQuest_removes_one (id : value) (s : DataStore)
    (qs : list obj) (ps : obj) (q0 : obj) :
  quests (data s) = VArr (List.map VObj qs) ps ->
  q0 ∈ qs ->
  has_id id q0 = true ->
  exists i q s1,
    first_match id qs i q
    /\ deleteQuest id s = Ok (VObj q, s1)
    /\ quests (data s1) = VArr (List.map VObj (delete i qs)) ps
    /\ delete i qs = (take i qs ++ drop (S i) qs)%list
    /\ S (length (delete i qs)) = length qs
    /\ markers (data s1) = markers (data s)
    /\ customCategories (data s1) = customCategories (data s)
    /\ analytics (data s1) = analytics (data s)
    /\ ((forall (j : nat) (q' : obj),
           qs !! j = Some q' -> has_id id q' = true -> j = i) ->
        deleteQuest id s1 = Ok (VNull, s1)).
Proof.
  intros Hq Hin Hid.
  destruct (first_match_exists id qs q0 Hin Hid) as (i & q & Hm).
  exists i, q, (scheduleSave
                  (set_quests s (VArr (List.map VObj (delete i qs)) ps))).
  split; [done|]. split; [by apply deleteQuest_found|].
  split; [done|]. split; [apply delete_take_drop|].
  split.
  { destruct Hm as (Hi & _). apply lookup_lt_Some in Hi.
    rewrite length_delete by (by apply lookup_lt_is_Some_2). lia. }
  split; [done|]. split; [done|]. split; [done|].
  intros Honly.
  apply (deleteQuest_not_found id _ (delete i qs) ps); [done|].
  by apply delete_only_match.
Qed.

Lemma deleteQuest_removes_one_witness :
  exists s0 q s1,
    addQuests [(env0, fix_sign); (env1, paint_door)] (empty_store env0)
    = Ok s0
    /\ stored_ids s0
       = [VNum (1700000000000 * 2 ^ 53 + 2 ^ 52);
          VNum (1700000000000 * 2 ^ 53)]
    /\ gen_id env0 = VNum (1700000000000 * 2 ^ 53)
    /\ deleteQuest (gen_id env0) s0 = Ok (VObj q, s1)
    /\ get_field "title" q = VStr "Fix sign"
    /\ stored_ids s1 = [VNum (1700000000000 * 2 ^ 53 + 2 ^ 52)]
    /\ deleteQuest (gen_id env0) s1 = Ok (VNull, s1).
Proof.
  set (qs := [set_field "createdAt" (VStr (now_iso env1))
                (set_field "id" (gen_id env1) paint_door);
              set_field "createdAt" (VStr (now_iso env0))
                (set_field "id" (gen_id env0) fix_sign)]).
  eexists.
  destruct (deleteQuest_removes_one (gen_id env0)
              (scheduleSave (set_quests (scheduleSave (set_quests
                 (empty_store env0) (VArr (List.map VObj (drop 1 qs)) [])))
                 (VArr (List.map VObj qs) [])))
              qs [] (set_field "createdAt" (VStr (now_iso env0))
                       (set_field "id" (gen_id env0) fix_sign))
              eq_refl)
    as (i & q & s1 & Hm & Hdel & Hleft & _ & _ & _ & _ & _ & Hsecond).
  { right. left. }
  { reflexivity. }
  assert (i = 1%nat /\ q = set_field "createdAt" (VStr (now_iso env0))
                             (set_field "id" (gen_id env0) fix_sign))
    as [-> ->].
  { apply (first_match_unique (gen_id env0) qs i 1 q _ Hm).
    split; [reflexivity|]. split; [reflexivity|].
    intros [|j] q' Hj Hl; [|lia]. by injection Hl as <-. }
  exists (set_field "createdAt" (VStr (now_iso env0))
            (set_field "id" (gen_id env0) fix_sign)), s1.
  split; [reflexivity|].
  split; [vm_compute; reflexivity|]. split; [vm_compute; reflexivity|].
  split; [exact Hdel|]. split; [reflexivity|].
  split; [unfold stored_ids; rewrite Hleft; vm_compute; reflexivity|].
  apply Hsecond. intros [|[|j]] q' Hl Hid; simpl in Hl.
  - injection Hl as <-. discriminate Hid.
  - reflexivity.
  - discriminate Hl.
Defined.

Section UpdateQuest.

Lemma updateQuest_found (e : Env) (id status : value) (s : DataStore)
    (qs : list obj) (ps : obj) (i : nat) (q : obj) :
  quests (data s) = VArr (List.map VObj qs) ps ->
  first_match id qs i q ->
  let q' := set_field "updatedAt" (VStr (now_iso e))
              (set_field "status" status q) in
  updateQuest e id [("status", status)] s
  = Ok (VObj q',
        scheduleSave
          (set_quests s (VArr (List.map VObj (<[i := q']> qs)) ps))).
Proof.
  intros Hq Hm q'. unfold updateQuest. rewrite Hq.
  destruct (find_id_objects id qs) as [(j & q2 & Hm' & ->)|[Hnone _]].
  - destruct (first_match_unique id qs i j q q2 Hm Hm') as [<- <-].
    simpl. by rewrite <- (list_fmap_insert VObj).
  - destruct Hm as (Hi & Hid & _).
    apply list_elem_of_lookup_2 in Hi. specialize (Hnone q Hi). congruence.
Qed.

Lemma updateQuest_not_found (e : Env) (id : value) (updates : obj)
    (s : DataStore) (qs : list obj) (ps : obj) :
  quests (data s) = VArr (List.map VObj qs) ps ->
  (forall q, q ∈ qs -> has_id id q = false) ->
  updateQuest e id updates s = Ok (VNull, s).
Proof.
  intros Hq Hnone. unfold updateQuest. rewrite Hq.
  destruct (find_id_objects id qs) as [(j & q' & Hm' & _)|[_ ->]]; [|done].
  destruct Hm' as (Hj & Hid & _).
  apply list_elem_of_lookup_2 in Hj. specialize (Hnone q' Hj). congruence.
Qed.

Lemma set_store_same (g : Gateway) : set_store g (dataStore g) = g.
Proof. by destruct g. Qed.

End UpdateQuest.

(** C3: on a store holding a quest with the given id,
    [updateQuest(id, {status})] returns the first such quest with [status]
    set to the given value and [updatedAt] to the current time; every
    other field of it ([title], [createdAt], [id], ...) keeps its value,
    every other quest stays as it was and in place, and the other
    collections are untouched. With no quest of that id the call returns
    [null] and leaves the store as it was, and the gateway's handler
    emits nothing and changes nothing. *)
Theorem updateQuest_changes_only_status :
  (forall (e : Env) (id status : value) (s : DataStore) (qs : list obj)
          (ps : obj) (q0 : obj),
      quests (data s) = VArr (List.map VObj qs) ps ->
      q0 ∈ qs ->
      has_id id q0 = true ->
      exists i q q' s1,
        first_match id qs i q
        /\ updateQuest e id [("status", status)] s = Ok (VObj q', s1)
        /\ get_field "status" q' = status
        /\ get_field "updatedAt" q' = VStr (now_iso e)
        /\ (forall k, k <> "status" -> k <> "updatedAt" ->
              get_field k q' = get_field k q
              /\ has_key k q' = has_key k q)
        /\ get_field "title" q' = get_field "title" q
        /\ get_field "createdAt" q' = get_field "createdAt" q
        /\ get_field "id" q' = get_field "id" q
        /\ quests (data s1) = VArr (List.map VObj (<[i := q']> qs)) ps
        /\ length (<[i := q']> qs) = length qs
        /\ (forall j : nat, j <> i -> <[i := q']> qs !! j = qs !! j)
        /\ markers (data s1) = markers (data s)
        /\ customCategories (data s1) = customCategories (data s)
        /\ analytics (data s1) = analytics (data s))
  /\ (forall (e : Env) (id : value) (updates : obj) (s : DataStore)
             (qs : list obj) (ps : obj),
        quests (data s) = VArr (List.map VObj qs) ps ->
        (forall q, q ∈ qs -> has_id id q = false) ->
        updateQuest e id updates s = Ok (VNull, s))
  /\ (forall (c : Clock) (socket : string) (payload : obj) (g : Gateway)
             (qs : list obj) (ps : obj),
        quests (data (dataStore g)) = VArr (List.map VObj qs) ps ->
        (forall q, q ∈ qs -> has_id (get_field "id" payload) q = false) ->
        handle c socket (updateQuestMsg (VObj payload)) g = Handled g [] []).
Proof.
  split; [|split].
  - intros e id status s qs ps q0 Hq Hin Hid.
    destruct (first_match_exists id qs q0 Hin Hid) as (i & q & Hm).
    eexists i, q, _, _. split; [done|].
    split; [by apply updateQuest_found|].
    assert (Hframe : forall k, k <> "status" -> k <> "updatedAt" ->
              get_field k (set_field "updatedAt" (VStr (now_iso e))
                             (set_field "status" status q)) = get_field k q
              /\ has_key k (set_field "updatedAt" (VStr (now_iso e))
                              (set_field "status" status q)) = has_key k q).
    { intros k Hs Hu.
      by rewrite !get_set_field_ne, !has_key_set_field_ne. }
    split.
    { rewrite get_set_field_ne by discriminate. apply get_set_field_eq. }
    split; [apply get_set_field_eq|].
    split; [exact Hframe|].
    split; [by apply Hframe|]. split; [by apply Hframe|].
    split; [by apply Hframe|].
    split; [done|]. split; [apply length_insert|].
    split; [intros j Hj; by apply list_lookup_insert_ne|].
    done.
  - exact updateQuest_not_found.
  - intros c socket payload g qs ps Hq Hnone. simpl.
    unfold on_updateQuest. simpl.
    rewrite (updateQuest_not_found _ _ _ _ qs ps Hq Hnone). simpl.
    by rewrite set_store_same.
Qed.

Lemma updateQuest_changes_only_status_witness :
  (exists q' s1,
     updateQuest env1 (gen_id env0) [("status", VStr "taken")] store_fix_sign
     = Ok (VObj q', s1)
     /\ get_field "status" q' = VStr "taken"
     /\ get_field "title" q' = VStr "Fix sign")
  /\ updateQuest env1 (VNum 7) [("status", VStr "taken")] store_fix_sign
     = Ok (VNull, store_fix_sign)
  /\ handle clock1 "A"
       (updateQuestMsg (VObj [("id", VNum 7); ("status", VStr "taken")]))
       (gateway_ab store_fix_sign)
     = Handled (gateway_ab store_fix_sign) [] [].
Proof.
  destruct updateQuest_changes_only_status as (Hfound & Hnone & Hquiet).
  assert (Hother : forall q, q ∈ [fix_sign_stored] ->
                     has_id (VNum 7) q = false).
  { intros q ->%list_elem_of_singleton. reflexivity. }
  split; [|split].
  - destruct (Hfound env1 (gen_id env0) (VStr "taken") store_fix_sign
                [fix_sign_stored] [] fix_sign_stored eq_refl)
      as (i & q & q' & s1 & Hm & Hupd & Hst & _ & _ & Htitle & _).
    { left. }
    { reflexivity. }
    exists q', s1. split; [exact Hupd|]. split; [exact Hst|].
    rewrite Htitle.
    destruct Hm as (Hi & _). destruct i as [|i]; simpl in Hi.
    + by injection Hi as <-.
    + discriminate Hi.
  - exact (Hnone env1 (VNum 7) _ store_fix_sign [fix_sign_stored] []
             eq_refl Hother).
  - exact (Hquiet clock1 "A" [("id", VNum 7); ("status", VStr "taken")]
             (gateway_ab store_fix_sign) [fix_sign_stored] []
             eq_refl Hother).
Defined.

Section Stats.

Lemma status_exactly_spec (st : string) (q : obj) :
  status_exactly st q = true <-> get_field "status" q = VStr st.
Proof.
  unfold status_exactly.
  destruct (get_field "status" q) as [[| | | |s]| |]; split; try done.
  - intros H. apply String.eqb_eq in H. by subst.
  - intros [= ->]. apply String.eqb_refl.
Qed.

Lemma status_is_object (st : string) (q : obj) :
  status_is st (VObj q) = Ok (status_exactly st q).
Proof.
  unfold status_is, status_exactly. simpl.
  destruct (get_field "status" q) as [[| | | |s]| |]; done.
Qed.

Lemma count_where_objects (p : value -> result bool) (f : obj -> bool)
    (qs : list obj) :
  (forall q, p (VObj q) = Ok (f q)) ->
  count_where p (List.map VObj qs) = Ok (length (List.filter f qs)).
Proof.
  intros Hp. induction qs as [|q r IH]; simpl; [done|].
  rewrite Hp, IH. simpl. by destruct (f q).
Qed.

Lemma count_where_dated (e : Env) (ms : list obj) :
  (forall m, m ∈ ms -> to_string_throws (get_field "createdAt" m) = false) ->
  count_where (created_today e) (List.map VObj ms)
  = Ok (length (List.filter
                  (fun m => is_today e (get_field "createdAt" m)) ms)).
Proof.
  induction ms as [|m r IH]; intros Hd; [done|].
  change (count_where (created_today e) (List.map VObj (m :: r)))
    with (created_today e (VObj m) ≫= fun b : bool =>
          count_where (created_today e) (List.map VObj r) ≫= fun n =>
          Ok (if b then S n else n)).
  assert (Hm : created_today e (VObj m)
               = Ok (is_today e (get_field "createdAt" m))).
  { unfold created_today. simpl. by rewrite (Hd m) by constructor. }
  rewrite Hm, IH.
  - simpl. by destruct (is_today e _).
  - intros m' Hm'. apply Hd. by constructor.
Qed.

Lemma pluck_objects (k : string) (qs : list obj) :
  pluck k (List.map VObj qs) = Ok (List.map (get_field k) qs).
Proof.
  induction qs as [|q r IH]; simpl; [done|]. by rewrite IH.
Qed.

Lemma existsb_strict_eq_prim (p : prim) (seen : list value) :
  existsb (strict_eq (VPrim p)) seen = true <-> p ∈ prims_of seen.
Proof.
  unfold prims_of. induction seen as [|c r IH]; simpl.
  - split; [done|]. by intros ?%elem_of_nil.
  - rewrite orb_true_iff, IH. destruct c as [q| |]; simpl.
    + rewrite elem_of_cons, prim_eqb_eq. done.
    + split; [by intros [?|?]|by right].
    + split; [by intros [?|?]|by right].
Qed.

Lemma existsb_strict_eq_ref (v : value) (seen : list value) :
  is_ref v = true -> existsb (strict_eq v) seen = false.
Proof.
  intros Hv. induction seen as [|c r IH]; simpl; [done|].
  rewrite IH. by destruct v.
Qed.

Lemma prims_of_app (xs ys : list value) :
  prims_of (xs ++ ys) = (prims_of xs ++ prims_of ys)%list.
Proof. apply omap_app. Qed.

Lemma filter_is_ref_app (xs ys : list value) :
  List.filter is_ref (xs ++ ys)
  = (List.filter is_ref xs ++ List.filter is_ref ys)%list.
Proof. apply List.filter_app. Qed.

Lemma length_split_prims_refs (xs : list value) :
  length xs = (length (prims_of xs) + length (List.filter is_ref xs))%nat.
Proof.
  induction xs as [|x r IH]; [done|].
  destruct x as [p| |].
  - change (prims_of (VPrim p :: r)) with (p :: prims_of r).
    simpl. rewrite IH. lia.
  - change (prims_of (VObj fields :: r)) with (prims_of r).
    simpl. rewrite IH. lia.
  - change (prims_of (VArr items props :: r)) with (prims_of r).
    simpl. rewrite IH. lia.
Qed.

Lemma new_Set_from (xs : list value) :
  forall seen : list value,
    NoDup (prims_of seen) ->
    NoDup (prims_of (fold_left set_add xs seen))
    /\ (forall p, p ∈ prims_of (fold_left set_add xs seen)
                  <-> p ∈ prims_of seen \/ VPrim p ∈ xs)
    /\ length (List.filter is_ref (fold_left set_add xs seen))
       = (length (List.filter is_ref seen)
          + length (List.filter is_ref xs))%nat.
Proof.
  induction xs as [|x r IH]; intros seen Hnd; simpl.
  - split; [done|]. split; [|lia].
    intros p. split; [by left|]. intros [H|H%elem_of_nil]; done.
  - assert (Hstep : NoDup (prims_of (set_add seen x))
              /\ (forall p, p ∈ prims_of (set_add seen x)
                            <-> p ∈ prims_of seen \/ VPrim p = x)
              /\ length (List.filter is_ref (set_add seen x))
                 = (length (List.filter is_ref seen)
                    + length (List.filter is_ref [x]))%nat).
    { unfold set_add. destruct x as [p| |].
      - destruct (existsb (strict_eq (VPrim p)) seen) eqn:E.
        + apply existsb_strict_eq_prim in E.
          split; [done|]. split; [|simpl; lia].
          intros p'. split; [by left|]. intros [H|[= ->]]; done.
        + assert (p ∉ prims_of seen).
          { intros H%existsb_strict_eq_prim. congruence. }
          rewrite prims_of_app, filter_is_ref_app, length_app. simpl.
          split.
          { apply NoDup_app. split; [done|].
            split; [|apply NoDup_singleton].
            by intros y Hy ->%list_elem_of_singleton. }
          split; [|done].
          intros p'. rewrite elem_of_app, list_elem_of_singleton.
          split; (intros [H'|H']; [by left|right]); congruence.
      - rewrite existsb_strict_eq_ref by done.
        rewrite prims_of_app, filter_is_ref_app, length_app.
        change (prims_of [VObj fields]) with (@nil prim).
        rewrite app_nil_r. split; [done|]. split; [|done].
        intros p'. split; [by left|]. intros [?|?]; [done|discriminate].
      - rewrite existsb_strict_eq_ref by done.
        rewrite prims_of_app, filter_is_ref_app, length_app.
        change (prims_of [VArr items props]) with (@nil prim).
        rewrite app_nil_r. split; [done|]. split; [|done].
        intros p'. split; [by left|]. intros [?|?]; [done|discriminate]. }
    destruct Hstep as (Hnd1 & Hel1 & Hlen1).
    destruct (IH (set_add seen x) Hnd1) as (Hnd2 & Hel2 & Hlen2).
    split; [done|]. split.
    + intros p. rewrite Hel2, Hel1, elem_of_cons.
      split; [intros [[?|?]|?]|intros [?|[?|?]]]; auto.
    + rewrite Hlen2, Hlen1. simpl. destruct (is_ref x); simpl; lia.
Qed.

Lemma new_Set_size (xs : list value) :
  exists us : list prim,
    NoDup us
    /\ (forall p, p ∈ us <-> VPrim p ∈ xs)
    /\ length (new_Set xs)
       = (length us + length (List.filter is_ref xs))%nat.
Proof.
  destruct (new_Set_from xs [] (NoDup_nil_2)) as (Hnd & Hel & Hlen).
  exists (prims_of (new_Set xs)). split; [done|]. split.
  - intros p. unfold new_Set. rewrite Hel. split; [|by right].
    intros [H%elem_of_nil|H]; done.
  - rewrite (length_split_prims_refs (new_Set xs)). unfold new_Set.
    rewrite Hlen. simpl. lia.
Qed.

End Stats.

(** C9: on a store whose quests and markers are arrays of objects,
    [getStats()] returns, with [totalQuests] the number of stored quests,
    [questsOpen] and [questsTaken] the numbers of quests whose [status] is
    exactly the string [open], respectively [taken], and [activeUsers] the
    number of distinct [user] values (a primitive value counted once
    however often it occurs, [undefined] for a missing user included, and
    every object or array counted on its own). For the three quests with
    statuses [open], [open], [taken] it reports 2, 1 and 3. *)
Theorem getStats_counts :
  (forall (e : Env) (s : DataStore) (qs ms : list obj) (ps ps' : obj)
          (cs : list value) (cps an : obj),
      quests (data s) = VArr (List.map VObj qs) ps ->
      markers (data s) = VArr (List.map VObj ms) ps' ->
      customCategories (data s) = VArr cs cps ->
      analytics (data s) = VObj an ->
      (forall m, m ∈ ms -> to_string_throws (get_field "createdAt" m) = false) ->
      exists st,
        getStats e s = Ok st
        /\ totalQuests st = length qs
        /\ questsOpen st = length (List.filter (status_exactly "open") qs)
        /\ questsTaken st = length (List.filter (status_exactly "taken") qs)
        /\ (exists us : list prim,
              NoDup us
              /\ (forall p, p ∈ us <-> VPrim p ∈ users_of qs)
              /\ activeUsers st
                 = (length us
                    + length (List.filter is_ref (users_of qs)))%nat)
        /\ totalMarkers st = length ms)
  /\ (forall (st : string) (q : obj),
        status_exactly st q = true <-> get_field "status" q = VStr st)
  /\ (forall e : Env,
        exists st,
          getStats e
            (set_quests (empty_store e)
               (arr [VObj [("status", VStr "open")];
                     VObj [("status", VStr "open")];
                     VObj [("status", VStr "taken")]]))
          = Ok st
          /\ questsOpen st = 2%nat
          /\ questsTaken st = 1%nat
          /\ totalQuests st = 3%nat).
Proof.
  split; [|split].
  - intros e s qs ms ps ps' cs cps an Hq Hm Hc Ha Hdates.
    unfold getStats. rewrite Hq, Hm, Hc, Ha.
    rewrite (count_where_dated e ms Hdates).
    rewrite (count_where_objects (status_is "open") (status_exactly "open"))
      by apply status_is_object.
    rewrite (count_where_objects (status_is "taken")
               (status_exactly "taken")) by apply status_is_object.
    rewrite pluck_objects. simpl.
    eexists. split; [reflexivity|]. simpl.
    rewrite !length_map.
    split; [done|]. split; [done|]. split; [done|]. split; [|done].
    apply new_Set_size.
  - exact status_exactly_spec.
  - intros e. eexists. split; [reflexivity|]. by simpl.
Qed.

Lemma getStats_counts_witness :
  exists st,
    getStats env1 store_fix_sign = Ok st
    /\ totalQuests st = 1%nat
    /\ questsOpen st = 1%nat
    /\ questsTaken st = 0%nat.
Proof.
  destruct (proj1 getStats_counts env1 store_fix_sign [fix_sign_stored] []
              [] [] default_categories []
              [("totalConnections", VNum 0);
               ("lastUpdated", VStr (now_iso env0))]
              eq_refl eq_refl eq_refl eq_refl
              ltac:(by intros m ?%elem_of_nil))
    as (st & Hst & Htotal & Hopen & Htaken & _).
  exists st. split; [exact Hst|].
  split; [exact Htotal|]. split; [exact Hopen|exact Htaken].
Defined.

Section Load.

Lemma get_field_absent (k : string) (fs : obj) :
  has_key k fs = false -> get_field k fs = VUndef.
Proof.
  induction fs as [|[k' v] r IH]; simpl; [done|].
  destruct (String.eqb k k'); simpl; [done|exact IH].
Qed.

Lemma loadData_object (fs : obj) (d : Data) :
  loadData (Json (VObj fs)) d
  = ({| quests := or_else (get_field "quests" fs) (arr []);
        markers := or_else (get_field "markers" fs) (arr []);
        customCategories :=
          or_else (get_field "customCategories" fs) (customCategories d);
        analytics := or_else (get_field "analytics" fs) (analytics d) |},
     if length_unrenderable (or_else (get_field "quests" fs) (arr []))
        || length_unrenderable (or_else (get_field "markers" fs) (arr []))
     then [Error "Error loading data"]
     else [Info "Data loaded"]).
Proof.
  unfold loadData. cbn [get_prop set_analytics quests markers
    customCategories analytics].
  by destruct (length_unrenderable _ || length_unrenderable _).
Qed.

End Load.

(** C10: loading is tolerant. For a durability file holding any JSON
    object, each of [quests], [markers], [customCategories], [analytics]
    that is absent leaves the constructor's default in place, while a
    present truthy value is adopted; the loaded store depends on the
    document only through those four keys, so any other key is ignored;
    and a file that is not valid JSON leaves every default in place, the
    failure being logged. *)
Theorem loadData_tolerant :
  (forall (e : Env) (fs : obj),
      let d := data (constructor e (Json (VObj fs))).1 in
      (has_key "quests" fs = false -> quests d = quests (defaults e))
      /\ (has_key "markers" fs = false -> markers d = markers (defaults e))
      /\ (has_key "customCategories" fs = false ->
          customCategories d = customCategories (defaults e))
      /\ (has_key "analytics" fs = false ->
          analytics d = analytics (defaults e))
      /\ (truthy (get_field "quests" fs) = true ->
          quests d = get_field "quests" fs)
      /\ (truthy (get_field "markers" fs) = true ->
          markers d = get_field "markers" fs)
      /\ (truthy (get_field "customCategories" fs) = true ->
          customCategories d = get_field "customCategories" fs)
      /\ (truthy (get_field "analytics" fs) = true ->
          analytics d = get_field "analytics" fs))
  /\ (forall (e : Env) (fs fs' : obj),
        (forall k, k ∈ top_level_keys -> get_field k fs = get_field k fs') ->
        constructor e (Json (VObj fs)) = constructor e (Json (VObj fs')))
  /\ (forall e : Env,
        constructor e Malformed
        = ({| data := defaults e; autoSaveTimeout := false |},
           [Error "Error loading data"])).
Proof.
  split; [|split].
  - intros e fs d. subst d. unfold constructor.
    rewrite loadData_object. simpl.
    repeat split; intros H;
      try (rewrite (get_field_absent _ _ H); reflexivity);
      unfold or_else; by rewrite H.
  - intros e fs fs' Hsame. unfold constructor.
    rewrite !loadData_object.
    rewrite (Hsame "quests"), (Hsame "markers"),
      (Hsame "customCategories"), (Hsame "analytics");
      [done|unfold top_level_keys; repeat constructor..].
  - reflexivity.
Qed.

Lemma loadData_tolerant_witness :
  let fs := [("markers", arr [VObj [("title", VStr "Bridge")]]);
             ("theme", VStr "dark")] in
  let d := data (constructor env0 (Json (VObj fs))).1 in
  quests d = arr []
  /\ markers d = arr [VObj [("title", VStr "Bridge")]]
  /\ customCategories d = arr default_categories
  /\ constructor env0 (Json (VObj fs))
     = constructor env0
         (Json (VObj [("markers", arr [VObj [("title", VStr "Bridge")]])])).
Proof.
  intros fs d.
  destruct loadData_tolerant as (Hkeys & Hignore & _).
  destruct (Hkeys env0 fs) as (Hq & _ & Hc & _ & _ & Hm & _).
  split; [exact (Hq eq_refl)|].
  split; [exact (Hm eq_refl)|].
  split; [exact (Hc eq_refl)|].
  apply Hignore. intros k Hk. unfold top_level_keys in Hk.
  repeat (apply elem_of_cons in Hk as [->|Hk]; [reflexivity|]).
  by apply elem_of_nil in Hk.
Defined.

Section Json.

Section Induction.

Variable P : value -> Prop.
Hypothesis Hprim : forall p, P (VPrim p).
Hypothesis Hobj : forall fs, Forall (fun kv => P kv.2) fs -> P (VObj fs).
Hypothesis Harr :
  forall xs ps,
    Forall P xs -> Forall (fun kv => P kv.2) ps -> P (VArr xs ps).

Lemma value_nested_ind : forall v, P v.
Proof.
  fix IH 1. intros [p|fs|xs ps].
  - apply Hprim.
  - apply Hobj. revert fs. fix IHfs 1. intros [|[k x] r].
    + constructor.
    + constructor; [apply IH|apply IHfs].
  - apply Harr.
    + revert xs. fix IHxs 1. intros [|x r].
      * constructor.
      * constructor; [apply IH|apply IHxs].
    + revert ps. fix IHps 1. intros [|[k x] r].
      * constructor.
      * constructor; [apply IH|apply IHps].
Qed.

End Induction.

Lemma json_of_obj (fs : obj) : json_of (VObj fs) = VObj (json_fields fs).
Proof. reflexivity. Qed.

Lemma json_fields_cons (k : string) (x : value) (r : obj) :
  x <> VUndef -> json_fields ((k, x) :: r) = (k, json_of x) :: json_fields r.
Proof. intros Hx. by destruct x as [[]| |]. Qed.

Lemma truthy_defined (x : value) : truthy x = true -> x <> VUndef.
Proof. by intros H ->. Qed.

Lemma truthy_json_of (x : value) : truthy x = true -> truthy (json_of x) = true.
Proof. by destruct x as [[]| |]. Qed.

Lemma json_of_clean : forall v, json_clean v = true -> json_of v = v.
Proof.
  apply (value_nested_ind (fun v => json_clean v = true -> json_of v = v)).
  - by intros [].
  - intros fs Hfs Hclean. rewrite json_of_obj. f_equal.
    induction Hfs as [|[k x] r Hx Hr IH]; [done|].
    simpl in Hclean. apply andb_true_iff in Hclean as [Hcx Hcr].
    rewrite json_fields_cons by (by intros ->).
    simpl in Hx. by rewrite (Hx Hcx), (IH Hcr).
  - intros xs ps Hxs _ Hclean. simpl in Hclean.
    apply andb_true_iff in Hclean as [Hcxs Hps].
    destruct ps; [|done]. simpl. f_equal.
    induction Hxs as [|x r Hx Hr IH]; [done|].
    apply andb_true_iff in Hcxs as [Hcx Hcr].
    simpl. by rewrite (Hx Hcx), (IH Hcr).
Qed.

End Json.

Section RoundTrip.

Lemma saveData_written (e : Env) (d : Data) (f : file) :
  write_ok e = true ->
  is_ref (analytics d) = true ->
  exists a,
    is_ref a = true
    /\ saveData e d f
       = (set_analytics d a, Json (json_of (data_value (set_analytics d a))),
          [Info "Data saved to file"]).
Proof.
  intros Hw Ha. unfold saveData.
  destruct (analytics d) as [p|fs|xs ps]; [done| |];
    unfold set_prop; rewrite Hw.
  - eexists (VObj _). split; reflexivity.
  - eexists (VArr _ _). split; reflexivity.
Qed.

Lemma reload_snapshot (e' : Env) (d : Data) :
  truthy (quests d) = true ->
  truthy (markers d) = true ->
  truthy (customCategories d) = true ->
  is_ref (analytics d) = true ->
  getAllData (constructor e' (Json (json_of (data_value d)))).1
  = {| snap_quests := json_of (quests d);
       snap_markers := json_of (markers d);
       snap_customCategories := json_of (customCategories d) |}.
Proof.
  intros Hq Hm Hc Ha. unfold data_value.
  rewrite json_of_obj.
  rewrite !json_fields_cons;
    [|by destruct (analytics d)|by apply truthy_defined..].
  unfold constructor. rewrite loadData_object.
  unfold getAllData, or_else. simpl.
  by rewrite !truthy_json_of.
Qed.

End RoundTrip.

(** C2 (as stated, refuted): [addCategory(undefined)] appends [undefined]
    to the categories; the file then holds [null] in its place, so the
    snapshot of the reloaded store differs from the original. *)
Lemma reload_changes_undefined_category :
  exists v s,
    addCategory VUndef (empty_store env0) = Ok (v, s)
    /\ write_ok env1 = true
    /\ getAllData (save_and_reload env1 env2 s Missing) <> getAllData s.
Proof.
  eexists _, _. split; [reflexivity|]. split; [reflexivity|].
  vm_compute. discriminate.
Qed.

(** C2 (amended): when [saveData] writes the file and the three
    collections are truthy (as every array is), a fresh store loading
    that file has as snapshot the JSON image of the original snapshot; it
    is identical to the original whenever the collections hold only what
    JSON represents as it is (no [undefined], no named property on an
    array). *)
Theorem save_reload_snapshot (e e' : Env) (s : DataStore) (f : file) :
  write_ok e = true ->
  is_ref (analytics (data s)) = true ->
  truthy (quests (data s)) = true ->
  truthy (markers (data s)) = true ->
  truthy (customCategories (data s)) = true ->
  getAllData (save_and_reload e e' s f) = json_snapshot (getAllData s)
  /\ (json_clean (quests (data s)) = true ->
      json_clean (markers (data s)) = true ->
      json_clean (customCategories (data s)) = true ->
      getAllData (save_and_reload e e' s f) = getAllData s).
Proof.
  intros Hw Ha Hq Hm Hc.
  assert (Himg : getAllData (save_and_reload e e' s f)
                 = json_snapshot (getAllData s)).
  { unfold save_and_reload.
    destruct (saveData_written e (data s) f Hw Ha) as (a & Href & ->).
    cbn [fst snd]. by rewrite reload_snapshot. }
  split; [exact Himg|].
  intros Cq Cm Cc. rewrite Himg. unfold json_snapshot, getAllData. simpl.
  by rewrite !json_of_clean.
Qed.

Lemma save_reload_snapshot_witness :
  getAllData (save_and_reload env1 env2 store_fix_sign Missing)
  = getAllData store_fix_sign.
Proof.
  apply (save_reload_snapshot env1 env2 store_fix_sign Missing);
    reflexivity.
Defined.

Section Broadcast.

Lemma notify_admins_rendered (c : Clock) (type : string) (item : value)
    (admins : list string) :
  to_string_throws (title_of item) = false ->
  notify_admins c type (title_of item) item admins
  = (List.map (fun a => ToSocket a (notification c type item a)) admins,
     None).
Proof.
  intros Ht. induction admins as [|a r IH]; simpl; [done|].
  by rewrite Ht, IH.
Qed.

Lemma delivered_to_others (client : string) (f : string -> event)
    (admins : list string) :
  client ∉ admins ->
  delivered client (List.map (fun a => ToSocket a (f a)) admins) = [].
Proof.
  induction admins as [|a r IH]; intros Hnot; [done|].
  apply not_elem_of_cons in Hnot as [Hne Hr].
  unfold delivered in *. simpl.
  destruct (String.eqb a client) eqn:E.
  - apply String.eqb_eq in E. congruence.
  - by apply IH.
Qed.

Lemma delivered_to_admin (client : string) (f : string -> event)
    (admins : list string) :
  NoDup admins ->
  client ∈ admins ->
  delivered client (List.map (fun a => ToSocket a (f a)) admins)
  = [f client].
Proof.
  induction 1 as [|a r Hnotin Hnd IH]; intros Hin.
  - by apply elem_of_nil in Hin.
  - unfold delivered in *. simpl.
    destruct (String.eqb a client) eqn:E.
    + apply String.eqb_eq in E. subst a.
      f_equal. by apply (delivered_to_others client f r).
    + apply elem_of_cons in Hin as [->|Hin].
      * by rewrite String.eqb_refl in E.
      * by apply IH.
Qed.

Lemma title_of_stamped (call : Env * obj) :
  title_of (stamped call) = get_field "title" call.2.
Proof.
  unfold title_of, stamped. simpl.
  by rewrite !get_set_field_ne.
Qed.

End Broadcast.

Section AdminSet.

Lemma sockets_add_NoDup (id : string) (ids : list string) :
  NoDup ids -> NoDup (sockets_add id ids).
Proof.
  intros Hnd. unfold sockets_add.
  destruct (existsb (String.eqb id) ids) eqn:E; [done|].
  apply NoDup_app. split; [done|]. split; [|apply NoDup_singleton].
  intros x Hx ->%list_elem_of_singleton.
  assert (existsb (String.eqb id) ids = true); [|congruence].
  apply existsb_exists. exists id. split.
  - by apply list_elem_of_In.
  - apply String.eqb_refl.
Qed.

Lemma filter_NoDup (f : string -> bool) (ids : list string) :
  NoDup ids -> NoDup (List.filter f ids).
Proof.
  induction 1 as [|a r Hnotin Hnd IH]; simpl; [constructor|].
  destruct (f a); [|done]. constructor; [|done].
  intros Hin. apply Hnotin.
  apply list_elem_of_In, List.filter_In in Hin as [Hin _].
  by apply list_elem_of_In.
Qed.

(** The admin set never lists a session twice: connecting, disconnecting
    and handling a message all preserve it. *)
Lemma adminSockets_NoDup (g : Gateway) :
  NoDup (adminSockets g) ->
  (forall c socket referer agent g' out logs,
      connect c socket referer agent g = Handled g' out logs ->
      NoDup (adminSockets g'))
  /\ (forall socket g' out logs,
        disconnect socket g = Handled g' out logs ->
        NoDup (adminSockets g'))
  /\ (forall c socket m g' out logs,
        handle c socket m g = Handled g' out logs ->
        adminSockets g' = adminSockets g).
Proof.
  intros Hnd. split; [|split].
  - intros c socket referer agent g' out logs. unfold connect.
    destruct (bump_connections _) as [a|x|]; [|done..].
    intros [= <- _ _]. simpl.
    destruct (truthy _); [by apply sockets_add_NoDup|done].
  - intros socket g' out logs [= <- _ _]. simpl. by apply filter_NoDup.
  - intros c socket m g' out logs.
    assert (Hguarded : forall r ev d f,
              guarded g r ev d f = Handled g' out logs ->
              adminSockets g' = adminSockets g).
    { intros r ev d f. unfold guarded.
      destruct r as [[v s]|x|]; [|by intros [= <- _ _]|done].
      destruct (truthy v); by intros [= <- _ _]. }
    destruct m; simpl; try apply Hguarded.
    + unfold on_addQuest.
      destruct (addQuest _ _ _) as [[q s]|x|]; [|by intros [= <- _ _]|done].
      destruct (notify_admins _ _ _ _ _) as [o [x|]]; by intros [= <- _ _].
    + unfold on_updateQuest.
      destruct (get_prop payload "id") as [id|x|],
        (get_prop payload "status") as [st|y|]; try done.
      destruct (updateQuest _ _ _ _) as [[q s]|x|];
        [|by intros [= <- _ _]|done].
      destruct (truthy q); by intros [= <- _ _].
    + unfold on_addMarker.
      destruct (addMarker _ _ _) as [[q s]|x|]; [|by intros [= <- _ _]|done].
      destruct (notify_admins _ _ _ _ _) as [o [x|]]; by intros [= <- _ _].
    + by intros [= <- _ _].
    + by intros [= <- _ _].
    + unfold on_getAdminStats.
      destruct (getStats _ _) as [st|x|]; [|done..]. by intros [= <- _ _].
    + by intros [= <- _ _].
Qed.

End AdminSet.

(** C4: when a client sends [addQuest] with an object payload whose title
    can be rendered, every client (the sender and non-admins included)
    receives [questAdded] carrying the new quest. That quest is the
    payload with its [id] set to the number [Date.now() + Math.random()]
    (the binary64 sum) and its [createdAt] set to the current time, every
    other field being the payload's, and it is the quest now at the head
    of the store. Each session of the admin set receives, after it, one
    [adminNotification] of type [quest_added]; a session outside the
    admin set receives nothing else. *)
Theorem addQuest_broadcast (c : Clock) (sender : string) (payload : obj)
    (g : Gateway) (xs : list value) (ps : obj) :
  quests (data (dataStore g)) = VArr xs ps ->
  to_string_throws (get_field "title" payload) = false ->
  NoDup (adminSockets g) ->
  let newQuest := stamped (env c, payload) in
  exists g' out logs,
    handle c sender (addQuestMsg (VObj payload)) g = Handled g' out logs
    /\ id_of newQuest = gen_id (env c)
    /\ get_prop newQuest "id"
       = Ok (VNum (add64 (Date_now (env c) * 2 ^ 53) (Math_random (env c))))
    /\ get_prop newQuest "createdAt" = Ok (VStr (now_iso (env c)))
    /\ (forall k : string,
          k <> "id" -> k <> "createdAt" ->
          get_prop newQuest k = Ok (get_field k payload))
    /\ quests (data (dataStore g')) = VArr (newQuest :: xs) ps
    /\ connectedUsers g' = connectedUsers g
    /\ adminSockets g' = adminSockets g
    /\ forall client : string,
         (client ∈ adminSockets g ->
          delivered client out
          = [questAdded newQuest;
             adminNotification "quest_added" (get_field "title" payload)
               newQuest (notify_iso c client)])
         /\ (client ∉ adminSockets g ->
             delivered client out = [questAdded newQuest]).
Proof.
  intros Hq Htitle Hnd newQuest.
  assert (Ht : title_of newQuest = get_field "title" payload)
    by apply title_of_stamped.
  unfold handle, on_addQuest.
  rewrite (addQuest_object (env c) payload (dataStore g) xs ps Hq).
  fold newQuest. cbn [adminSockets set_store].
  rewrite notify_admins_rendered by (by rewrite Ht).
  eexists _, _, _. split; [reflexivity|].
  split; [apply id_of_stamped|].
  split.
  { unfold newQuest, stamped. cbn [get_prop fst snd env].
    rewrite get_set_field_ne by discriminate.
    by rewrite get_set_field_eq. }
  split; [simpl; by rewrite get_set_field_eq|].
  split.
  { intros k Hid Hat. unfold newQuest, stamped. cbn [get_prop fst snd].
    by rewrite !get_set_field_ne. }
  split; [done|]. split; [done|]. split; [done|].
  intros client. split; intros Hin.
  - change (delivered client (ToAll (questAdded newQuest) :: ?l))
      with (questAdded newQuest :: delivered client l).
    rewrite (delivered_to_admin client
               (notification c "quest_added" newQuest)) by done.
    unfold notification. by rewrite Ht.
  - change (delivered client (ToAll (questAdded newQuest) :: ?l))
      with (questAdded newQuest :: delivered client l).
    by rewrite (delivered_to_others client
                  (notification c "quest_added" newQuest)).
Qed.

(** The scenario of two clients: connecting [A] from the main page and
    [B] from the admin page classifies only [B] as admin. *)
Lemma connect_scenario :
  exists g,
    connected_ab = Some g
    /\ List.map fst (connectedUsers g) = ["A"; "B"]
    /\ adminSockets g = ["B"].
Proof.
  exists (gateway_ab store_two_connections).
  split; [vm_compute; reflexivity|]. by split.
Qed.

Lemma addQuest_broadcast_witness :
  exists g' out logs,
    connected_ab = Some (gateway_ab store_two_connections)
    /\ handle clock1 "A" (addQuestMsg (VObj fix_sign))
         (gateway_ab store_two_connections)
       = Handled g' out logs
    /\ delivered "A" out = [questAdded (stamped (env1, fix_sign))]
    /\ delivered "B" out
       = [questAdded (stamped (env1, fix_sign));
          adminNotification "quest_added" (VStr "Fix sign")
            (stamped (env1, fix_sign)) (notify_iso clock1 "B")]
    /\ get_prop (stamped (env1, fix_sign)) "id"
       = Ok (VNum (1700000000000 * 2 ^ 53 + 2 ^ 52))
    /\ get_prop (stamped (env1, fix_sign)) "createdAt"
       = Ok (VStr "2023-11-14T22:13:20.000Z")
    /\ get_prop (stamped (env1, fix_sign)) "title" = Ok (VStr "Fix sign")
    /\ quests (data (dataStore g')) = arr [stamped (env1, fix_sign)].
Proof.
  assert (Hnd : NoDup ["B"]).
  { apply NoDup_singleton. }
  assert (HA : "A" ∉ ["B"]).
  { by intros ?%list_elem_of_singleton. }
  assert (HB : "B" ∈ ["B"]).
  { by apply list_elem_of_singleton. }
  destruct (addQuest_broadcast clock1 "A" fix_sign
              (gateway_ab store_two_connections) [] []
              eq_refl eq_refl Hnd)
    as (g' & out & logs & Hh & _ & Hid & Hat & Hrest & Hq & _ & _ & Hdel).
  exists g', out, logs.
  split; [vm_compute; reflexivity|].
  split; [exact Hh|].
  split; [exact (proj2 (Hdel "A") HA)|].
  split; [exact (proj1 (Hdel "B") HB)|].
  split; [exact Hid|].
  split; [exact Hat|].
  split; [apply (Hrest "title"); discriminate|exact Hq].
Defined.

Section Handlers.

Lemma notify_admins_no_error (c : Clock) (type : string)
    (title item : value) (admins : list string) :
  forallb (fun em => negb (is_error em))
    (notify_admins c type title item admins).1 = true.
Proof.
  induction admins as [|a r IH]; simpl; [done|].
  destruct (to_string_throws title); [done|].
  destruct (notify_admins c type title item r) as [out e]. by simpl in *.
Qed.

Lemma guarded_outcome (g : Gateway) (r : result (value * DataStore))
    (ev : event) (done failed : string) :
  (forall msg, ev <> error msg) ->
  match guarded g r ev done failed with
  | Handled _ out _ => forallb (fun em => negb (is_error em)) out = true
  | Escaped _ _ _ _ => False
  | NotModelled => True
  end.
Proof.
  intros Hev. unfold guarded. destruct r as [[v s]|x|]; [|done..].
  destruct (truthy v); [|done]. simpl.
  destruct ev; try done. by destruct (Hev message0).
Qed.

(** The handlers other than [updateQuest], [getAdminStats] and [ping]
    never let an exception out, and none of them but [addQuest] sends an
    [error] event. *)
Lemma guarded_handlers_catch (c : Clock) (socket : string) (m : message)
    (g : Gateway) :
  guarded_message m = true ->
  match handle c socket m g with
  | Handled _ out _ =>
      (exists questData, m = addQuestMsg questData)
      \/ forallb (fun em => negb (is_error em)) out = true
  | Escaped _ _ _ _ => False
  | NotModelled => True
  end.
Proof.
  intros Hm. destruct m; try discriminate Hm; simpl.
  - unfold on_addQuest.
    destruct (addQuest (env c) questData (dataStore g)) as [[q s]|x|];
      [|by left; eexists|done].
    destruct (notify_admins _ _ _ _ _) as [out [x|]]; left; by eexists.
  - pose proof (guarded_outcome g (deleteQuest questId (dataStore g))
                  (questDeleted questId) "Quest deleted"
                  "Error deleting quest" ltac:(done)) as H.
    unfold on_deleteQuest. destruct (guarded _ _ _ _ _); auto.
  - unfold on_addMarker.
    destruct (addMarker (env c) markerData (dataStore g)) as [[q s]|x|];
      [|by right|done].
    pose proof (notify_admins_no_error c "marker_added" (title_of q) q
                  (adminSockets (set_store g s))) as H.
    destruct (notify_admins _ _ _ _ _) as [out [x|]]; right; exact H.
  - pose proof (guarded_outcome g (deleteMarker markerId (dataStore g))
                  (markerDeleted markerId) "Marker deleted"
                  "Error deleting marker" ltac:(done)) as H.
    unfold on_deleteMarker. destruct (guarded _ _ _ _ _); auto.
  - by right.
  - by right.
  - pose proof (guarded_outcome g (addCategory categoryName (dataStore g))
                  (categoryAdded categoryName) "Category added"
                  "Error adding category" ltac:(done)) as H.
    unfold on_addCategory. destruct (guarded _ _ _ _ _); auto.
  - pose proof (guarded_outcome g
                  (deleteCategory categoryName (dataStore g))
                  (categoryDeleted categoryName) "Category deleted"
                  "Error deleting category" ltac:(done)) as H.
    unfold on_deleteCategory. destruct (guarded _ _ _ _ _); auto.
Qed.

End Handlers.

(** C5 (failing input): an [updateQuest] message whose payload is [null]
    or missing makes the handler throw while it destructures its
    parameter, before its [try] is entered: the exception leaves the
    handler, with nothing logged and nothing emitted. *)
Theorem updateQuest_null_payload_escapes (c : Clock) (socket : string)
    (g : Gateway) :
  handle c socket (updateQuestMsg VNull) g = Escaped TypeError g [] []
  /\ handle c socket (updateQuestMsg VUndef) g = Escaped TypeError g [] [].
Proof. by split. Qed.

(** [getAdminStats] has no [try]: on a store whose file listed [null]
    among the quests, [getStats()] throws and the exception leaves the
    handler. *)
Lemma getAdminStats_escapes :
  let s := (constructor env0 (Json (VObj [("quests", arr [VNull])]))).1 in
  handle clock1 "A" getAdminStatsMsg (gateway_ab s)
  = Escaped TypeError (gateway_ab s) [] [].
Proof. reflexivity. Qed.

(** A failing [addQuest] is caught and answered with an [error] event to
    the sender alone. *)
Lemma addQuest_failure_reported (c : Clock) (socket : string)
    (p : prim) (g : Gateway) :
  handle c socket (addQuestMsg (VPrim p)) g
  = Handled g [ToSocket socket (error "Failed to add quest")]
      [Error "Error adding quest"].
Proof. reflexivity. Qed.

(* ===================================================================== *)
(** ** Further properties of the store *)
(* ===================================================================== *)

Import Query Shape.

Section Markers.

Lemma addMarker_object (e : Env) (fs : obj) (s : DataStore)
    (xs : list value) (ps : obj) :
  markers (data s) = VArr xs ps ->
  addMarker e (VObj fs) s
  = Ok (stamped (e, fs),
        scheduleSave (set_markers s (VArr (stamped (e, fs) :: xs) ps))).
Proof.
  intros Hm. unfold addMarker. simpl. rewrite Hm. reflexivity.
Qed.

Lemma unshift_not_array (a x : value) :
  is_array a = false -> unshift a x = Throw TypeError.
Proof. by destruct a. Qed.

End Markers.

(** X1: [addMarker] on an object payload puts the stamped marker at the
    head of the markers and leaves quests, categories and analytics as
    they were; fields other than [id] and [createdAt] are the payload's.
    A primitive payload, or a marker collection that is not an array,
    makes the call throw. *)
Theorem addMarker_stores_at_head (e : Env) (s : DataStore) :
  (forall (payload : obj) (xs : list value) (ps : obj),
      markers (data s) = VArr xs ps ->
      exists m s',
        addMarker e (VObj payload) s = Ok (VObj m, s')
        /\ markers (data s') = VArr (VObj m :: xs) ps
        /\ quests (data s') = quests (data s)
        /\ customCategories (data s') = customCategories (data s)
        /\ analytics (data s') = analytics (data s)
        /\ autoSaveTimeout s' = true
        /\ get_field "id" m = gen_id e
        /\ get_field "createdAt" m = VStr (now_iso e)
        /\ forall k, k <> "id" -> k <> "createdAt" ->
             get_field k m = get_field k payload)
  /\ (forall p : prim, addMarker e (VPrim p) s = Throw TypeError)
  /\ (forall marker : value,
        is_array (markers (data s)) = false ->
        addMarker e marker s = Throw TypeError).
Proof.
  split; [|split].
  - intros payload xs ps Hm. rewrite (addMarker_object e payload s xs ps Hm).
    eexists _, _. split; [reflexivity|].
    repeat (split; [done|]). split; [|split].
    + rewrite get_set_field_ne by discriminate. apply get_set_field_eq.
    + apply get_set_field_eq.
    + intros k Hid Hcr. by rewrite !get_set_field_ne.
  - done.
  - intros marker Harr. unfold addMarker.
    destruct marker as [p|fs|xs ps]; [done| |]; simpl;
      by rewrite unshift_not_array.
Qed.

Lemma addMarker_stores_at_head_witness :
  exists m s',
    addMarker env1 (VObj [("title", VStr "Bridge"); ("lat", VNum 5)])
      store_fix_sign = Ok (VObj m, s')
    /\ get_field "title" m = VStr "Bridge"
    /\ quests (data s') = quests (data store_fix_sign).
Proof.
  destruct (proj1 (addMarker_stores_at_head env1 store_fix_sign)
              [("title", VStr "Bridge"); ("lat", VNum 5)] [] [] eq_refl)
    as (m & s' & Hadd & _ & Hq & _ & _ & _ & _ & _ & Hcopy).
  exists m, s'. split; [exact Hadd|]. split; [|exact Hq].
  rewrite (Hcopy "title") by discriminate. reflexivity.
Defined.

(** X2: [deleteMarker(id)] on an array of marker objects returns the first
    marker carrying the id and removes that entry alone, leaving the
    quests untouched; when no marker carries the id it returns [null] and
    the store is unchanged. *)
Theorem deleteMarker_removes_first (id : value) (s : DataStore)
    (ms : list obj) (ps : obj) :
  markers (data s) = VArr (List.map VObj ms) ps ->
  (forall (i : nat) (m : obj),
      first_match id ms i m ->
      exists s',
        deleteMarker id s = Ok (VObj m, s')
        /\ markers (data s') = VArr (List.map VObj (delete i ms)) ps
        /\ S (length (delete i ms)) = length ms
        /\ quests (data s') = quests (data s)
        /\ customCategories (data s') = customCategories (data s))
  /\ ((forall m, m ∈ ms -> has_id id m = false) ->
      deleteMarker id s = Ok (VNull, s)).
Proof.
  intros Hm. split.
  - intros i m Hfirst. unfold deleteMarker. rewrite Hm.
    destruct (find_id_objects id ms) as [(j & m' & Hm' & ->)|[Hnone _]].
    + destruct (first_match_unique id ms i j m m' Hfirst Hm') as [<- <-].
      simpl. eexists. split; [reflexivity|]. simpl.
      rewrite <- (list_fmap_delete VObj). split; [done|].
      split; [|done].
      destruct Hfirst as (Hi & _). apply lookup_lt_Some in Hi.
      rewrite length_delete by (by apply lookup_lt_is_Some_2). lia.
    + destruct Hfirst as (Hi & Hid & _).
      apply list_elem_of_lookup_2 in Hi. specialize (Hnone m Hi). congruence.
  - intros Hnone. unfold deleteMarker. rewrite Hm.
    destruct (find_id_objects id ms) as [(j & m' & Hm' & _)|[_ ->]]; [|done].
    destruct Hm' as (Hj & Hid & _).
    apply list_elem_of_lookup_2 in Hj. specialize (Hnone m' Hj). congruence.
Qed.

Lemma deleteMarker_removes_first_witness :
  let m := [("id", VNum 4); ("title", VStr "Bridge")] in
  let s := set_markers store_fix_sign (arr [VObj m]) in
  (exists s', deleteMarker (VNum 4) s = Ok (VObj m, s')
              /\ markers (data s') = arr [])
  /\ deleteMarker (VNum 5) s = Ok (VNull, s).
Proof.
  intros m s.
  destruct (deleteMarker_removes_first (VNum 4) s [m] [] eq_refl)
    as [Hfound _].
  destruct (deleteMarker_removes_first (VNum 5) s [m] [] eq_refl)
    as [_ Hnone].
  split.
  - destruct (Hfound 0%nat m) as (s' & Hdel & Hms & _).
    { split; [reflexivity|]. split; [reflexivity|]. intros j q' Hj. lia. }
    exists s'. split; [exact Hdel|exact Hms].
  - apply Hnone. intros q ->%list_elem_of_singleton. reflexivity.
Defined.

Section CategoryIndex.

Lemma indexOf_first (p : prim) (xs : list value) (i : nat) :
  indexOf (VPrim p) xs = Some i ->
  forall j : nat, (j < i)%nat -> xs !! j <> Some (VPrim p).
Proof.
  revert i. induction xs as [|c r IH]; intros i; simpl; [done|].
  destruct (strict_eq c (VPrim p)) eqn:E.
  - intros [= <-] j Hj. lia.
  - destruct (indexOf (VPrim p) r) as [k|] eqn:Ek; simpl; [|done].
    intros [= <-] [|j] Hj; simpl.
    + intros [= ->].
      assert (strict_eq (VPrim p) (VPrim p) = true)
        by (by apply strict_eq_prim).
      congruence.
    + apply (IH k eq_refl). lia.
Qed.

Lemma indexOf_found (p : prim) (xs : list value) :
  VPrim p ∈ xs -> exists i, indexOf (VPrim p) xs = Some i.
Proof.
  intros Hin. destruct (indexOf (VPrim p) xs) as [i|] eqn:E; [by exists i|].
  by apply indexOf_none in E.
Qed.

Lemma indexOf_appended (p : prim) (xs : list value) :
  VPrim p ∉ xs ->
  indexOf (VPrim p) (xs ++ [VPrim p])%list = Some (length xs).
Proof.
  induction xs as [|c r IH]; intros Hnot; simpl.
  - assert (prim_eqb p p = true) as -> by (by apply prim_eqb_eq). done.
  - apply not_elem_of_cons in Hnot as [Hne Hr].
    destruct (strict_eq c (VPrim p)) eqn:E.
    + apply strict_eq_prim in E. congruence.
    + by rewrite (IH Hr).
Qed.

Lemma delete_appended {A} (xs : list A) (x : A) :
  delete (length xs) (xs ++ [x])%list = xs.
Proof.
  induction xs as [|a r IH]; simpl; [done|]. by rewrite IH.
Qed.

Lemma NoDup_delete_absent (xs : list value) (i : nat) (x : value) :
  NoDup xs -> xs !! i = Some x -> x ∉ delete i xs.
Proof.
  intros Hnd. revert i. induction Hnd as [|a r Hnotin Hnd IH]; intros i.
  - done.
  - destruct i as [|i]; simpl.
    + by intros [= ->].
    + intros Hi. apply not_elem_of_cons. split.
      * intros ->. apply Hnotin. by apply list_elem_of_lookup_2 in Hi.
      * by apply IH.
Qed.

End CategoryIndex.

Section DataEta.

Lemma data_with_quests (s : DataStore) (q : value) :
  quests (data s) = q -> data (set_quests s q) = data s.
Proof. destruct s as [[]]. simpl. by intros ->. Qed.

Lemma data_with_customCategories (s : DataStore) (c : value) :
  customCategories (data s) = c -> data (set_customCategories s c) = data s.
Proof. destruct s as [[]]. simpl. by intros ->. Qed.

Lemma strict_eq_gen_id (e : Env) : strict_eq (gen_id e) (gen_id e) = true.
Proof. unfold gen_id. simpl. apply Z.eqb_refl. Qed.

End DataEta.

(** X3: [deleteCategory(name)] on a category array holding the name
    removes its first occurrence and returns the name, leaving quests and
    markers alone; if the names were pairwise distinct the name is gone
    afterwards. On an array without the name it returns [null] and the
    store is unchanged. *)
Theorem deleteCategory_removes_name (name : string) (s : DataStore)
    (xs : list value) (ps : obj) :
  customCategories (data s) = VArr xs ps ->
  (VStr name ∈ xs ->
   exists i s',
     xs !! i = Some (VStr name)
     /\ (forall j : nat, (j < i)%nat -> xs !! j <> Some (VStr name))
     /\ deleteCategory (VStr name) s = Ok (VStr name, s')
     /\ customCategories (data s') = VArr (delete i xs) ps
     /\ quests (data s') = quests (data s)
     /\ markers (data s') = markers (data s)
     /\ (NoDup xs -> VStr name ∉ delete i xs))
  /\ (VStr name ∉ xs -> deleteCategory (VStr name) s = Ok (VNull, s)).
Proof.
  intros Hc. split.
  - intros Hin. destruct (indexOf_found _ xs Hin) as [i Hi].
    pose proof (indexOf_lookup _ xs i Hi) as Hl.
    exists i. eexists. split; [exact Hl|].
    split; [by apply indexOf_first|].
    unfold deleteCategory. rewrite Hc, Hi, Hl. simpl.
    split; [reflexivity|]. repeat (split; [done|]).
    intros Hnd. by apply NoDup_delete_absent.
  - intros Hnot. unfold deleteCategory. rewrite Hc.
    destruct (indexOf (VStr name) xs) as [i|] eqn:E; [|done].
    apply indexOf_lookup, list_elem_of_lookup_2 in E. done.
Qed.

Lemma deleteCategory_removes_name_witness :
  (exists s',
     deleteCategory (VStr "marketing") (empty_store env0)
     = Ok (VStr "marketing", s')
     /\ customCategories (data s')
        = arr [VStr "design"; VStr "programming"; VStr "writing";
               VStr "other"])
  /\ deleteCategory (VStr "music") (empty_store env0)
     = Ok (VNull, empty_store env0).
Proof.
  destruct (deleteCategory_removes_name "marketing" (empty_store env0)
              default_categories [] eq_refl) as [Hfound _].
  destruct (deleteCategory_removes_name "music" (empty_store env0)
              default_categories [] eq_refl) as [_ Hnone].
  split.
  - destruct Hfound as (i & s' & Hi & Hfirst & Hdel & Hc & _).
    { do 2 right. left. }
    exists s'. split; [exact Hdel|]. rewrite Hc.
    destruct i as [|[|[|i]]]; simpl in Hi.
    + discriminate Hi.
    + discriminate Hi.
    + reflexivity.
    + exfalso. apply (Hfirst 2%nat); [lia|reflexivity].
  - apply Hnone. intros Hin. apply includes_prim in Hin. discriminate Hin.
Defined.

(** X4: adding a category name that was not in the array and deleting it
    again gives back the store's data exactly as it was. *)
Theorem addCategory_then_deleteCategory (name : string) (s : DataStore)
    (xs : list value) (ps : obj) :
  customCategories (data s) = VArr xs ps ->
  VStr name ∉ xs ->
  exists s1 s2,
    addCategory (VStr name) s = Ok (VStr name, s1)
    /\ deleteCategory (VStr name) s1 = Ok (VStr name, s2)
    /\ data s2 = data s.
Proof.
  intros Hc Hnot. rewrite (addCategory_absent name s xs ps Hc Hnot).
  eexists _, _. split; [reflexivity|].
  unfold deleteCategory. simpl.
  rewrite (indexOf_appended _ xs Hnot).
  rewrite list_lookup_middle by done. simpl.
  split; [reflexivity|]. simpl.
  rewrite delete_appended.
  destruct s as [[]]. simpl in *. by subst.
Qed.

Lemma addCategory_then_deleteCategory_witness :
  exists s1 s2,
    addCategory (VStr "music") (empty_store env0) = Ok (VStr "music", s1)
    /\ deleteCategory (VStr "music") s1 = Ok (VStr "music", s2)
    /\ data s2 = data (empty_store env0).
Proof.
  apply (addCategory_then_deleteCategory "music" (empty_store env0)
           default_categories []); [reflexivity|].
  intros Hin. apply includes_prim in Hin. discriminate Hin.
Defined.

(** X5: [addQuest] followed by [deleteQuest] with the id just assigned
    returns the very quest that was added and gives back the store's data
    as it was, whatever the collection held before (the new quest sits at
    the head, so it is the first match even if the id collides). *)
Theorem addQuest_then_deleteQuest (e : Env) (payload : obj) (s : DataStore)
    (xs : list value) (ps : obj) :
  quests (data s) = VArr xs ps ->
  exists q s1 s2,
    addQuest e (VObj payload) s = Ok (q, s1)
    /\ deleteQuest (gen_id e) s1 = Ok (q, s2)
    /\ data s2 = data s.
Proof.
  intros Hq. rewrite (addQuest_object e payload s xs ps Hq).
  eexists _, _, _. split; [reflexivity|].
  unfold deleteQuest. cbn [scheduleSave set_quests data quests].
  assert (Hhead : find_id (gen_id e) (stamped (e, payload) :: xs)
                  = Ok (Some (0%nat, stamped (e, payload)))).
  { cbn [find_id]. 
    assert (get_prop (stamped (e, payload)) "id" = Ok (gen_id e)) as ->.
    { unfold stamped. simpl. rewrite get_set_field_ne by discriminate.
      by rewrite get_set_field_eq. }
    simpl. by rewrite Z.eqb_refl. }
  rewrite Hhead. simpl. split; [reflexivity|].
  destruct s as [[]]. simpl in *. by subst.
Qed.

Lemma addQuest_then_deleteQuest_witness :
  exists q s1 s2,
    addQuest env0 (VObj paint_door) store_fix_sign = Ok (q, s1)
    /\ deleteQuest (gen_id env0) s1 = Ok (q, s2)
    /\ data s2 = data store_fix_sign.
Proof.
  apply (addQuest_then_deleteQuest env0 paint_door store_fix_sign
           [VObj fix_sign_stored] []).
  reflexivity.
Defined.

(* ===================================================================== *)
(** ** Further properties of the gateway *)
(* ===================================================================== *)

Section Delivery.

Lemma delivered_cons_all (client : string) (ev : event)
    (out : list emission) :
  delivered client (ToAll ev :: out) = ev :: delivered client out.
Proof. reflexivity. Qed.

Lemma delivered_single (client sender : string) (ev : event) :
  delivered client [ToSocket sender ev]
  = if String.eqb sender client then [ev] else [].
Proof. unfold delivered. simpl. by destruct (String.eqb sender client). Qed.

Lemma notify_admins_unrendered (c : Clock) (type : string)
    (title item : value) (a : string) (r : list string) :
  to_string_throws title = true ->
  notify_admins c type title item (a :: r) = ([], Some TypeError).
Proof. intros Ht. simpl. by rewrite Ht. Qed.

End Delivery.

(** X6: an [addQuest] whose store call throws (a primitive payload such as
    [null] or a missing one, or a quest collection that is not an array)
    leaves the gateway as it was, and the only event emitted is [error] to
    the sender: every other client receives nothing. *)
Theorem addQuest_failure_is_private (c : Clock) (sender : string)
    (questData : value) (g : Gateway) :
  is_ref questData = false
  \/ is_array (quests (data (dataStore g))) = false ->
  exists out logs,
    handle c sender (addQuestMsg questData) g = Handled g out logs
    /\ delivered sender out = [error "Failed to add quest"]
    /\ forall client : string, client <> sender -> delivered client out = [].
Proof.
  intros Hbad.
  assert (Hthrow : addQuest (env c) questData (dataStore g)
                   = Throw TypeError).
  { destruct Hbad as [Hp|Ha].
    - by destruct questData.
    - unfold addQuest. destruct questData as [p|fs|xs ps]; [done| |];
        simpl; by rewrite unshift_not_array. }
  simpl. unfold on_addQuest. rewrite Hthrow.
  eexists _, _. split; [reflexivity|]. split.
  - rewrite delivered_single. by rewrite String.eqb_refl.
  - intros client Hne. rewrite delivered_single.
    destruct (String.eqb sender client) eqn:E; [|done].
    apply String.eqb_eq in E. congruence.
Qed.

Lemma addQuest_failure_is_private_witness :
  exists out logs,
    handle clock1 "A" (addQuestMsg VNull) (gateway_ab store_fix_sign)
    = Handled (gateway_ab store_fix_sign) out logs
    /\ delivered "A" out = [error "Failed to add quest"]
    /\ delivered "B" out = [].
Proof.
  destruct (addQuest_failure_is_private clock1 "A" VNull
              (gateway_ab store_fix_sign) (or_introl eq_refl))
    as (out & logs & Hh & Hsender & Hothers).
  exists out, logs. split; [exact Hh|]. split; [exact Hsender|].
  apply Hothers. discriminate.
Defined.

(** X7: when an admin is connected and the title of the payload cannot be
    rendered into the notification text (an object with an own
    [toString] key), the quest is nevertheless stored and [questAdded] is
    broadcast, no admin is notified, and the sender is told
    [Failed to add quest]. *)
Theorem addQuest_reports_failure_after_storing (c : Clock) (sender : string)
    (payload : obj) (g : Gateway) (xs : list value) (ps : obj)
    (a : string) (r : list string) :
  quests (data (dataStore g)) = VArr xs ps ->
  adminSockets g = a :: r ->
  to_string_throws (get_field "title" payload) = true ->
  let newQuest := stamped (env c, payload) in
  exists g' logs,
    handle c sender (addQuestMsg (VObj payload)) g
    = Handled g'
        [ToAll (questAdded newQuest);
         ToSocket sender (error "Failed to add quest")] logs
    /\ quests (data (dataStore g')) = VArr (newQuest :: xs) ps.
Proof.
  intros Hq Hadm Ht newQuest. simpl. unfold on_addQuest.
  rewrite (addQuest_object (env c) payload (dataStore g) xs ps Hq).
  fold newQuest. cbn [adminSockets set_store]. rewrite Hadm.
  rewrite notify_admins_unrendered
    by (unfold newQuest; by rewrite title_of_stamped).
  eexists _, _. split; [reflexivity|]. done.
Qed.

Lemma addQuest_reports_failure_after_storing_witness :
  let payload := [("title", VObj [("toString", VNum 1)])] in
  exists g' logs,
    handle clock1 "A" (addQuestMsg (VObj payload))
      (gateway_ab store_fix_sign)
    = Handled g'
        [ToAll (questAdded (stamped (env1, payload)));
         ToSocket "A" (error "Failed to add quest")] logs
    /\ quests (data (dataStore g'))
       = arr [stamped (env1, payload); VObj fix_sign_stored].
Proof.
  intros payload.
  apply (addQuest_reports_failure_after_storing clock1 "A" payload
           (gateway_ab store_fix_sign) [VObj fix_sign_stored] [] "B" []);
    reflexivity.
Defined.

Section MarkerFailure.

Lemma addMarker_throws (e : Env) (markerData : value) (s : DataStore) :
  is_ref markerData = false \/ is_array (markers (data s)) = false ->
  addMarker e markerData s = Throw TypeError.
Proof.
  intros [Hp|Ha].
  - by destruct markerData.
  - unfold addMarker. destruct markerData as [p|fs|xs ps]; [done| |];
      simpl; by rewrite unshift_not_array.
Qed.

End MarkerFailure.

(** X8: [addMarker] with an object payload whose title can be rendered
    broadcasts [markerAdded] to every client and sends each admin session
    one [adminNotification] of type [marker_added]; when the store call
    throws, nothing at all is emitted (no [error] event, unlike
    [addQuest]) and the gateway is unchanged. *)
Theorem addMarker_broadcast (c : Clock) (sender : string) (g : Gateway) :
  (forall (payload : obj) (xs : list value) (ps : obj),
      markers (data (dataStore g)) = VArr xs ps ->
      to_string_throws (get_field "title" payload) = false ->
      NoDup (adminSockets g) ->
      let newMarker := stamped (env c, payload) in
      exists g' out logs,
        handle c sender (addMarkerMsg (VObj payload)) g
        = Handled g' out logs
        /\ markers (data (dataStore g')) = VArr (newMarker :: xs) ps
        /\ forall client : string,
             (client ∈ adminSockets g ->
              delivered client out
              = [markerAdded newMarker;
                 adminNotification "marker_added"
                   (get_field "title" payload) newMarker
                   (notify_iso c client)])
             /\ (client ∉ adminSockets g ->
                 delivered client out = [markerAdded newMarker]))
  /\ (forall markerData : value,
        is_ref markerData = false
        \/ is_array (markers (data (dataStore g))) = false ->
        handle c sender (addMarkerMsg markerData) g
        = Handled g [] [Error "Error adding marker"]).
Proof.
  split.
  - intros payload xs ps Hm Htitle Hnd newMarker.
    assert (Ht : title_of newMarker = get_field "title" payload)
      by apply title_of_stamped.
    unfold handle, on_addMarker.
    rewrite (addMarker_object (env c) payload (dataStore g) xs ps Hm).
    fold newMarker. cbn [adminSockets set_store].
    rewrite notify_admins_rendered by (by rewrite Ht).
    eexists _, _, _. split; [reflexivity|]. split; [done|].
    intros client. rewrite delivered_cons_all. split; intros Hin.
    + rewrite (delivered_to_admin client
                 (notification c "marker_added" newMarker)) by done.
      unfold notification. by rewrite Ht.
    + by rewrite (delivered_to_others client
                    (notification c "marker_added" newMarker)).
  - intros markerData Hbad. simpl. unfold on_addMarker.
    by rewrite (addMarker_throws (env c) markerData (dataStore g) Hbad).
Qed.

Lemma addMarker_broadcast_witness :
  let payload := [("title", VStr "Bridge")] in
  (exists g' out logs,
     handle clock1 "A" (addMarkerMsg (VObj payload))
       (gateway_ab store_fix_sign) = Handled g' out logs
     /\ delivered "A" out = [markerAdded (stamped (env1, payload))]
     /\ delivered "B" out
        = [markerAdded (stamped (env1, payload));
           adminNotification "marker_added" (VStr "Bridge")
             (stamped (env1, payload)) (notify_iso clock1 "B")])
  /\ handle clock1 "A" (addMarkerMsg VNull) (gateway_ab store_fix_sign)
     = Handled (gateway_ab store_fix_sign) [] [Error "Error adding marker"].
Proof.
  intros payload.
  destruct (addMarker_broadcast clock1 "A" (gateway_ab store_fix_sign))
    as [Hok Hfail].
  split.
  - destruct (Hok payload [] [] eq_refl eq_refl (NoDup_singleton "B"))
      as (g' & out & logs & Hh & _ & Hdel).
    exists g', out, logs. split; [exact Hh|]. split.
    + apply (proj2 (Hdel "A")). by intros ?%list_elem_of_singleton.
    + apply (proj1 (Hdel "B")). by apply list_elem_of_singleton.
  - apply Hfail. by left.
Defined.

(** X9: the [deleteQuest] handler, on an array of quest objects, removes
    the first quest carrying the id and broadcasts [questDeleted] with
    the id as it was sent (every client receives exactly that); with no
    such quest it emits nothing and leaves the gateway as it was. *)
Theorem deleteQuest_handler_broadcast (c : Clock) (sender : string)
    (questId : value) (g : Gateway) (qs : list obj) (ps : obj) :
  quests (data (dataStore g)) = VArr (List.map VObj qs) ps ->
  (forall (i : nat) (q : obj),
      first_match questId qs i q ->
      exists g' out logs,
        handle c sender (deleteQuestMsg questId) g = Handled g' out logs
        /\ quests (data (dataStore g'))
           = VArr (List.map VObj (delete i qs)) ps
        /\ forall client : string,
             delivered client out = [questDeleted questId])
  /\ ((forall q, q ∈ qs -> has_id questId q = false) ->
      handle c sender (deleteQuestMsg questId) g = Handled g [] []).
Proof.
  intros Hq. split.
  - intros i q Hm. simpl. unfold on_deleteQuest.
    rewrite (deleteQuest_found questId (dataStore g) qs ps i q Hq Hm).
    simpl. eexists _, _, _. split; [reflexivity|]. split; [done|]. done.
  - intros Hnone. simpl. unfold on_deleteQuest.
    rewrite (deleteQuest_not_found questId (dataStore g) qs ps Hq Hnone).
    simpl. by rewrite set_store_same.
Qed.

Lemma deleteQuest_handler_broadcast_witness :
  (exists g' out logs,
     handle clock1 "A" (deleteQuestMsg (gen_id env0))
       (gateway_ab store_fix_sign) = Handled g' out logs
     /\ quests (data (dataStore g')) = arr []
     /\ delivered "B" out = [questDeleted (gen_id env0)])
  /\ handle clock1 "A" (deleteQuestMsg (VNum 7)) (gateway_ab store_fix_sign)
     = Handled (gateway_ab store_fix_sign) [] [].
Proof.
  destruct (deleteQuest_handler_broadcast clock1 "A" (gen_id env0)
              (gateway_ab store_fix_sign) [fix_sign_stored] [] eq_refl)
    as [Hfound _].
  destruct (deleteQuest_handler_broadcast clock1 "A" (VNum 7)
              (gateway_ab store_fix_sign) [fix_sign_stored] [] eq_refl)
    as [_ Hnone].
  split.
  - destruct (Hfound 0%nat fix_sign_stored)
      as (g' & out & logs & Hh & Hq & Hdel).
    { split; [reflexivity|]. split; [reflexivity|]. intros j q' Hj. lia. }
    exists g', out, logs. split; [exact Hh|]. split; [exact Hq|].
    apply Hdel.
  - apply Hnone. intros q ->%list_elem_of_singleton. reflexivity.
Defined.

(** X10: the category handlers broadcast only when the value the store
    returns is truthy. A name already present (add) or absent (delete)
    changes and emits nothing. A new non-empty name is appended and
    [categoryAdded] is broadcast; but the empty string, which the store
    appends and returns like any other name, is falsy, so it is stored
    without any broadcast. *)
Theorem addCategory_handler_broadcast (c : Clock) (sender : string)
    (name : string) (g : Gateway) (xs : list value) (ps : obj) :
  customCategories (data (dataStore g)) = VArr xs ps ->
  (VStr name ∈ xs ->
   handle c sender (addCategoryMsg (VStr name)) g = Handled g [] [])
  /\ (VStr name ∉ xs ->
      exists g' logs,
        handle c sender (addCategoryMsg (VStr name)) g
        = Handled g'
            (if String.eqb name "" then []
             else [ToAll (categoryAdded (VStr name))]) logs
        /\ customCategories (data (dataStore g'))
           = VArr (xs ++ [VStr name]) ps)
  /\ (VStr name ∉ xs ->
      handle c sender (deleteCategoryMsg (VStr name)) g = Handled g [] []).
Proof.
  intros Hc. split; [|split].
  - intros Hin. simpl. unfold on_addCategory.
    rewrite (addCategory_present name (dataStore g) xs ps Hc Hin).
    simpl. by rewrite set_store_same.
  - intros Hnot. simpl. unfold on_addCategory.
    rewrite (addCategory_absent name (dataStore g) xs ps Hc Hnot).
    unfold guarded. simpl.
    destruct (String.eqb name ""); simpl; eexists _, _; by split.
  - intros Hnot. simpl. unfold on_deleteCategory, deleteCategory.
    rewrite Hc.
    destruct (indexOf (VStr name) xs) as [i|] eqn:E.
    + apply indexOf_lookup, list_elem_of_lookup_2 in E. done.
    + simpl. by rewrite set_store_same.
Qed.

Lemma addCategory_handler_broadcast_witness :
  handle clock1 "A" (addCategoryMsg (VStr "design"))
    (gateway_ab store_fix_sign)
  = Handled (gateway_ab store_fix_sign) [] []
  /\ (exists g' logs,
        handle clock1 "A" (addCategoryMsg (VStr "music"))
          (gateway_ab store_fix_sign)
        = Handled g' [ToAll (categoryAdded (VStr "music"))] logs)
  /\ (exists g' logs,
        handle clock1 "A" (addCategoryMsg (VStr ""))
          (gateway_ab store_fix_sign) = Handled g' [] logs
        /\ customCategories (data (dataStore g'))
           = arr (default_categories ++ [VStr ""]))
  /\ handle clock1 "A" (deleteCategoryMsg (VStr "music"))
       (gateway_ab store_fix_sign)
     = Handled (gateway_ab store_fix_sign) [] [].
Proof.
  assert (Hnew : forall n : string,
            includes (VStr n) default_categories = false ->
            VStr n ∉ default_categories).
  { intros n Hn Hin%includes_prim. congruence. }
  split; [|split; [|split]].
  - apply (proj1 (addCategory_handler_broadcast clock1 "A" "design"
                    (gateway_ab store_fix_sign) default_categories []
                    eq_refl)).
    constructor.
  - destruct (proj1 (proj2 (addCategory_handler_broadcast clock1 "A"
                 "music" (gateway_ab store_fix_sign) default_categories []
                 eq_refl)) (Hnew "music" eq_refl))
      as (g' & logs & Hh & _).
    by exists g', logs.
  - destruct (proj1 (proj2 (addCategory_handler_broadcast clock1 "A"
                 "" (gateway_ab store_fix_sign) default_categories []
                 eq_refl)) (Hnew "" eq_refl))
      as (g' & logs & Hh & Hc).
    by exists g', logs.
  - apply (proj2 (proj2 (addCategory_handler_broadcast clock1 "A" "music"
                           (gateway_ab store_fix_sign) default_categories []
                           eq_refl))).
    by apply Hnew.
Defined.

(** X11: [clearAllQuests] and [clearAllMarkers] succeed on every store,
    even one whose collection was not an array: each empties its own
    collection, leaves the other collections alone and is broadcast to
    everyone; after [clearAllQuests], [addQuest] of any object payload
    succeeds and the collection holds exactly that quest. Whenever
    [getStats] returns after [clearAllQuests], all four quest figures
    are zero; after [clearAllMarkers], both marker figures are zero. If
    [getStats] returned before the clearing it returns after it, with
    the figures of the other collection unchanged; and on a store whose
    quests are not an array [getStats] throws until they are cleared. *)
Theorem clearAll_always_succeeds (c : Clock) (sender : string)
    (g : Gateway) :
  exists g1 g2,
    handle c sender clearAllQuestsMsg g
    = Handled g1 [ToAll allQuestsCleared] [Info "All quests cleared"]
    /\ quests (data (dataStore g1)) = arr []
    /\ markers (data (dataStore g1)) = markers (data (dataStore g))
    /\ customCategories (data (dataStore g1))
       = customCategories (data (dataStore g))
    /\ handle c sender clearAllMarkersMsg g
       = Handled g2 [ToAll allMarkersCleared] [Info "All markers cleared"]
    /\ markers (data (dataStore g2)) = arr []
    /\ quests (data (dataStore g2)) = quests (data (dataStore g))
    /\ customCategories (data (dataStore g2))
       = customCategories (data (dataStore g))
    /\ (forall (e : Env) (payload : obj),
          exists q s,
            addQuest e (VObj payload) (dataStore g1) = Ok (q, s)
            /\ quests (data s) = arr [q])
    /\ (forall (e : Env) (st : Stats),
          getStats e (dataStore g1) = Ok st ->
          totalQuests st = 0%nat /\ questsOpen st = 0%nat
          /\ questsTaken st = 0%nat /\ activeUsers st = 0%nat)
    /\ (forall (e : Env) (st : Stats),
          getStats e (dataStore g2) = Ok st ->
          totalMarkers st = 0%nat /\ markersToday st = 0%nat)
    /\ (forall (e : Env) (st : Stats),
          getStats e (dataStore g) = Ok st ->
          (exists st1,
             getStats e (dataStore g1) = Ok st1
             /\ totalMarkers st1 = totalMarkers st
             /\ markersToday st1 = markersToday st
             /\ stat_customCategories st1 = stat_customCategories st
             /\ lastUpdated st1 = lastUpdated st)
          /\ (exists st2,
                getStats e (dataStore g2) = Ok st2
                /\ totalQuests st2 = totalQuests st
                /\ questsOpen st2 = questsOpen st
                /\ questsTaken st2 = questsTaken st
                /\ activeUsers st2 = activeUsers st
                /\ stat_customCategories st2 = stat_customCategories st
                /\ lastUpdated st2 = lastUpdated st))
    /\ (forall e : Env,
          is_array (quests (data (dataStore g))) = false ->
          getStats e (dataStore g) = Throw TypeError).
Proof.
  eexists _, _. split; [reflexivity|].
  do 3 (split; [reflexivity|]). split; [reflexivity|].
  do 3 (split; [reflexivity|]). split; [|split; [|split; [|split]]].
  - intros e payload. eexists _, _. by split.
  - intros e st. unfold getStats. simpl.
    destruct (markers _) as [|?|ms mps]; try done. simpl.
    destruct (count_where (created_today e) ms); [|done..]. simpl.
    destruct (length_of _); [|done..]. simpl.
    destruct (get_prop _ _); [|done..]. simpl.
    by intros [= <-].
  - intros e st. unfold getStats. simpl.
    destruct (quests _) as [|?|qs qps]; try done. simpl.
    destruct (count_where (status_is "open") qs); [|done..]. simpl.
    destruct (count_where (status_is "taken") qs); [|done..]. simpl.
    destruct (pluck "user" qs); [|done..]. simpl.
    destruct (length_of _); [|done..]. simpl.
    destruct (get_prop _ _); [|done..]. simpl.
    by intros [= <-].
  - intros e st. unfold getStats. simpl.
    destruct (markers _) as [|?|ms mps]; try done.
    destruct (quests _) as [|?|qs qps]; try done. simpl.
    destruct (count_where (created_today e) ms); [|done..]. simpl.
    destruct (count_where (status_is "open") qs); [|done..]. simpl.
    destruct (count_where (status_is "taken") qs); [|done..]. simpl.
    destruct (pluck "user" qs); [|done..]. simpl.
    destruct (length_of _); [|done..]. simpl.
    destruct (get_prop _ _); [|done..]. simpl.
    intros [= <-]. split; eexists; (split; [reflexivity|]); by simpl.
  - intros e Hq. unfold getStats.
    destruct (markers _); try done. by destruct (quests _).
Qed.

Lemma clearAll_always_succeeds_witness :
  let s := (constructor env0 (Json (VObj [("quests", VStr "oops")]))).1 in
  getStats env1 s = Throw TypeError
  /\ (exists g1 st,
        handle clock1 "A" clearAllQuestsMsg (gateway_ab s)
        = Handled g1 [ToAll allQuestsCleared] [Info "All quests cleared"]
        /\ getStats env1 (dataStore g1) = Ok st
        /\ totalQuests st = 0%nat)
  /\ (exists g1 st st1,
        handle clock1 "A" clearAllQuestsMsg (gateway_ab store_fix_sign)
        = Handled g1 [ToAll allQuestsCleared] [Info "All quests cleared"]
        /\ getStats env1 store_fix_sign = Ok st
        /\ totalQuests st = 1%nat
        /\ getStats env1 (dataStore g1) = Ok st1
        /\ totalQuests st1 = 0%nat /\ activeUsers st1 = 0%nat
        /\ lastUpdated st1 = lastUpdated st).
Proof.
  intros s. split; [|split].
  - destruct (clearAll_always_succeeds clock1 "A" (gateway_ab s))
      as (g1 & g2 & _ & _ & _ & _ & _ & _ & _ & _ & _ & _ & _ & _ & Hthrow).
    exact (Hthrow env1 eq_refl).
  - destruct (clearAll_always_succeeds clock1 "A" (gateway_ab s))
      as (g1 & g2 & Hq & _ & _ & _ & _ & _ & _ & _ & _ & Hzero & _).
    injection Hq as <-.
    eexists _, _. split; [reflexivity|]. split; [reflexivity|].
    exact (proj1 (Hzero env1 _ eq_refl)).
  - destruct (clearAll_always_succeeds clock1 "A"
                (gateway_ab store_fix_sign))
      as (g1 & g2 & Hq & _ & _ & _ & _ & _ & _ & _ & _ & Hzero & _ & Hkeep
          & _).
    injection Hq as <-.
    destruct (Hkeep env1 _ eq_refl) as [(st1 & Hst1 & _ & _ & _ & Hupd) _].
    destruct (Hzero env1 st1 Hst1) as (Htot & _ & _ & Hact).
    eexists _, _, st1. split; [reflexivity|]. split; [reflexivity|].
    split; [reflexivity|]. split; [exact Hst1|].
    split; [exact Htot|]. split; [exact Hact|exact Hupd].
Defined.

Section Registry.

Lemma map_set_sessions (id : string) (info : UserInfo)
    (m : list (string * UserInfo)) :
  List.map fst (map_set id info m)
  = if existsb (String.eqb id) (List.map fst m)
    then List.map fst m
    else (List.map fst m ++ [id])%list.
Proof.
  induction m as [|[k v] r IH]; simpl; [done|].
  destruct (String.eqb id k) eqn:E; simpl; [done|].
  rewrite IH. by destruct (existsb _ _).
Qed.

Lemma existsb_eqb_elem (id : string) (ids : list string) :
  existsb (String.eqb id) ids = true <-> id ∈ ids.
Proof.
  induction ids as [|a r IH]; simpl.
  - split; [done|]. by intros ?%elem_of_nil.
  - rewrite orb_true_iff, elem_of_cons, IH, String.eqb_eq. done.
Qed.

Lemma sessions_after_set (id : string) (info : UserInfo)
    (m : list (string * UserInfo)) :
  List.map fst (map_set id info m) = sockets_add id (List.map fst m).
Proof. rewrite map_set_sessions. reflexivity. Qed.

Lemma sockets_add_elem (id x : string) (ids : list string) :
  x ∈ sockets_add id ids <-> x = id \/ x ∈ ids.
Proof.
  unfold sockets_add. destruct (existsb (String.eqb id) ids) eqn:E.
  - apply existsb_eqb_elem in E. split; [by right|].
    intros [->|H]; done.
  - rewrite elem_of_app, list_elem_of_singleton. tauto.
Qed.

Lemma filter_ne_elem (socket x : string) (ids : list string) :
  x ∈ List.filter (fun id => negb (String.eqb id socket)) ids
  <-> x <> socket /\ x ∈ ids.
Proof.
  rewrite !list_elem_of_In, List.filter_In, negb_true_iff.
  split.
  - intros [Hin Hne]. split; [|done]. intros ->.
    by rewrite String.eqb_refl in Hne.
  - intros [Hne Hin]. split; [done|].
    destruct (String.eqb x socket) eqn:E; [|done].
    apply String.eqb_eq in E. done.
Qed.

Lemma sessions_after_delete (socket : string)
    (m : list (string * UserInfo)) :
  List.map fst (List.filter (fun kv => negb (String.eqb kv.1 socket)) m)
  = List.filter (fun id => negb (String.eqb id socket)) (List.map fst m).
Proof.
  induction m as [|[k v] r IH]; simpl; [done|].
  destruct (String.eqb k socket); simpl; by rewrite IH.
Qed.

End Registry.

Section Classification.

Lemma referer_includes_occurs (r needle : string) :
  needle <> "" ->
  truthy (referer_includes (Some r) needle) = true <-> occurs_in needle r.
Proof.
  intros Hne. unfold referer_includes, occurs_in. simpl.
  destruct (String.index 0 needle r) as [m|] eqn:E.
  - split; [|done]. intros _. exists m. by apply String.index_correct1 in E.
  - split; [done|]. intros [m Hm].
    by apply (String.index_correct3 0 m needle r E Hne (Nat.le_0_l m)) in Hm.
Qed.

Lemma truthy_or_else (a b : value) :
  truthy (or_else a b) = true <-> truthy a = true \/ truthy b = true.
Proof.
  unfold or_else. destruct (truthy a) eqn:E.
  - rewrite E. tauto.
  - split; [by right|]. by intros [?|?].
Qed.

Lemma isAdmin_spec (referer : option string) :
  truthy (or_else
            (or_else (referer_includes referer "/admin")
               (referer_includes referer "?admin=true"))
            (referer_includes referer "#admin")) = true
  <-> admin_referer referer.
Proof.
  rewrite !truthy_or_else. unfold admin_referer.
  destruct referer as [r|].
  - rewrite !referer_includes_occurs by discriminate. split.
    + intros H. exists r. split; [done|]. tauto.
    + intros (r' & [= <-] & H). tauto.
  - simpl. split; [by intros [[?|?]|?]|]. by intros (r' & ? & _).
Qed.

End Classification.

Section Rounding.

Lemma round64_pos_exact (n : Z) :
  (2 ^ 53 <= n)%Z ->
  (n mod 2 ^ (Z.log2 n - 52) = 0)%Z ->
  round64_pos n = n.
Proof.
  intros Hn Hmod. unfold round64_pos.
  destruct (n <? 2 ^ 53)%Z eqn:E; [apply Z.ltb_lt in E; lia|].
  assert (Hlog : (53 <= Z.log2 n)%Z).
  { change 53%Z with (Z.log2 (2 ^ 53)). by apply Z.log2_le_mono. }
  assert (Hu : (0 < 2 ^ (Z.log2 n - 52))%Z) by (apply Z.pow_pos_nonneg; lia).
  cbv zeta. rewrite Hmod.
  assert ((2 * 0 <? 2 ^ (Z.log2 n - 52))%Z = true) as ->
    by (apply Z.ltb_lt; lia).
  rewrite Z.mul_comm. symmetry. apply Z.div_exact; lia.
Qed.

(** A connection count below 2^53 is incremented exactly. *)
Lemma add64_count (k : Z) :
  (0 <= k < 2 ^ 53)%Z ->
  add64 (k * 2 ^ 53) (2 ^ 53) = ((k + 1) * 2 ^ 53)%Z.
Proof.
  intros Hk. unfold add64, round64.
  replace (k * 2 ^ 53 + 2 ^ 53)%Z with ((k + 1) * 2 ^ 53)%Z by lia.
  assert (Hpos : (2 ^ 53 <= (k + 1) * 2 ^ 53)%Z) by nia.
  destruct ((k + 1) * 2 ^ 53 <? 0)%Z eqn:E; [apply Z.ltb_lt in E; lia|].
  apply round64_pos_exact; [exact Hpos|].
  rewrite Z.log2_mul_pow2 by lia.
  replace (53 + Z.log2 (k + 1) - 52)%Z with (Z.log2 (k + 1) + 1)%Z by lia.
  assert (Hle : (Z.log2 (k + 1) <= 53)%Z).
  { change 53%Z with (Z.log2 (2 ^ 53)). apply Z.log2_le_mono. lia. }
  assert (H0 : (0 <= Z.log2 (k + 1))%Z) by apply Z.log2_nonneg.
  destruct (Z.eq_dec (Z.log2 (k + 1)) 53) as [Heq|Hne].
  - assert (k + 1 = 2 ^ 53)%Z as ->.
    { pose proof (Z.log2_spec (k + 1) ltac:(lia)) as [Hlow _].
      rewrite Heq in Hlow. lia. }
    reflexivity.
  - replace (2 ^ 53)%Z
      with (2 ^ (53 - (Z.log2 (k + 1) + 1)) * 2 ^ (Z.log2 (k + 1) + 1))%Z.
    + rewrite Z.mul_assoc. apply Z_mod_mult.
    + rewrite <- Z.pow_add_r by lia. f_equal. lia.
Qed.

End Rounding.

(** X12: a connection (on a store whose analytics object counts
    connections) registers the session, classifies it as admin exactly
    when the referring page mentions [/admin], [?admin=true] or [#admin]
    (never without a referer), keeps every other session and admin as
    they were, counts the connection, sends the snapshot to the new
    socket alone and broadcasts the new number of sessions. *)
Theorem connect_registers_session (c : Clock) (socket : string)
    (referer agent : option string) (g : Gateway) (fs : obj) (n : Z) :
  analytics (data (dataStore g)) = VObj fs ->
  get_field "totalConnections" fs = VNum n ->
  exists g' isAdmin logs,
    connect c socket referer agent g
    = Handled g'
        [ToSocket socket
           (initialData (getAllData (dataStore g)) isAdmin socket);
         ToAll (userCount (length (connectedUsers g')))] logs
    /\ (truthy isAdmin = true <-> admin_referer referer)
    /\ socket ∈ sessions g'
    /\ (forall other, other <> socket ->
          (other ∈ sessions g' <-> other ∈ sessions g)
          /\ (other ∈ adminSockets g' <-> other ∈ adminSockets g))
    /\ (socket ∈ adminSockets g'
        <-> socket ∈ adminSockets g \/ admin_referer referer)
    /\ (socket ∉ sessions g ->
        length (connectedUsers g') = S (length (connectedUsers g)))
    /\ getAllData (dataStore g') = getAllData (dataStore g)
    /\ get_prop (analytics (data (dataStore g'))) "totalConnections"
       = Ok (VNum (add64 n (2 ^ 53)))
    /\ (forall k : Z,
          (0 <= k < 2 ^ 53)%Z -> n = (k * 2 ^ 53)%Z ->
          get_prop (analytics (data (dataStore g'))) "totalConnections"
          = Ok (VNum ((k + 1) * 2 ^ 53)))
    /\ add64 (2 ^ 53 * 2 ^ 53) (2 ^ 53) = (2 ^ 53 * 2 ^ 53)%Z.
Proof.
  intros Ha Hn. unfold connect, bump_connections. rewrite Ha, Hn.
  set (isAdmin := or_else _ (referer_includes referer "#admin")).
  pose proof (isAdmin_spec referer) as Hadm. fold isAdmin in Hadm.
  match goal with
  | |- context [Handled ?G _ ?L] => exists G, isAdmin, L
  end.
  split; [reflexivity|]. split; [exact Hadm|].
  unfold sessions. cbn [connectedUsers adminSockets dataStore].
  rewrite sessions_after_set. split.
  { apply sockets_add_elem. by left. }
  split.
  { intros other Hne. split.
    - rewrite sockets_add_elem. split; [by intros [?|?]|by right].
    - destruct (truthy isAdmin); [|done].
      rewrite sockets_add_elem. split; [by intros [?|?]|by right]. }
  split.
  { rewrite <- Hadm. destruct (truthy isAdmin).
    - rewrite sockets_add_elem. split; [by right|by left].
    - split; [by left|]. by intros [?|?]. }
  split.
  { intros Hfresh. rewrite <- !(length_map fst), sessions_after_set.
    unfold sockets_add.
    destruct (existsb (String.eqb socket) (List.map fst (connectedUsers g)))
      eqn:E.
    - by apply existsb_eqb_elem in E.
    - rewrite length_app. simpl. lia. }
  split; [done|].
  assert (Hcount :
    get_prop (VObj (set_field "totalConnections" (VNum (add64 n (2 ^ 53)))
                      fs)) "totalConnections"
    = Ok (VNum (add64 n (2 ^ 53)))).
  { simpl. by rewrite get_set_field_eq. }
  split; [exact Hcount|]. split; [|by vm_compute].
  intros k Hk ->. rewrite <- (add64_count k Hk). exact Hcount.
Qed.

Lemma connect_registers_session_witness :
  exists g' isAdmin logs,
    connect clock1 "C" (Some "http://localhost:3000/?admin=true") None
      (gateway_ab store_fix_sign)
    = Handled g'
        [ToSocket "C"
           (initialData (getAllData store_fix_sign) isAdmin "C");
         ToAll (userCount 3)] logs
    /\ "C" ∈ adminSockets g'.
Proof.
  destruct (connect_registers_session clock1 "C"
              (Some "http://localhost:3000/?admin=true") None
              (gateway_ab store_fix_sign)
              [("totalConnections", VNum 0);
               ("lastUpdated", VStr (now_iso env0))] 0 eq_refl eq_refl)
    as (g' & isAdmin & logs & Hc & _ & _ & _ & Hadmin & Hlen & _).
  exists g', isAdmin, logs. split.
  - rewrite Hc. rewrite Hlen; [reflexivity|].
    intros Hin. unfold sessions in Hin. simpl in Hin.
    apply elem_of_cons in Hin as [?|Hin]; [done|].
    apply list_elem_of_singleton in Hin. done.
  - apply Hadmin. right. exists "http://localhost:3000/?admin=true".
    split; [reflexivity|]. right. left. by exists 22%nat.
Defined.

Section Disconnect.

Lemma filter_absent {A} (f : A -> bool) (l : list A) :
  (forall x, x ∈ l -> f x = true) -> List.filter f l = l.
Proof.
  induction l as [|a r IH]; intros Hall; simpl; [done|].
  rewrite (Hall a) by constructor. f_equal. apply IH.
  intros x Hx. apply Hall. by constructor.
Qed.

Lemma filter_after_map_set (socket : string) (info : UserInfo)
    (m : list (string * UserInfo)) :
  socket ∉ List.map fst m ->
  List.filter (fun kv => negb (String.eqb kv.1 socket))
    (map_set socket info m) = m.
Proof.
  induction m as [|[k v] r IH]; intros Hnot; simpl.
  - by rewrite String.eqb_refl.
  - simpl in Hnot. apply not_elem_of_cons in Hnot as [Hne Hr].
    destruct (String.eqb socket k) eqn:E.
    + apply String.eqb_eq in E. done.
    + simpl. rewrite String.eqb_sym, E. simpl. by rewrite IH.
Qed.

Lemma filter_after_sockets_add (socket : string) (ids : list string) :
  socket ∉ ids ->
  List.filter (fun id => negb (String.eqb id socket)) (sockets_add socket ids)
  = ids.
Proof.
  intros Hnot. unfold sockets_add.
  assert (Hids : List.filter (fun id => negb (String.eqb id socket)) ids
                 = ids).
  { apply filter_absent. intros x Hx.
    destruct (String.eqb x socket) eqn:E; [|done].
    apply String.eqb_eq in E. by subst. }
  destruct (existsb (String.eqb socket) ids) eqn:E; [done|].
  rewrite List.filter_app, Hids. simpl.
  by rewrite String.eqb_refl, app_nil_r.
Qed.

End Disconnect.

(** X13: a disconnection removes the session from the registry and from
    the admin set, keeps all other sessions and admins, leaves the store
    untouched and broadcasts the number of sessions that remain; for a
    session that is not registered it changes nothing. *)
Theorem disconnect_removes_session (socket : string) (g : Gateway) :
  exists g',
    disconnect socket g
    = Handled g' [ToAll (userCount (length (connectedUsers g')))]
        [Info "User disconnected"]
    /\ (socket ∉ sessions g')
    /\ (socket ∉ adminSockets g')
    /\ (forall other, other <> socket ->
          (other ∈ sessions g' <-> other ∈ sessions g)
          /\ (other ∈ adminSockets g' <-> other ∈ adminSockets g))
    /\ dataStore g' = dataStore g
    /\ (socket ∉ sessions g -> socket ∉ adminSockets g -> g' = g).
Proof.
  unfold disconnect.
  match goal with
  | |- context [Handled ?G _ _] => exists G
  end.
  split; [reflexivity|].
  unfold sessions. cbn [connectedUsers adminSockets dataStore].
  rewrite sessions_after_delete.
  split; [rewrite filter_ne_elem; by intros [? _]|].
  split; [rewrite filter_ne_elem; by intros [? _]|].
  split.
  { intros other Hne. rewrite !filter_ne_elem. tauto. }
  split; [done|].
  intros Hs Ha. destruct g as [s users admins]. simpl in *. f_equal.
  - apply filter_absent. intros [k v] Hin. simpl.
    destruct (String.eqb k socket) eqn:E; [|done].
    apply String.eqb_eq in E. subst k. exfalso. apply Hs.
    apply list_elem_of_In, List.in_map_iff. exists (socket, v).
    split; [done|]. by apply list_elem_of_In.
  - apply filter_absent. intros x Hx.
    destruct (String.eqb x socket) eqn:E; [|done].
    apply String.eqb_eq in E. by subst.
Qed.

Lemma disconnect_removes_session_witness :
  exists g',
    disconnect "B" (gateway_ab store_fix_sign)
    = Handled g' [ToAll (userCount 1)] [Info "User disconnected"]
    /\ adminSockets g' = []
    /\ exists g'',
         disconnect "Z" (gateway_ab store_fix_sign)
         = Handled g'' [ToAll (userCount 2)] [Info "User disconnected"]
         /\ g'' = gateway_ab store_fix_sign.
Proof.
  destruct (disconnect_removes_session "Z" (gateway_ab store_fix_sign))
    as (g'' & Hd & _ & _ & _ & _ & Hsame).
  eexists. split; [reflexivity|]. split; [reflexivity|].
  exists g''. 
  assert (Heq : g'' = gateway_ab store_fix_sign).
  { apply Hsame.
    - unfold sessions. simpl. intros Hin.
      apply elem_of_cons in Hin as [?|Hin]; [done|].
      by apply list_elem_of_singleton in Hin.
    - simpl. by intros ?%list_elem_of_singleton. }
  split; [|exact Heq]. rewrite Hd, Heq. reflexivity.
Defined.

(** X14: connecting a session that was not registered and disconnecting
    it again restores the registry and the admin set exactly; only the
    connection counter keeps the visit: it holds the binary64 increment
    of the old count, which for a count below 2^53 is the count plus
    one. *)
Theorem connect_then_disconnect (c : Clock) (socket : string)
    (referer agent : option string) (g : Gateway) (fs : obj) (n : Z) :
  analytics (data (dataStore g)) = VObj fs ->
  get_field "totalConnections" fs = VNum n ->
  socket ∉ sessions g ->
  socket ∉ adminSockets g ->
  exists g1 out1 logs1 g2 out2 logs2,
    connect c socket referer agent g = Handled g1 out1 logs1
    /\ disconnect socket g1 = Handled g2 out2 logs2
    /\ connectedUsers g2 = connectedUsers g
    /\ adminSockets g2 = adminSockets g
    /\ getAllData (dataStore g2) = getAllData (dataStore g)
    /\ get_prop (analytics (data (dataStore g2))) "totalConnections"
       = Ok (VNum (add64 n (2 ^ 53)))
    /\ (forall k : Z,
          (0 <= k < 2 ^ 53)%Z -> n = (k * 2 ^ 53)%Z ->
          get_prop (analytics (data (dataStore g2))) "totalConnections"
          = Ok (VNum ((k + 1) * 2 ^ 53))).
Proof.
  intros Ha Hn Hs Hadm. unfold connect, bump_connections. rewrite Ha, Hn.
  eexists _, _, _, _, _, _. split; [reflexivity|].
  split; [reflexivity|]. cbn [connectedUsers adminSockets dataStore].
  split; [by apply filter_after_map_set|]. split.
  - destruct (truthy _).
    + by apply filter_after_sockets_add.
    + apply filter_absent. intros x Hx.
      destruct (String.eqb x socket) eqn:E; [|done].
      apply String.eqb_eq in E. by subst.
  - split; [done|].
    assert (Hcount :
      get_prop (VObj (set_field "totalConnections"
                        (VNum (add64 n (2 ^ 53))) fs)) "totalConnections"
      = Ok (VNum (add64 n (2 ^ 53)))).
    { simpl. by rewrite get_set_field_eq. }
    split; [exact Hcount|].
    intros k Hk ->. rewrite <- (add64_count k Hk). exact Hcount.
Qed.

Lemma connect_then_disconnect_witness :
  exists g1 out1 logs1 g2 out2 logs2,
    connect clock1 "C" (Some "http://localhost:3000/admin") None
      (gateway_ab store_fix_sign) = Handled g1 out1 logs1
    /\ disconnect "C" g1 = Handled g2 out2 logs2
    /\ connectedUsers g2 = connectedUsers (gateway_ab store_fix_sign)
    /\ adminSockets g2 = ["B"]
    /\ get_prop (analytics (data (dataStore g2))) "totalConnections"
       = Ok (VNum (1 * 2 ^ 53)).
Proof.
  destruct (connect_then_disconnect clock1 "C"
              (Some "http://localhost:3000/admin") None
              (gateway_ab store_fix_sign)
              [("totalConnections", VNum 0);
               ("lastUpdated", VStr (now_iso env0))] 0 eq_refl eq_refl)
    as (g1 & o1 & l1 & g2 & o2 & l2 & Hc & Hd & Hu & Ha & _ & _ & Hk).
  - unfold sessions. simpl. intros Hin.
    apply elem_of_cons in Hin as [?|Hin]; [done|].
    by apply list_elem_of_singleton in Hin.
  - simpl. by intros ?%list_elem_of_singleton.
  - exists g1, o1, l1, g2, o2, l2.
    split; [exact Hc|]. split; [exact Hd|]. split; [exact Hu|].
    split; [exact Ha|]. apply (Hk 0%Z); [lia|reflexivity].
Defined.

Section Reachability.

Lemma guarded_keeps_registry (g g' : Gateway)
    (r : result (value * DataStore)) (ev : event) (d f : string)
    (out : list emission) (logs : list log) :
  guarded g r ev d f = Handled g' out logs ->
  connectedUsers g' = connectedUsers g /\ adminSockets g' = adminSockets g.
Proof.
  unfold guarded. destruct r as [[v s]|x|]; [|by intros [= <- _ _]|done].
  destruct (truthy v); by intros [= <- _ _].
Qed.

(** Handling a message never touches the registry or the admin set. *)
Lemma handle_keeps_registry (c : Clock) (socket : string) (m : message)
    (g g' : Gateway) (out : list emission) (logs : list log) :
  handle c socket m g = Handled g' out logs ->
  connectedUsers g' = connectedUsers g /\ adminSockets g' = adminSockets g.
Proof.
  destruct m; simpl; try apply guarded_keeps_registry.
  - unfold on_addQuest.
    destruct (addQuest _ _ _) as [[q s]|x|]; [|by intros [= <- _ _]|done].
    destruct (notify_admins _ _ _ _ _) as [o [x|]]; by intros [= <- _ _].
  - unfold on_updateQuest.
    destruct (get_prop payload "id") as [id|x|],
      (get_prop payload "status") as [st|y|]; try done.
    destruct (updateQuest _ _ _ _) as [[q s]|x|];
      [|by intros [= <- _ _]|done].
    destruct (truthy q); by intros [= <- _ _].
  - unfold on_addMarker.
    destruct (addMarker _ _ _) as [[q s]|x|]; [|by intros [= <- _ _]|done].
    destruct (notify_admins _ _ _ _ _) as [o [x|]]; by intros [= <- _ _].
  - by intros [= <- _ _].
  - by intros [= <- _ _].
  - unfold on_getAdminStats.
    destruct (getStats _ _) as [st|x|]; [|done..]. by intros [= <- _ _].
  - by intros [= <- _ _].
Qed.

Lemma step_keeps_registry_ok (g g' : Gateway) :
  registry_ok g -> step g g' -> registry_ok g'.
Proof.
  intros (Hs & Ha & Hsub) [c socket referer agent out logs Hc
                          |socket out logs Hd
                          |c socket m out logs Hh].
  - unfold connect in Hc.
    destruct (bump_connections _) as [a|x|]; [|done..].
    injection Hc as <- _ _. unfold registry_ok, sessions.
    cbn [connectedUsers adminSockets]. rewrite sessions_after_set.
    split; [by apply sockets_add_NoDup|]. split.
    + destruct (truthy _); [by apply sockets_add_NoDup|done].
    + intros id Hid. apply sockets_add_elem.
      destruct (truthy _).
      * apply sockets_add_elem in Hid as [->|Hid]; [by left|].
        right. by apply Hsub.
      * right. by apply Hsub.
  - injection Hd as <- _ _. unfold registry_ok, sessions.
    cbn [connectedUsers adminSockets]. rewrite sessions_after_delete.
    split; [by apply filter_NoDup|]. split; [by apply filter_NoDup|].
    intros id [Hne Hid]%filter_ne_elem. apply filter_ne_elem.
    split; [done|]. by apply Hsub.
  - apply handle_keeps_registry in Hh as [Hu Hadm].
    unfold registry_ok, sessions. by rewrite Hu, Hadm.
Qed.

Lemma reachable_registry_ok (g : Gateway) : reachable g -> registry_ok g.
Proof.
  induction 1 as [s|g g' _ IH Hstep].
  - split; [constructor|]. split; [constructor|].
    by intros id ?%elem_of_nil.
  - by apply (step_keeps_registry_ok g g').
Qed.

Lemma admins_at_most_sessions (g : Gateway) :
  registry_ok g ->
  (length (adminSockets g) <= length (connectedUsers g))%nat.
Proof.
  intros (_ & Ha & Hsub).
  rewrite <- (length_map fst (connectedUsers g)).
  by apply submseteq_length, NoDup_submseteq.
Qed.

End Reachability.

(** X15: in every state the process can reach (from any store, through
    connections, disconnections and handled messages) no session is
    registered twice, no session is listed twice as admin, every admin
    session is a registered session, and so the admin count never
    exceeds the number of connected sessions. *)
Theorem registry_invariant (g : Gateway) :
  reachable g ->
  registry_ok g
  /\ (length (adminSockets g) <= length (connectedUsers g))%nat.
Proof.
  intros Hr. pose proof (reachable_registry_ok g Hr) as Hok.
  split; [exact Hok|]. by apply admins_at_most_sessions.
Qed.

Lemma registry_invariant_witness :
  registry_ok (gateway_ab store_two_connections)
  /\ (length (adminSockets (gateway_ab store_two_connections))
      <= length (connectedUsers (gateway_ab store_two_connections)))%nat.
Proof.
  apply registry_invariant.
  eapply reachable_step.
  - eapply reachable_step.
    + apply (reachable_start (empty_store env0)).
    + eapply (step_connect _ _ clock0 "A" (Some "http://localhost:3000/")
                (Some "Mozilla/5.0")).
      vm_compute. reflexivity.
  - eapply (step_connect _ _ clock0 "B" (Some "http://localhost:3000/admin")
              (Some "Mozilla/5.0")).
    vm_compute. reflexivity.
Defined.

(** X16: [getAdminStats] and [ping] answer the sender alone and change
    nothing: when [getStats()] returns, the reply carries its result with
    the live numbers of sessions and admins (the latter never the larger
    in a reachable state) and no other client receives anything; when
    [getStats()] throws, the exception leaves the handler. *)
Theorem getAdminStats_replies_to_sender (c : Clock) (sender : string)
    (g : Gateway) :
  (forall st,
      getStats (env c) (dataStore g) = Ok st ->
      exists out,
        handle c sender getAdminStatsMsg g = Handled g out []
        /\ delivered sender out
           = [adminStats st (length (connectedUsers g))
                (length (adminSockets g))]
        /\ (forall client, client <> sender -> delivered client out = [])
        /\ (reachable g ->
            (length (adminSockets g) <= length (connectedUsers g))%nat))
  /\ (forall x,
        getStats (env c) (dataStore g) = Throw x ->
        handle c sender getAdminStatsMsg g = Escaped x g [] [])
  /\ (exists out,
        handle c sender pingMsg g = Handled g out []
        /\ delivered sender out = [pong (now_iso (env c))]
        /\ forall client, client <> sender -> delivered client out = []).
Proof.
  assert (Hother : forall client ev,
            client <> sender -> delivered client [ToSocket sender ev] = []).
  { intros client ev Hne. rewrite delivered_single.
    destruct (String.eqb sender client) eqn:E; [|done].
    apply String.eqb_eq in E. congruence. }
  assert (Hself : forall ev, delivered sender [ToSocket sender ev] = [ev]).
  { intros ev. by rewrite delivered_single, String.eqb_refl. }
  split; [|split].
  - intros st Hst. simpl. unfold on_getAdminStats. rewrite Hst.
    eexists. split; [reflexivity|]. split; [apply Hself|].
    split; [intros client; apply Hother|].
    intros Hr. by apply admins_at_most_sessions, reachable_registry_ok.
  - intros x Hx. simpl. unfold on_getAdminStats. by rewrite Hx.
  - eexists. split; [reflexivity|]. split; [apply Hself|].
    intros client. apply Hother.
Qed.

Lemma getAdminStats_replies_to_sender_witness :
  exists st out,
    getStats env1 store_fix_sign = Ok st
    /\ handle clock1 "B" getAdminStatsMsg (gateway_ab store_fix_sign)
       = Handled (gateway_ab store_fix_sign) out []
    /\ delivered "B" out = [adminStats st 2 1]
    /\ delivered "A" out = [].
Proof.
  eexists _. 
  destruct (proj1 (getAdminStats_replies_to_sender clock1 "B"
                     (gateway_ab store_fix_sign)) _ eq_refl)
    as (out & Hh & Hself & Hothers & _).
  exists out. split; [reflexivity|]. split; [exact Hh|].
  split; [exact Hself|]. apply Hothers. discriminate.
Defined.

Section StatsBounds.

Lemma count_where_le (p : value -> result bool) (xs : list value) (n : nat) :
  count_where p xs = Ok n -> (n <= length xs)%nat.
Proof.
  revert n. induction xs as [|x r IH]; intros n; simpl.
  - intros [= <-]. lia.
  - destruct (p x) as [b|e|]; [|done..]. simpl.
    destruct (count_where p r) as [k|e|]; [|done..]. simpl.
    intros [= <-]. specialize (IH k eq_refl). destruct b; lia.
Qed.

Lemma count_where_disjoint (p q : value -> result bool) (xs : list value)
    (a b : nat) :
  (forall x bp bq, p x = Ok bp -> q x = Ok bq -> bp && bq = false) ->
  count_where p xs = Ok a ->
  count_where q xs = Ok b ->
  (a + b <= length xs)%nat.
Proof.
  intros Hdis. revert a b. induction xs as [|x r IH]; intros a b; simpl.
  - intros [= <-] [= <-]. lia.
  - destruct (p x) as [bp|e|] eqn:Ep; [|done..]. simpl.
    destruct (count_where p r) as [ka|e|]; [|done..]. simpl.
    destruct (q x) as [bq|e|] eqn:Eq; [|done..]. simpl.
    destruct (count_where q r) as [kb|e|]; [|done..]. simpl.
    intros [= <-] [= <-]. specialize (IH ka kb eq_refl eq_refl).
    specialize (Hdis x bp bq Ep Eq). destruct bp, bq; try done; lia.
Qed.

Lemma status_open_taken_disjoint (x : value) (bo bt : bool) :
  status_is "open" x = Ok bo -> status_is "taken" x = Ok bt ->
  bo && bt = false.
Proof.
  unfold status_is. destruct (get_prop x "status") as [s|e|]; [|done..].
  simpl. intros [= <-] [= <-].
  destruct s as [[| | | |st]| |]; try done. simpl.
  destruct (String.eqb st "open") eqn:E; [|done].
  apply String.eqb_eq in E. by subst.
Qed.

Lemma pluck_length (k : string) (xs vs : list value) :
  pluck k xs = Ok vs -> length vs = length xs.
Proof.
  revert vs. induction xs as [|x r IH]; intros vs; simpl.
  - by intros [= <-].
  - destruct (get_prop x k) as [v|e|]; [|done..]. simpl.
    destruct (pluck k r) as [ws|e|]; [|done..]. simpl.
    intros [= <-]. simpl. by rewrite (IH ws).
Qed.

Lemma new_Set_length_le (xs : list value) :
  (length (new_Set xs) <= length xs)%nat.
Proof.
  unfold new_Set.
  assert (H : forall seen,
            (length (fold_left set_add xs seen)
             <= length seen + length xs)%nat).
  { induction xs as [|x r IH]; intros seen; simpl; [lia|].
    specialize (IH (set_add seen x)). unfold set_add in *.
    destruct (existsb (strict_eq x) seen).
    - lia.
    - rewrite length_app in IH. simpl in IH. lia. }
  apply (H []).
Qed.

End StatsBounds.

(** X17: whenever [getStats()] returns, on any store, its counts are
    consistent: open and taken quests are disjoint, so together they do
    not exceed [totalQuests]; [activeUsers] does not exceed
    [totalQuests]; [markersToday] does not exceed [totalMarkers]. *)
Theorem getStats_bounds (e : Env) (s : DataStore) (st : Stats) :
  getStats e s = Ok st ->
  (questsOpen st + questsTaken st <= totalQuests st)%nat
  /\ (activeUsers st <= totalQuests st)%nat
  /\ (markersToday st <= totalMarkers st)%nat.
Proof.
  unfold getStats.
  destruct (markers (data s)) as [|?|ms mps]; try done.
  destruct (quests (data s)) as [|?|qs qps]; try done.
  destruct (count_where (created_today e) ms) as [today|x|] eqn:Et;
    [|done..]. simpl.
  destruct (count_where (status_is "open") qs) as [open|x|] eqn:Eo;
    [|done..]. simpl.
  destruct (count_where (status_is "taken") qs) as [taken|x|] eqn:Ek;
    [|done..]. simpl.
  destruct (pluck "user" qs) as [users|x|] eqn:Eu; [|done..]. simpl.
  destruct (length_of _) as [cats|x|]; [|done..]. simpl.
  destruct (get_prop _ _) as [upd|x|]; [|done..]. simpl.
  intros [= <-]. simpl. split; [|split].
  - apply (count_where_disjoint (status_is "open") (status_is "taken") qs);
      [apply status_open_taken_disjoint|done..].
  - rewrite <- (pluck_length "user" qs users Eu). apply new_Set_length_le.
  - by apply (count_where_le (created_today e)).
Qed.

Lemma getStats_bounds_witness :
  exists st,
    getStats env1 store_fix_sign = Ok st
    /\ (questsOpen st + questsTaken st <= totalQuests st)%nat
    /\ (activeUsers st <= totalQuests st)%nat.
Proof.
  eexists. split; [reflexivity|].
  destruct (getStats_bounds env1 store_fix_sign _ eq_refl) as (H1 & H2 & _).
  split; [exact H1|exact H2].
Defined.

(* ===================================================================== *)
(** ** Further properties of persistence *)
(* ===================================================================== *)

Section Save.

Lemma saveData_ref (e : Env) (d : Data) (f : file) :
  is_ref (analytics d) = true ->
  exists a,
    get_prop a "lastUpdated" = Ok (VStr (now_iso e))
    /\ is_ref a = true
    /\ saveData e d f
       = (set_analytics d a,
          if write_ok e then Json (json_of (data_value (set_analytics d a)))
          else after_failed_write (write_failure e)
                 (json_of (data_value (set_analytics d a))) f,
          if write_ok e then [Info "Data saved to file"]
          else [Error "Error saving data"]).
Proof.
  intros Ha. unfold saveData.
  destruct (analytics d) as [p|fs|xs ps]; [done| |]; unfold set_prop.
  - exists (VObj (set_field "lastUpdated" (VStr (now_iso e)) fs)).
    split; [simpl; by rewrite get_set_field_eq|]. split; [done|].
    by destruct (write_ok e).
  - exists (VArr xs (set_field "lastUpdated" (VStr (now_iso e)) ps)).
    split; [simpl; by rewrite get_set_field_eq|]. split; [done|].
    by destruct (write_ok e).
Qed.

Lemma saveData_prim (e : Env) (d : Data) (f : file) :
  is_ref (analytics d) = false ->
  saveData e d f = (d, f, [Error "Error saving data"]).
Proof.
  intros Ha. unfold saveData. by destruct (analytics d).
Qed.


End Save.



(** X19: a durability file whose [analytics] is a truthy primitive (a
    number, a string, [true]) is adopted as it is by [loadData], and from
    then on every [saveData] fails inside its [try]: the data and the
    file stay as they were and only the failure is logged. *)
Theorem primitive_analytics_blocks_saving (e0 e : Env) (fs : obj)
    (p : prim) (f : file) :
  get_field "analytics" fs = VPrim p ->
  truthy (VPrim p) = true ->
  let s := (constructor e0 (Json (VObj fs))).1 in
  analytics (data s) = VPrim p
  /\ saveData e (data s) f = (data s, f, [Error "Error saving data"]).
Proof.
  intros Ha Ht s.
  assert (Hs : analytics (data s) = VPrim p).
  { subst s. unfold constructor. rewrite loadData_object. simpl.
    unfold or_else. by rewrite Ha, Ht. }
  split; [exact Hs|]. apply saveData_prim. by rewrite Hs.
Qed.

Lemma primitive_analytics_blocks_saving_witness :
  let s := (constructor env0 (Json (VObj [("analytics", VStr "none")]))).1 in
  saveData env1 (data s) Missing
  = (data s, Missing, [Error "Error saving data"]).
Proof.
  intros s.
  apply (primitive_analytics_blocks_saving env0 env1
           [("analytics", VStr "none")] (PStr "none") Missing);
    reflexivity.
Defined.

(** X20: [loadData] takes a key that is present but falsy ([null],
    [false], [0], the empty string) like an absent one: the default stays.
    A document that is not an object has none of the keys: a primitive
    other than [null] loads the defaults without complaint, while [null]
    makes the first read throw, which is caught and logged; an unreadable
    file is logged the same way and a missing one is silent. *)
Theorem loadData_fallbacks (e : Env) :
  (forall fs : obj,
      let d := data (constructor e (Json (VObj fs))).1 in
      (truthy (get_field "quests" fs) = false ->
       quests d = quests (defaults e))
      /\ (truthy (get_field "markers" fs) = false ->
          markers d = markers (defaults e))
      /\ (truthy (get_field "customCategories" fs) = false ->
          customCategories d = customCategories (defaults e))
      /\ (truthy (get_field "analytics" fs) = false ->
          analytics d = analytics (defaults e)))
  /\ (forall p : prim,
        p <> PUndef -> p <> PNull ->
        constructor e (Json (VPrim p))
        = ({| data := defaults e; autoSaveTimeout := false |},
           [Info "Data loaded"]))
  /\ constructor e (Json VNull)
     = ({| data := defaults e; autoSaveTimeout := false |},
        [Error "Error loading data"])
  /\ constructor e Unreadable
     = ({| data := defaults e; autoSaveTimeout := false |},
        [Error "Error loading data"])
  /\ constructor e Missing
     = ({| data := defaults e; autoSaveTimeout := false |}, []).
Proof.
  split; [|split; [|by repeat split]].
  - intros fs d. subst d. unfold constructor.
    rewrite loadData_object. unfold or_else. simpl.
    repeat split; by intros ->.
  - intros p Hu Hn. by destruct p.
Qed.

Lemma loadData_fallbacks_witness :
  let fs := [("quests", VNull); ("customCategories", VStr "");
             ("markers", arr [])] in
  let d := data (constructor env0 (Json (VObj fs))).1 in
  quests d = arr []
  /\ customCategories d = arr default_categories
  /\ constructor env0 (Json (VNum 5))
     = ({| data := defaults env0; autoSaveTimeout := false |},
        [Info "Data loaded"]).
Proof.
  intros fs d.
  destruct (loadData_fallbacks env0) as (Hfalsy & Hprim & _).
  destruct (Hfalsy fs) as (Hq & _ & Hc & _).
  split; [exact (Hq eq_refl)|]. split; [exact (Hc eq_refl)|].
  apply Hprim; discriminate.
Defined.

Section Stability.

Lemma json_clean_obj (fs : obj) :
  json_clean (VObj fs)
  = forallb (fun kv : string * value => json_clean kv.2) fs.
Proof.
  induction fs as [|[k x] r IH]; [done|].
  change (json_clean (VObj ((k, x) :: r)))
    with (json_clean x && json_clean (VObj r)).
  by rewrite IH.
Qed.

Lemma json_clean_arr_cons (x : value) (r : list value) (ps : obj) :
  json_clean (VArr (x :: r) ps) = json_clean x && json_clean (VArr r ps).
Proof. simpl. symmetry. apply andb_assoc. Qed.

Lemma json_clean_arr (xs : list value) :
  json_clean (VArr xs []) = forallb json_clean xs.
Proof.
  induction xs as [|x r IH]; [done|].
  rewrite json_clean_arr_cons, IH. done.
Qed.

Lemma json_of_is_clean : forall v, json_clean (json_of v) = true.
Proof.
  apply (value_nested_ind (fun v => json_clean (json_of v) = true)).
  - by intros [].
  - intros fs Hfs. rewrite json_of_obj, json_clean_obj.
    induction Hfs as [|[k x] r Hx Hr IH]; [done|].
    assert (Hundef : json_fields ((k, VUndef) :: r) = json_fields r)
      by reflexivity.
    change (json_clean (json_of x) = true) in Hx.
    destruct x as [[]| |]; rewrite ?Hundef, ?json_fields_cons by done;
      try exact IH; cbn [forallb snd]; by rewrite Hx, IH.
  - intros xs ps Hxs _.
    change (json_of (VArr xs ps)) with (VArr (List.map json_of xs) []).
    rewrite json_clean_arr.
    induction Hxs as [|x r Hx Hr IH]; [done|].
    simpl. by rewrite Hx, IH.
Qed.

Lemma json_of_idempotent (v : value) : json_of (json_of v) = json_of v.
Proof. apply json_of_clean, json_of_is_clean. Qed.

Lemma is_ref_json_of (v : value) : is_ref (json_of v) = is_ref v.
Proof. by destruct v as [[]| |]. Qed.

(** The data of a store built from the file that a successful save of
    [d] leaves. *)
Lemma reload_data (e' : Env) (d : Data) :
  truthy (quests d) = true ->
  truthy (markers d) = true ->
  truthy (customCategories d) = true ->
  is_ref (analytics d) = true ->
  data (constructor e' (Json (json_of (data_value d)))).1
  = {| quests := json_of (quests d);
       markers := json_of (markers d);
       customCategories := json_of (customCategories d);
       analytics := json_of (analytics d) |}.
Proof.
  intros Hq Hm Hc Ha. unfold data_value.
  rewrite json_of_obj.
  rewrite !json_fields_cons;
    [|by destruct (analytics d)|by apply truthy_defined..].
  unfold constructor. rewrite loadData_object.
  unfold or_else. simpl.
  rewrite !truthy_json_of by done.
  assert (truthy (json_of (analytics d)) = true) as ->; [|done].
  by destruct (analytics d) as [[]| |].
Qed.

End Stability.

Section Restart.

Lemma save_and_reload_data (e e' : Env) (s : DataStore) (f : file) :
  write_ok e = true ->
  is_ref (analytics (data s)) = true ->
  truthy (quests (data s)) = true ->
  truthy (markers (data s)) = true ->
  truthy (customCategories (data s)) = true ->
  exists a,
    is_ref a = true
    /\ data (save_and_reload e e' s f)
       = {| quests := json_of (quests (data s));
            markers := json_of (markers (data s));
            customCategories := json_of (customCategories (data s));
            analytics := json_of a |}.
Proof.
  intros Hw Ha Hq Hm Hc. unfold save_and_reload.
  destruct (saveData_ref e (data s) f Ha) as (a & _ & Href & ->).
  rewrite Hw. cbn [fst snd]. exists a. split; [done|].
  by rewrite reload_data.
Qed.

Lemma api_data_fields (s : DataStore) :
  truthy (quests (data s)) = true ->
  truthy (markers (data s)) = true ->
  truthy (customCategories (data s)) = true ->
  api_data s
  = VObj [("quests", json_of (quests (data s)));
          ("markers", json_of (markers (data s)));
          ("customCategories", json_of (customCategories (data s)))].
Proof.
  intros Hq Hm Hc. unfold api_data, snapshot_value, getAllData.
  rewrite json_of_obj. cbn [snap_quests snap_markers snap_customCategories].
  by rewrite !json_fields_cons by (by apply truthy_defined).
Qed.

End Restart.

(** X21: restarts are stable after the first one. Once a store has been
    saved and reloaded, saving and reloading it again gives exactly the
    same snapshot: whatever JSON could not keep is lost at the first
    restart only. *)
Theorem second_reload_is_identity (e1 e1' e2 e2' : Env) (s : DataStore)
    (f f' : file) :
  write_ok e1 = true ->
  write_ok e2 = true ->
  is_ref (analytics (data s)) = true ->
  truthy (quests (data s)) = true ->
  truthy (markers (data s)) = true ->
  truthy (customCategories (data s)) = true ->
  let s1 := save_and_reload e1 e1' s f in
  getAllData (save_and_reload e2 e2' s1 f') = getAllData s1.
Proof.
  intros Hw1 Hw2 Ha Hq Hm Hc s1.
  destruct (save_and_reload_data e1 e1' s f Hw1 Ha Hq Hm Hc)
    as (a & Href & Hd1).
  fold s1 in Hd1.
  destruct (save_and_reload_data e2 e2' s1 f' Hw2) as (a2 & _ & Hd2).
  - by rewrite Hd1; cbn [analytics]; rewrite is_ref_json_of.
  - by rewrite Hd1; cbn [quests]; apply truthy_json_of.
  - by rewrite Hd1; cbn [markers]; apply truthy_json_of.
  - by rewrite Hd1; cbn [customCategories]; apply truthy_json_of.
  - unfold getAllData. rewrite Hd2, Hd1.
    cbn [quests markers customCategories].
    by rewrite !json_of_idempotent.
Qed.

Lemma second_reload_is_identity_witness :
  exists v s,
    addCategory VUndef (empty_store env0) = Ok (v, s)
    /\ getAllData (save_and_reload env1 env2 s Missing) <> getAllData s
    /\ getAllData
         (save_and_reload env1 env2
            (save_and_reload env1 env2 s Missing) Missing)
       = getAllData (save_and_reload env1 env2 s Missing).
Proof.
  eexists _, _. split; [reflexivity|]. split.
  - vm_compute. discriminate.
  - apply (second_reload_is_identity env1 env2 env1 env2); reflexivity.
Defined.

(** X22: what [GET /api/data] answers is not changed by a restart: after
    a successful save and a reload, the response body denotes the same
    document as before, even when the in-memory snapshot differs. *)
Theorem api_data_survives_restart (e e' : Env) (s : DataStore) (f : file) :
  write_ok e = true ->
  is_ref (analytics (data s)) = true ->
  truthy (quests (data s)) = true ->
  truthy (markers (data s)) = true ->
  truthy (customCategories (data s)) = true ->
  api_data (save_and_reload e e' s f) = api_data s.
Proof.
  intros Hw Ha Hq Hm Hc.
  destruct (save_and_reload_data e e' s f Hw Ha Hq Hm Hc)
    as (a & Href & Hd).
  rewrite (api_data_fields s) by done.
  rewrite api_data_fields; rewrite Hd;
    cbn [quests markers customCategories];
    rewrite ?json_of_idempotent; try done; by apply truthy_json_of.
Qed.

Lemma api_data_survives_restart_witness :
  exists v s,
    addCategory VUndef (empty_store env0) = Ok (v, s)
    /\ getAllData (save_and_reload env1 env2 s Missing) <> getAllData s
    /\ api_data (save_and_reload env1 env2 s Missing) = api_data s.
Proof.
  eexists _, _. split; [reflexivity|]. split.
  - vm_compute. discriminate.
  - apply (api_data_survives_restart env1 env2); reflexivity.
Defined.

Section UpdateHandler.

Lemma id_of_updated (status now : value) (q : obj) :
  id_of (VObj (set_field "updatedAt" now (set_field "status" status q)))
  = id_of (VObj q).
Proof.
  unfold id_of. simpl. by rewrite !get_set_field_ne.
Qed.

Lemma ids_after_update (qs : list obj) (i : nat) (q q' : obj) :
  qs !! i = Some q ->
  id_of (VObj q') = id_of (VObj q) ->
  List.map id_of (List.map VObj (<[i := q']> qs))
  = List.map id_of (List.map VObj qs).
Proof.
  intros Hi Hid. rewrite !List.map_map.
  change (List.map (fun x => id_of (VObj x)) (<[i := q']> qs))
    with ((fun x => id_of (VObj x)) <$> <[i := q']> qs).
  rewrite list_fmap_insert, Hid. apply list_insert_id.
  rewrite list_lookup_fmap.
  exact (f_equal (fmap (fun x => id_of (VObj x))) Hi).
Qed.

Lemma has_key_set_field_eq (k : string) (x : value) (fs : obj) :
  has_key k (set_field k x fs) = true.
Proof.
  induction fs as [|[k' v] r IH]; simpl.
  - by rewrite String.eqb_refl.
  - destruct (String.eqb k k') eqn:E; simpl; rewrite E; [done|exact IH].
Qed.

End UpdateHandler.

(** X23: the [updateQuest] handler, given an object payload on an array of
    quest objects, always returns and never changes which ids are stored,
    their order or their number, nor the markers and categories. When a
    quest carries the payload's [id], the first such quest is broadcast in
    [questUpdated] with its [status] set to the payload's [status]; a
    payload without [status] therefore sets the status to [undefined]. *)
Theorem updateQuest_handler_keeps_ids (c : Clock) (sender : string)
    (payload : obj) (g : Gateway) (qs : list obj) (ps : obj) :
  quests (data (dataStore g)) = VArr (List.map VObj qs) ps ->
  exists g' out logs,
    handle c sender (updateQuestMsg (VObj payload)) g = Handled g' out logs
    /\ stored_ids (dataStore g') = stored_ids (dataStore g)
    /\ markers (data (dataStore g')) = markers (data (dataStore g))
    /\ customCategories (data (dataStore g'))
       = customCategories (data (dataStore g))
    /\ (forall (i : nat) (q : obj),
          first_match (get_field "id" payload) qs i q ->
          exists q',
            out = [ToAll (questUpdated (VObj q'))]
            /\ get_field "status" q' = get_field "status" payload
            /\ has_key "status" q' = true
            /\ get_field "updatedAt" q' = VStr (now_iso (env c))
            /\ quests (data (dataStore g'))
               = VArr (List.map VObj (<[i := q']> qs)) ps).
Proof.
  intros Hq. simpl. unfold on_updateQuest. simpl.
  destruct (find_id_objects (get_field "id" payload) qs)
    as [(i & q & Hm & _)|[Hnone _]].
  - rewrite (updateQuest_found (env c) _ (get_field "status" payload)
               (dataStore g) qs ps i q Hq Hm). simpl.
    eexists _, _, _. split; [reflexivity|]. split.
    { unfold stored_ids. simpl. rewrite Hq. simpl.
      destruct Hm as (Hi & _).
      apply (ids_after_update qs i q _ Hi), id_of_updated. }
    split; [done|]. split; [done|].
    intros j q2 Hm2.
    destruct (first_match_unique _ qs i j q q2 Hm Hm2) as [<- <-].
    eexists. split; [reflexivity|].
    split; [rewrite get_set_field_ne by discriminate;
            apply get_set_field_eq|].
    split.
    { rewrite has_key_set_field_ne by discriminate.
      apply has_key_set_field_eq. }
    split; [apply get_set_field_eq|done].
  - rewrite (updateQuest_not_found (env c) _ _ (dataStore g) qs ps Hq
               Hnone). simpl.
    rewrite set_store_same. eexists _, _, _. split; [reflexivity|].
    repeat (split; [done|]).
    intros i q (Hi & Hid & _).
    apply list_elem_of_lookup_2 in Hi. specialize (Hnone q Hi). congruence.
Qed.

Lemma updateQuest_handler_keeps_ids_witness :
  exists g' q' logs,
    handle clock1 "A" (updateQuestMsg (VObj [("id", gen_id env0)]))
      (gateway_ab store_fix_sign)
    = Handled g' [ToAll (questUpdated (VObj q'))] logs
    /\ get_field "status" q' = VUndef
    /\ stored_ids (dataStore g') = [gen_id env0].
Proof.
  destruct (updateQuest_handler_keeps_ids clock1 "A" [("id", gen_id env0)]
              (gateway_ab store_fix_sign) [fix_sign_stored] [] eq_refl)
    as (g' & out & logs & Hh & Hids & _ & _ & Hfound).
  destruct (Hfound 0%nat fix_sign_stored) as (q' & -> & Hst & _).
  { split; [reflexivity|]. split; [reflexivity|]. intros j q Hj. lia. }
  exists g', q', logs. split; [exact Hh|]. split; [exact Hst|].
  rewrite Hids. reflexivity.
Defined.

(* ===================================================================== *)
(** ** The debounce of [scheduleSave] *)
(* ===================================================================== *)

Section Debouncing.

Lemma clearTimeout_self (h : nat) : Timers.clearTimeout h [h] = [].
Proof. unfold Timers.clearTimeout. simpl. by rewrite Nat.eqb_refl. Qed.

Lemma scheduleSave_one_pending (t : Timers.Debounce) :
  Timers.one_pending t ->
  Timers.armed (Timers.scheduleSave t) = [Timers.fresh t]
  /\ Timers.autoSaveHandle (Timers.scheduleSave t) = Some (Timers.fresh t)
  /\ Timers.saves (Timers.scheduleSave t) = Timers.saves t.
Proof.
  intros [Hnone|(h & Hh & Harm)]; unfold Timers.scheduleSave; simpl.
  - rewrite Hnone. by destruct (Timers.autoSaveHandle t).
  - by rewrite Hh, Harm, clearTimeout_self.
Qed.

Lemma expire_one_pending (h : nat) (t t' : Timers.Debounce) :
  Timers.one_pending t ->
  Timers.expire h t = Some t' ->
  Timers.armed t = [h]
  /\ Timers.armed t' = []
  /\ Timers.saves t' = S (Timers.saves t).
Proof.
  intros Hone. unfold Timers.expire.
  destruct Hone as [Hnone|(h0 & Hh & Harm)].
  - by rewrite Hnone.
  - rewrite Harm. simpl. rewrite orb_false_r.
    destruct (Nat.eqb h h0) eqn:E; [|done].
    apply Nat.eqb_eq in E. subst h0. intros [= <-]. simpl.
    by rewrite Nat.eqb_refl.
Qed.

Lemma run_invariant (ts : list Timers.tick) :
  forall t t' : Timers.Debounce,
    Timers.one_pending t ->
    Timers.run ts t = Some t' ->
    Timers.one_pending t'
    /\ (Timers.saves t' + length (Timers.armed t')
        <= Timers.saves t + length (Timers.armed t) + Timers.mutations ts)%nat.
Proof.
  induction ts as [|[|h] r IH]; intros t t' Hone; simpl.
  - intros [= <-]. split; [done|]. unfold Timers.mutations. simpl. lia.
  - intros Hrun.
    destruct (scheduleSave_one_pending t Hone) as (Harm & Hh & Hs).
    destruct (IH (Timers.scheduleSave t) t') as [Hone' Hle]; [|done|].
    + right. by exists (Timers.fresh t).
    + split; [done|]. rewrite Harm, Hs in Hle.
      unfold Timers.mutations in *. simpl in *. lia.
  - destruct (Timers.expire h t) as [t1|] eqn:E; [|done]. intros Hrun.
    destruct (expire_one_pending h t t1 Hone E) as (Harm & Harm1 & Hs1).
    destruct (IH t1 t') as [Hone' Hle]; [by left|done|].
    split; [done|]. rewrite Harm1, Hs1 in Hle. rewrite Harm.
    unfold Timers.mutations in *. simpl in *. lia.
Qed.

Lemma burst_one_pending (n : nat) (t : Timers.Debounce) :
  Timers.one_pending t ->
  exists h,
    Timers.armed (Nat.iter (S n) Timers.scheduleSave t) = [h]
    /\ Timers.autoSaveHandle (Nat.iter (S n) Timers.scheduleSave t) = Some h
    /\ Timers.saves (Nat.iter (S n) Timers.scheduleSave t) = Timers.saves t.
Proof.
  intros Hone. induction n as [|n (h & Harm & Hh & Hs)].
  - exists (Timers.fresh t). by apply scheduleSave_one_pending.
  - set (t1 := Nat.iter (S n) Timers.scheduleSave t) in *.
    change (Nat.iter (S (S n)) Timers.scheduleSave t)
      with (Timers.scheduleSave t1).
    destruct (scheduleSave_one_pending t1) as (Harm' & Hh' & Hs').
    { right. by exists h. }
    exists (Timers.fresh t1). by rewrite Hs'.
Qed.

End Debouncing.

(** X24: [scheduleSave] debounces. Through any sequence of mutations and
    timer expiries at most one timeout is armed, and it is the one held
    in [autoSaveTimeout]; the saves made by timeouts, plus the one still
    to come, never exceed the number of mutations. A burst of mutations
    with no expiry in between leaves exactly one timeout armed, whose
    expiry makes exactly one [saveData()] call and leaves nothing that
    could fire again. *)
Theorem scheduleSave_debounces (ts : list Timers.tick)
    (t : Timers.Debounce) :
  Timers.run ts Timers.start = Some t ->
  Timers.one_pending t
  /\ (length (Timers.armed t) <= 1)%nat
  /\ (Timers.saves t + length (Timers.armed t) <= Timers.mutations ts)%nat
  /\ forall n : nat,
       let t2 := Nat.iter (S n) Timers.scheduleSave t in
       exists h t3,
         Timers.armed t2 = [h]
         /\ Timers.saves t2 = Timers.saves t
         /\ Timers.expire h t2 = Some t3
         /\ Timers.saves t3 = S (Timers.saves t)
         /\ Timers.armed t3 = []
         /\ forall h', Timers.expire h' t3 = None.
Proof.
  intros Hrun.
  destruct (run_invariant ts Timers.start t (or_introl eq_refl) Hrun)
    as [Hone Hle].
  split; [exact Hone|]. split.
  { destruct Hone as [->|(h & _ & ->)]; simpl; lia. }
  split; [simpl in Hle; lia|].
  intros n t2. destruct (burst_one_pending n t Hone) as (h & Harm & Hh & Hs).
  fold t2 in Harm, Hh, Hs.
  assert (Hex : exists t3, Timers.expire h t2 = Some t3).
  { unfold Timers.expire. rewrite Harm. simpl. rewrite Nat.eqb_refl.
    simpl. by eexists. }
  destruct Hex as [t3 Hex].
  destruct (expire_one_pending h t2 t3) as (_ & Harm3 & Hs3);
    [right; by exists h|done|].
  exists h, t3. split; [done|]. split; [done|]. split; [done|].
  split; [by rewrite Hs3, Hs|]. split; [done|].
  intros h'. unfold Timers.expire. by rewrite Harm3.
Qed.

Lemma scheduleSave_debounces_witness :
  exists t,
    Timers.run [Timers.Mutation; Timers.Mutation; Timers.Expiry 1;
                Timers.Mutation] Timers.start = Some t
    /\ Timers.saves t = 1%nat
    /\ exists h t3,
         Timers.armed (Nat.iter 10 Timers.scheduleSave t) = [h]
         /\ Timers.expire h (Nat.iter 10 Timers.scheduleSave t) = Some t3
         /\ Timers.saves t3 = 2%nat.
Proof.
  eexists. split; [reflexivity|]. split; [reflexivity|].
  destruct (scheduleSave_debounces
              [Timers.Mutation; Timers.Mutation; Timers.Expiry 1;
               Timers.Mutation] _ eq_refl) as (_ & _ & _ & Hburst).
  destruct (Hburst 9%nat) as (h & t3 & Harm & _ & Hex & Hs & _).
  exists h, t3. split; [exact Harm|]. split; [exact Hex|exact Hs].
Defined.

(* ===================================================================== *)
(** ** What the handlers never do *)
(* ===================================================================== *)

Section Never.

Lemma no_error_elem (out : list emission) (em : emission) :
  forallb (fun em => negb (is_error em)) out = true ->
  em ∈ out -> is_error em = false.
Proof.
  intros Hall Hin. apply list_elem_of_In in Hin.
  rewrite forallb_forall in Hall. specialize (Hall em Hin).
  by destruct (is_error em).
Qed.

Lemma get_prop_throws (v : value) (k : string) (x : exn) :
  get_prop v k = Throw x -> v = VUndef \/ v = VNull.
Proof. destruct v as [[]| |]; simpl; intros; try done; auto. Qed.

Lemma get_prop_modelled (v : value) (k : string) :
  get_prop v k <> Unmodelled.
Proof. by destruct v as [[]| |]. Qed.

End Never.

(** X25: an exception leaves a handler in two cases only: an
    [updateQuest] message whose payload is [null] or [undefined], and a
    [getAdminStats] message when [getStats()] throws; in both nothing has
    been changed or emitted. And an [error] event is only ever emitted by
    the [addQuest] handler, to the sender, with the text
    [Failed to add quest]. *)
Theorem escapes_and_errors (c : Clock) (sender : string) (m : message)
    (g : Gateway) :
  (forall x g' out logs,
      handle c sender m g = Escaped x g' out logs ->
      g' = g /\ out = [] /\ logs = []
      /\ ((exists payload,
             m = updateQuestMsg payload
             /\ (payload = VUndef \/ payload = VNull))
          \/ (m = getAdminStatsMsg
              /\ getStats (env c) (dataStore g) = Throw x)))
  /\ (forall g' out logs em,
        handle c sender m g = Handled g' out logs ->
        em ∈ out ->
        is_error em = true ->
        (exists questData, m = addQuestMsg questData)
        /\ em = ToSocket sender (error "Failed to add quest")).
Proof.
  split.
  - intros x g' out logs Hesc.
    destruct (guarded_message m) eqn:Hg.
    { pose proof (guarded_handlers_catch c sender m g Hg) as H.
      by rewrite Hesc in H. }
    destruct m; try discriminate Hg; simpl in Hesc.
    + unfold on_updateQuest in Hesc.
      destruct (get_prop payload "id") as [id|y|] eqn:Eid.
      * destruct (get_prop payload "status") as [st|y|] eqn:Est.
        -- destruct (updateQuest _ _ _ _) as [[q s]|y|]; try done.
           by destruct (truthy q).
        -- apply get_prop_throws in Est. injection Hesc as <- <- <- <-.
           repeat (split; [done|]). left. by exists payload.
        -- by apply get_prop_modelled in Est.
      * apply get_prop_throws in Eid.
        assert (Hesc' : Escaped y g [] [] = Escaped x g' out logs)
          by (by destruct (get_prop payload "status")).
        injection Hesc' as <- <- <- <-.
        repeat (split; [done|]). left. by exists payload.
      * by apply get_prop_modelled in Eid.
    + unfold on_getAdminStats in Hesc.
      destruct (getStats (env c) (dataStore g)) as [st|y|] eqn:Est;
        try done.
      injection Hesc as <- <- <- <-. repeat (split; [done|]). by right.
    + done.
  - intros g' out logs em Hh Hin Herr.
    destruct (guarded_message m) eqn:Hg.
    + pose proof (guarded_handlers_catch c sender m g Hg) as H.
      rewrite Hh in H. destruct H as [[questData ->]|Hnone].
      * split; [by eexists|]. simpl in Hh. unfold on_addQuest in Hh.
        destruct (addQuest _ _ _) as [[q s]|y|]; [| |done].
        -- pose proof (notify_admins_no_error c "quest_added" (title_of q)
                         q (adminSockets (set_store g s))) as Hn.
           destruct (notify_admins _ _ _ _ _) as [o [y|]];
             injection Hh as <- <- <-; simpl in Hn.
           ++ apply elem_of_cons in Hin as [->|Hin]; [done|].
              apply elem_of_app in Hin as [Hin|Hin].
              ** by rewrite (no_error_elem o em Hn Hin) in Herr.
              ** by apply list_elem_of_singleton in Hin.
           ++ apply elem_of_cons in Hin as [->|Hin]; [done|].
              by rewrite (no_error_elem o em Hn Hin) in Herr.
        -- injection Hh as <- <- <-.
           by apply list_elem_of_singleton in Hin.
      * by rewrite (no_error_elem out em Hnone Hin) in Herr.
    + exfalso. destruct m; try discriminate Hg; simpl in Hh.
      * unfold on_updateQuest in Hh.
        destruct (get_prop payload "id") as [id|y|],
          (get_prop payload "status") as [st|z|]; try done.
        destruct (updateQuest _ _ _ _) as [[q s]|y|]; try done.
        -- destruct (truthy q); injection Hh as <- <- <-.
           ++ apply list_elem_of_singleton in Hin. by subst.
           ++ by apply elem_of_nil in Hin.
        -- injection Hh as <- <- <-. by apply elem_of_nil in Hin.
      * unfold on_getAdminStats in Hh.
        destruct (getStats _ _) as [st|y|]; try done.
        injection Hh as <- <- <-.
        apply list_elem_of_singleton in Hin. by subst.
      * injection Hh as <- <- <-.
        apply list_elem_of_singleton in Hin. by subst.
Qed.

Lemma escapes_and_errors_witness :
  (exists payload,
     updateQuestMsg VNull = updateQuestMsg payload
     /\ (payload = VUndef \/ payload = VNull))
  \/ (updateQuestMsg VNull = getAdminStatsMsg
      /\ getStats (env clock1) (dataStore (gateway_ab store_fix_sign))
         = Throw TypeError).
Proof.
  destruct (proj1 (escapes_and_errors clock1 "A" (updateQuestMsg VNull)
                     (gateway_ab store_fix_sign))
              TypeError (gateway_ab store_fix_sign) [] [] eq_refl)
    as (_ & _ & _ & Hcase).
  exact Hcase.
Defined.

Section NullEntries.

Lemma find_id_blocked (id : value) (xs : list value) (j : nat) (v : value) :
  xs !! j = Some v ->
  v = VNull \/ v = VUndef ->
  find_id id (take j xs) = Ok None ->
  find_id id xs = Throw TypeError.
Proof.
  revert j. induction xs as [|x r IH]; intros j Hj Hv; [done|].
  destruct j as [|j]; simpl in Hj.
  - injection Hj as ->. intros _. by destruct Hv as [-> | ->].
  - simpl. destruct (get_prop x "id") as [qid|e|]; [|done..]. simpl.
    destruct (strict_eq qid id); [done|].
    destruct (find_id id (take j r)) as [[[i q]|]|e|] eqn:E; try done.
    intros _. by rewrite (IH j Hj Hv E).
Qed.

End NullEntries.

(** X26: a [null] (or [undefined]) entry in the quest array, as a
    durability file may supply, blocks every lookup that has to pass it:
    when no earlier entry carries the id, [deleteQuest] and [updateQuest]
    throw instead of reaching later quests; the handlers catch this, log
    it, emit nothing and leave the gateway unchanged. *)
Theorem null_entry_blocks_lookup (c : Clock) (sender : string) (id : value)
    (payload : obj) (g : Gateway) (xs : list value) (ps : obj) (j : nat)
    (v : value) :
  quests (data (dataStore g)) = VArr xs ps ->
  xs !! j = Some v ->
  v = VNull \/ v = VUndef ->
  find_id id (take j xs) = Ok None ->
  get_field "id" payload = id ->
  deleteQuest id (dataStore g) = Throw TypeError
  /\ handle c sender (deleteQuestMsg id) g
     = Handled g [] [Error "Error deleting quest"]
  /\ handle c sender (updateQuestMsg (VObj payload)) g
     = Handled g [] [Error "Error updating quest"].
Proof.
  intros Hq Hj Hv Hbefore Hid.
  pose proof (find_id_blocked id xs j v Hj Hv Hbefore) as Hthrow.
  assert (Hdel : deleteQuest id (dataStore g) = Throw TypeError).
  { unfold deleteQuest. by rewrite Hq, Hthrow. }
  split; [exact Hdel|]. split.
  - simpl. unfold on_deleteQuest. by rewrite Hdel.
  - simpl. unfold on_updateQuest. simpl. rewrite Hid.
    unfold updateQuest. by rewrite Hq, Hthrow.
Qed.

Lemma null_entry_blocks_lookup_witness :
  let s :=
    (constructor env0
       (Json (VObj [("quests", arr [VNull; VObj fix_sign_stored])]))).1 in
  deleteQuest (gen_id env0) s = Throw TypeError
  /\ handle clock1 "A" (deleteQuestMsg (gen_id env0)) (gateway_ab s)
     = Handled (gateway_ab s) [] [Error "Error deleting quest"].
Proof.
  intros s.
  destruct (null_entry_blocks_lookup clock1 "A" (gen_id env0)
              [("id", gen_id env0)] (gateway_ab s)
              [VNull; VObj fix_sign_stored] [] 0 VNull
              eq_refl eq_refl (or_introl eq_refl) eq_refl eq_refl)
    as (Hdel & Hh & _).
  split; [exact Hdel|exact Hh].
Defined.

Section StatsAfter.

Lemma getStats_typed (e : Env) (s : DataStore) (qs ms : list obj)
    (ps ps' : obj) (cs : list value) (cps an : obj) :
  quests (data s) = VArr (List.map VObj qs) ps ->
  markers (data s) = VArr (List.map VObj ms) ps' ->
  customCategories (data s) = VArr cs cps ->
  analytics (data s) = VObj an ->
  (forall m, m ∈ ms -> to_string_throws (get_field "createdAt" m) = false) ->
  getStats e s
  = Ok {| totalQuests := length qs;
          totalMarkers := length ms;
          questsOpen := length (List.filter (status_exactly "open") qs);
          questsTaken := length (List.filter (status_exactly "taken") qs);
          activeUsers := length (new_Set (users_of qs));
          markersToday :=
            length (List.filter
                      (fun m => is_today e (get_field "createdAt" m)) ms);
          stat_customCategories := num_of_nat (length cs);
          lastUpdated := get_field "lastUpdated" an |}.
Proof.
  intros Hq Hm Hc Ha Hdates.
  unfold getStats. rewrite Hq, Hm, Hc, Ha.
  rewrite (count_where_dated e ms Hdates).
  rewrite (count_where_objects (status_is "open") (status_exactly "open"))
    by apply status_is_object.
  rewrite (count_where_objects (status_is "taken")
             (status_exactly "taken")) by apply status_is_object.
  rewrite pluck_objects. simpl. by rewrite !length_map.
Qed.

Lemma status_exactly_stamped (st : string) (e : Env) (payload : obj) :
  status_exactly st
    (set_field "createdAt" (VStr (now_iso e))
       (set_field "id" (gen_id e) payload))
  = status_exactly st payload.
Proof.
  unfold status_exactly. by rewrite !get_set_field_ne.
Qed.

End StatsAfter.

(** X27: on a well-shaped store, [addQuest] of an object payload raises
    [totalQuests] by one, raises [questsOpen] (respectively
    [questsTaken]) by one exactly when the payload's [status] is [open]
    (respectively [taken]), and leaves the marker counts alone. *)
Theorem getStats_after_addQuest (e e' : Env) (payload : obj)
    (s : DataStore) (qs ms : list obj) (ps ps' : obj) (cs : list value)
    (cps an : obj) :
  quests (data s) = VArr (List.map VObj qs) ps ->
  markers (data s) = VArr (List.map VObj ms) ps' ->
  customCategories (data s) = VArr cs cps ->
  analytics (data s) = VObj an ->
  (forall m, m ∈ ms -> to_string_throws (get_field "createdAt" m) = false) ->
  exists q s' before after,
    addQuest e (VObj payload) s = Ok (q, s')
    /\ getStats e' s = Ok before
    /\ getStats e' s' = Ok after
    /\ totalQuests after = S (totalQuests before)
    /\ questsOpen after
       = (questsOpen before
          + if status_exactly "open" payload then 1 else 0)%nat
    /\ questsTaken after
       = (questsTaken before
          + if status_exactly "taken" payload then 1 else 0)%nat
    /\ totalMarkers after = totalMarkers before
    /\ markersToday after = markersToday before.
Proof.
  intros Hq Hm Hc Ha Hdates.
  rewrite (addQuest_object e payload s (List.map VObj qs) ps Hq).
  set (q := set_field "createdAt" (VStr (now_iso e))
              (set_field "id" (gen_id e) payload)).
  set (s' := scheduleSave
               (set_quests s
                  (VArr (stamped (e, payload) :: List.map VObj qs) ps))).
  assert (Hq' : quests (data s') = VArr (List.map VObj (q :: qs)) ps)
    by reflexivity.
  exists (stamped (e, payload)), s'. eexists _, _.
  split; [reflexivity|].
  split; [exact (getStats_typed e' s qs ms ps ps' cs cps an
                   Hq Hm Hc Ha Hdates)|].
  split; [exact (getStats_typed e' s' (q :: qs) ms ps ps' cs cps an
                   Hq' Hm Hc Ha Hdates)|].
  cbn [totalQuests questsOpen questsTaken totalMarkers markersToday].
  split; [done|].
  simpl List.filter. unfold q. rewrite !status_exactly_stamped.
  split; [|split; [|done]].
  - destruct (status_exactly "open" payload); simpl; lia.
  - destruct (status_exactly "taken" payload); simpl; lia.
Qed.

Lemma getStats_after_addQuest_witness :
  exists q s' before after,
    addQuest env1 (VObj paint_door) store_fix_sign = Ok (q, s')
    /\ getStats env2 store_fix_sign = Ok before
    /\ getStats env2 s' = Ok after
    /\ totalQuests after = 2%nat
    /\ questsTaken after = 1%nat.
Proof.
  destruct (getStats_after_addQuest env1 env2 paint_door store_fix_sign
              [fix_sign_stored] [] [] [] default_categories []
              [("totalConnections", VNum 0);
               ("lastUpdated", VStr (now_iso env0))]
              eq_refl eq_refl eq_refl eq_refl
              ltac:(by intros m ?%elem_of_nil))
    as (q & s' & before & after & Hadd & Hb & Ha & Htot & _ & Htaken & _).
  exists q, s', before, after. split; [exact Hadd|].
  split; [exact Hb|]. split; [exact Ha|].
  injection Hb as <-. split; [exact Htot|exact Htaken].
Defined.
